(** * Notion Table Sync: the widget's decoding, write-back, view and sync logic

    A shallow embedding of [widget-src/notion-types.ts],
    [widget-src/notion-parsers.ts] and the state logic of
    [widget-src/code.tsx], with the properties the specification states
    about them.

    Conventions.
    - A JavaScript string is the list of its UTF-16 code units.
    - A JavaScript number is an IEEE 754 binary64 value ([float]).
    - A plain object used as a dictionary ([cells]) is a [gmap]; its keys are
      assumed not to be names inherited from [Object.prototype]
      (such as [__proto__] or [constructor]).
    - What ECMAScript leaves to the host or to the locale, and the two large
      tables of the standard (Unicode case mapping, number printing), are
      operations of the class [Host]. *)

From Stdlib Require Import ZArith NArith List Ascii String DecimalString.
From Stdlib Require Import Floats SpecFloat Sorted.
From stdpp Require Import base decidable option list gmap fin_maps.

Set Warnings "-register-all".
Open Scope N_scope.

(** ** Strings *)

Abbreviation jsstring := (list N) (only parsing).

(** A literal of the source, all of whose characters are ASCII. *)
Definition lit (s : string) : jsstring :=
  map (fun a => N_of_ascii a) (list_ascii_of_string s).

(** U+2014, the em dash the widget uses as its empty placeholder. *)
Definition em_dash : jsstring := [8212].
(** U+2713, the check mark. *)
Definition check_mark : jsstring := [10003].
(** U+2192 and U+22EF, used in the "Database not found" message. *)
Definition right_arrow : jsstring := [8594].
Definition midline_ellipsis : jsstring := [8943].

(** [a === b] on strings. *)
Definition streq (a b : jsstring) : bool := bool_decide (a = b).

(** ECMAScript [WhiteSpace] and [LineTerminator] code points, all in the
    basic plane. *)
Definition isWhiteSpace (c : N) : bool :=
  (c =? 9) || (c =? 10) || (c =? 11) || (c =? 12) || (c =? 13) || (c =? 32)
  || (c =? 160) || (c =? 5760) || ((8192 <=? c) && (c <=? 8202))
  || (c =? 8232) || (c =? 8233) || (c =? 8239) || (c =? 8287)
  || (c =? 12288) || (c =? 65279).

Fixpoint dropWhile {A} (p : A -> bool) (l : list A) : list A :=
  match l with
  | [] => []
  | x :: l' => if p x then dropWhile p l' else l
  end.

Fixpoint takeWhile {A} (p : A -> bool) (l : list A) : list A :=
  match l with
  | [] => []
  | x :: l' => if p x then x :: takeWhile p l' else []
  end.

Definition trimStart (s : jsstring) : jsstring := dropWhile isWhiteSpace s.
Definition trimEnd (s : jsstring) : jsstring :=
  rev (dropWhile isWhiteSpace (rev s)).
(** [String.prototype.trim]. *)
Definition trim (s : jsstring) : jsstring := trimEnd (trimStart s).

Definition isAscii (c : N) : bool := c <? 128.
Definition isUpperAZ (c : N) : bool := (65 <=? c) && (c <=? 90).
Definition asciiLower (c : N) : N := if isUpperAZ c then c + 32 else c.

Definition isDigit (c : N) : bool := (48 <=? c) && (c <=? 57).
Definition isHexDigit (c : N) : bool :=
  isDigit c || ((97 <=? c) && (c <=? 102)) || ((65 <=? c) && (c <=? 70)).

Fixpoint isPrefixOf (p s : jsstring) : bool :=
  match p, s with
  | [], _ => true
  | _ :: _, [] => false
  | a :: p', b :: s' => (a =? b) && isPrefixOf p' s'
  end.

(** [s.includes(sub)]. *)
Fixpoint includes (s sub : jsstring) : bool :=
  isPrefixOf sub s ||
  match s with
  | [] => false
  | _ :: s' => includes s' sub
  end.

(** [s.slice(0, n)]. *)
Definition slice0 (n : nat) (s : jsstring) : jsstring := firstn n s.

(** [s.replace(/\/$/, "")]: one trailing slash is removed. *)
Definition stripTrailingSlash (s : jsstring) : jsstring :=
  match rev s with
  | 47 :: r => rev r
  | _ => s
  end.

(** [s.replace(/-/g, "")]. *)
Definition stripDashes (s : jsstring) : jsstring :=
  List.filter (fun c => negb (c =? 45)) s.

(** [s.split(":")]: the segments between colons; never empty. *)
Fixpoint splitColon (s : jsstring) : list jsstring :=
  match s with
  | [] => [[]]
  | c :: s' =>
    if c =? 58 then [] :: splitColon s'
    else match splitColon s' with
         | seg :: segs => (c :: seg) :: segs
         | [] => [[c]]
         end
  end.

(** [a < b] on strings: lexicographic on code units. *)
Fixpoint strlt (a b : jsstring) : bool :=
  match a, b with
  | _, [] => false
  | [], _ :: _ => true
  | x :: a', y :: b' => (x <? y) || ((x =? y) && strlt a' b')
  end.

(** The first match of [/([a-f0-9]{32})/i]: the leftmost block of 32
    hexadecimal digits. *)
Fixpoint hexMatch (s : jsstring) : option jsstring :=
  match s with
  | [] => None
  | _ :: s' =>
    if (32 <=? length s)%nat && forallb isHexDigit (firstn 32 s)
    then Some (firstn 32 s)
    else hexMatch s'
  end.

(** [/^(1|true|yes)$/i.test(s)]. Without the [u] flag a character outside
    ASCII never matches an ASCII letter, so the match is the ASCII
    case-insensitive comparison. *)
Definition isTruthyWord (s : jsstring) : bool :=
  let l := map asciiLower s in
  streq l (lit "1") || streq l (lit "true") || streq l (lit "yes").

(** The decimal digits of a non-negative integer, as [String(n)] prints an
    integer below 10^21. *)
Definition digitsOfN (n : N) : jsstring :=
  lit (NilZero.string_of_uint (N.to_uint n)).

(** ** Numbers *)

Definition digitVal (c : N) : Z :=
  if isDigit c then Z.of_N (c - 48)
  else if (97 <=? c) && (c <=? 102) then Z.of_N (c - 87)
  else Z.of_N (c - 55).

(** The integer a digit string denotes in the given radix. *)
Definition digitsToZ (radix : Z) (ds : jsstring) : Z :=
  fold_left (fun acc c => acc * radix + digitVal c)%Z ds 0%Z.

(** The binary64 value nearest to [m * 10 ^ e10] (ties to even), for a
    mantissa written with [nd] digits. Beyond the exponent bounds the result
    is decided without computing the power. *)
Definition roundDecimal (nd : nat) (m : Z) (e10 : Z) : float :=
  match m with
  | Zpos p =>
    if (310 <? e10)%Z then infinity
    else if (Z.of_nat nd + e10 <? -330)%Z then 0%float
    else if (0 <=? e10)%Z then
      SF2Prim (binary_normalize prec emax (m * 10 ^ e10) 0 false)
    else
      SF2Prim (SFdiv prec emax (S754_finite false p 0)
                 (S754_finite false (Z.to_pos (10 ^ (- e10))) 0))
  | _ => 0%float
  end.

(** [ExponentPart], when one is there: the exponent and what follows it. *)
Definition scanExponent (s : jsstring) : Z * jsstring :=
  match s with
  | c :: r =>
    if (c =? 101) || (c =? 69) then
      let '(neg, r') :=
        match r with
        | 43 :: r' => (false, r')
        | 45 :: r' => (true, r')
        | _ => (false, r)
        end in
      match takeWhile isDigit r' with
      | [] => (0%Z, s)
      | ds => ((if neg then - digitsToZ 10 ds else digitsToZ 10 ds)%Z,
               dropWhile isDigit r')
      end
    else (0%Z, s)
  | [] => (0%Z, s)
  end.

(** The longest prefix that is a [StrUnsignedDecimalLiteral], with its value
    and the rest of the input. *)
Definition scanUnsigned (s : jsstring) : option (float * jsstring) :=
  if isPrefixOf (lit "Infinity") s then Some (infinity, skipn 8 s)
  else
    let ip := takeWhile isDigit s in
    let r1 := dropWhile isDigit s in
    let '(fp, r2) :=
      match r1 with
      | 46 :: r => (takeWhile isDigit r, dropWhile isDigit r)
      | _ => ([], r1)
      end in
    match ip ++ fp with
    | [] => None
    | ds =>
      let '(ex, r3) := scanExponent r2 in
      Some (roundDecimal (length ds) (digitsToZ 10 ds)
              (ex - Z.of_nat (length fp)), r3)
    end.

(** The longest prefix that is a [StrDecimalLiteral]. *)
Definition scanDecimal (s : jsstring) : option (float * jsstring) :=
  match s with
  | 43 :: r => scanUnsigned r
  | 45 :: r =>
    match scanUnsigned r with
    | Some (x, r') => Some (PrimFloat.opp x, r')
    | None => None
    end
  | _ => scanUnsigned s
  end.

(** [parseFloat(s)]. *)
Definition parseFloat (s : jsstring) : float :=
  match scanDecimal (trimStart s) with
  | Some (x, _) => x
  | None => nan
  end.

(** A [NonDecimalIntegerLiteral]: [0x], [0o] or [0b] and digits. *)
Definition nonDecimalLiteral (s : jsstring) : option float :=
  match s with
  | 48 :: c :: ds =>
    let lit_of radix ok :=
      match ds with
      | [] => None
      | _ => if forallb ok ds
             then Some (SF2Prim (binary_normalize prec emax
                                   (digitsToZ radix ds) 0 false))
             else None
      end in
    if (c =? 120) || (c =? 88) then lit_of 16%Z isHexDigit
    else if (c =? 111) || (c =? 79) then
      lit_of 8%Z (fun d => (48 <=? d) && (d <=? 55))
    else if (c =? 98) || (c =? 66) then
      lit_of 2%Z (fun d => (48 <=? d) && (d <=? 49))
    else None
  | _ => None
  end.

(** [Number(s)] on a string ([StringToNumber]). *)
Definition Number (s : jsstring) : float :=
  match trim s with
  | [] => 0%float
  | t =>
    match scanDecimal t with
    | Some (x, []) => x
    | _ =>
      match nonDecimalLiteral t with
      | Some x => x
      | None => nan
      end
    end
  end.

(** [isNaN(x)] on a number. *)
Definition isNaN (x : float) : bool := PrimFloat.is_nan x.

(** ** Host operations *)

(** What the embedding takes from the host: the two tables of the
    standards it does not spell out, and what depends on the locale. *)
Class Host := {
  (** [String(x)] on a number: ECMAScript's [Number::toString]. *)
  Number_toString : float -> jsstring;
  (** [s.toLowerCase()] on a string with a character outside ASCII. *)
  unicode_toLowerCase : jsstring -> jsstring;
  (** [a.localeCompare(b)]. *)
  localeCompare : jsstring -> jsstring -> float;
  (** [n.toLocaleString()]. *)
  Number_toLocaleString : float -> jsstring;
  (** The time value of [new Date(s)], NaN for an invalid date. *)
  Date_parse : jsstring -> float;
  (** [d.toLocaleDateString()] for a date of the given time value. *)
  Date_toLocaleDateString : float -> jsstring;
}.

(** [s.toLowerCase()]. *)
Definition toLowerCase `{Host} (s : jsstring) : jsstring :=
  if forallb isAscii s then map asciiLower s else unicode_toLowerCase s.

(** ** Values and types ([notion-types.ts]) *)

(** A JavaScript value as [JSON.parse] delivers it, with [undefined] for
    what a property access can add. It is the type [unknown] of the
    declarations, and the input of the untyped reading of the decoder. *)
Inductive jsval :=
| VUndefined
| VNull
| VBool (b : bool)
| VNumber (x : float)
| VString (s : jsstring)
| VArray (l : list jsval)
| VObject (fields : list (jsstring * jsval)).

(** An optional or nullable property: absent, [null], or a value. *)
Inductive field (A : Type) :=
| Absent
| Null
| Val (a : A).
Arguments Absent {A}.
Arguments Null {A}.
Arguments Val {A} a.

Record TextContent := { content : jsstring }.

Record NotionRichTextItem := {
  plain_text : field jsstring;
  text : field TextContent;
  rt_type : field jsstring;
}.

Record NameRef := { ref_name : jsstring }.

Record DateValue := { date_start : jsstring; date_end : field jsstring }.

Record FormulaValue := {
  formula_type : jsstring;
  formula_string : field jsstring;
  formula_number : field float;
  formula_boolean : field bool;
}.

Record RollupValue := {
  rollup_type : jsstring;
  rollup_array : field (list jsval);
  rollup_number : field float;
  rollup_date : field jsval;
}.

Record Person := { person_id : field jsstring; person_name : field jsstring }.

Record NotionPropertyValue := {
  pv_id : field jsstring;
  pv_type : jsstring;
  pv_title : field (list NotionRichTextItem);
  pv_rich_text : field (list NotionRichTextItem);
  pv_number : field float;
  pv_select : field NameRef;
  pv_multi_select : field (list NameRef);
  pv_checkbox : field bool;
  pv_date : field DateValue;
  pv_url : field jsstring;
  pv_formula : field FormulaValue;
  pv_rollup : field RollupValue;
  pv_status : field NameRef;
  pv_people : field (list Person);
}.

(** [Record<string, NotionPropertyValue>], in the order of
    [Object.entries]. *)
Abbreviation Properties := (list (jsstring * NotionPropertyValue)) (only parsing).

Record NotionPage := {
  page_id : jsstring;
  properties : Properties;
  page_created_time : option jsstring;
  page_last_edited_time : option jsstring;
}.

Record NotionDatabaseQueryResponse := {
  query_object : jsstring;
  (** Declared as always there; the widget reads [data.results || []]. *)
  results : option (list NotionPage);
  next_cursor : option jsstring;
  has_more : bool;
}.

Record SchemaOption := { so_name : jsstring; so_color : field jsstring }.
Record SchemaOptions := { so_options : field (list SchemaOption) }.
Record SchemaProperty := {
  sp_type : field jsstring;
  sp_select : field SchemaOptions;
  sp_status : field SchemaOptions;
}.

Record NotionDatabaseResponse := {
  db_object : jsstring;
  db_id : jsstring;
  db_properties : gmap jsstring SchemaProperty;
}.

Record SelectOption := { opt_name : jsstring; opt_color : option jsstring }.

Record ColumnDef := {
  name : jsstring;
  propertyName : jsstring;
  type : jsstring;
  options : option (list SelectOption);
}.

Record RowData := {
  pageId : jsstring;
  cells : gmap jsstring jsstring;
  created_time : option jsstring;
  last_edited_time : option jsstring;
}.

(** ** Decoding and write-back ([notion-parsers.ts]) *)

(** [x != null ? Some x : None]. *)
Definition notNull {A} (f : field A) : option A :=
  match f with
  | Val a => Some a
  | _ => None
  end.

(** [l.join(sep)] on strings. *)
Fixpoint join (sep : jsstring) (l : list jsstring) : jsstring :=
  match l with
  | [] => []
  | [x] => x
  | x :: l' => x ++ sep ++ join sep l'
  end.

(** [formatCellForDisplay]. *)
Definition formatCellForDisplay `{Host} (type value : jsstring) : jsstring :=
  match value with
  | [] => em_dash
  | _ =>
    if streq type (lit "checkbox") then
      if isTruthyWord (trim value) then check_mark else em_dash
    else if streq type (lit "date") then
      let d := Date_parse value in
      if negb (isNaN d) then Date_toLocaleDateString d else value
    else if streq type (lit "number") then
      let n := parseFloat value in
      if isNaN n then value else Number_toLocaleString n
    else if streq type (lit "url") then value
    else value
  end.

(** [isReadOnlyType]. *)
Definition isReadOnlyType (type : jsstring) : bool :=
  streq type (lit "formula") || streq type (lit "rollup")
  || streq type (lit "people").

(** One run of [richTextToStr]'s [map]. *)
Definition richTextRun (t : NotionRichTextItem) : jsstring :=
  match notNull (plain_text t) with
  | Some s => s
  | None =>
    match notNull (text t) with
    | Some tc => content tc
    | None => []
    end
  end.

(** [richTextToStr]. *)
Definition richTextToStr (richText : field (list NotionRichTextItem))
  : jsstring :=
  match richText with
  | Val l => join [] (map richTextRun l)
  | _ => []
  end.

(** [parseNotionColumns]. Every value of the first page is an object with a
    [type], by its declaration. *)
Definition parseNotionColumns (results : list NotionPage) : list ColumnDef :=
  match results with
  | [] => []
  | first :: _ =>
    map (fun '(name, value) =>
           {| name := name; propertyName := name; type := pv_type value;
              options := None |})
        (properties first)
  end.

(** [prop.select?.options]: [None] when it is [undefined] or [null]. *)
Definition optionsOf (o : field SchemaOptions) : option (list SchemaOption) :=
  match notNull o with
  | Some so => notNull (so_options so)
  | None => None
  end.

(** [mergeSchemaOptions]. In
    [(col.type === "select" && a) ?? (col.type === "status" && b)] the left
    operand is [false], not nullish, for a column that is not a select, and
    for a select column without options the right operand is [false]:
    [None] below is that [false] (or a nullish or empty list). *)
Definition mergeSchemaOptions (columns : list ColumnDef)
    (schema : option NotionDatabaseResponse) : list ColumnDef :=
  match schema with
  | None => columns
  | Some schema =>
    map (fun col =>
           match db_properties schema !! propertyName col with
           | None => col
           | Some prop =>
             let opts :=
               if streq (type col) (lit "select") then
                 match optionsOf (sp_select prop) with
                 | Some l => Some l
                 | None =>
                   if streq (type col) (lit "status")
                   then optionsOf (sp_status prop) else None
                 end
               else None in
             match opts with
             | None | Some [] => col
             | Some opts =>
               {| name := name col; propertyName := propertyName col;
                  type := type col;
                  options :=
                    Some (map (fun o =>
                                 {| opt_name := so_name o;
                                    opt_color :=
                                      Some (default (lit "default")
                                              (notNull (so_color o))) |})
                              opts) |}
             end
           end)
        columns
  end.

(** The [switch] of [parseNotionProperties]: the cell of one property. *)
Definition decodeProperty `{Host} (v : NotionPropertyValue) : jsstring :=
  let ty := pv_type v in
  if streq ty (lit "title") then richTextToStr (pv_title v)
  else if streq ty (lit "rich_text") then richTextToStr (pv_rich_text v)
  else if streq ty (lit "number") then
    match notNull (pv_number v) with
    | Some n => Number_toString n
    | None => []
    end
  else if streq ty (lit "select") then
    match notNull (pv_select v) with
    | Some r => ref_name r
    | None => []
    end
  else if streq ty (lit "multi_select") then
    join (lit ", ") (map ref_name (default [] (notNull (pv_multi_select v))))
  else if streq ty (lit "checkbox") then
    match pv_checkbox v with
    | Val true => lit "Yes"
    | _ => lit "No"
    end
  else if streq ty (lit "date") then
    match notNull (pv_date v) with
    | Some d => date_start d
    | None => []
    end
  else if streq ty (lit "url") then default [] (notNull (pv_url v))
  else if streq ty (lit "status") then
    match notNull (pv_status v) with
    | Some r => ref_name r
    | None => []
    end
  else if streq ty (lit "people") then
    join (lit ", ")
      (List.filter (fun s => negb (streq s []))
         (map (fun p => default [] (notNull (person_name p)))
            (default [] (notNull (pv_people v)))))
  else if streq ty (lit "formula") then
    match notNull (pv_formula v) with
    | None => []
    | Some f =>
      match notNull (formula_string f) with
      | Some s => s
      | None =>
        match notNull (formula_number f) with
        | Some n => Number_toString n
        | None =>
          match formula_boolean f with
          | Val b => if b then lit "Yes" else lit "No"
          | _ => []
          end
        end
      end
    end
  else if streq ty (lit "rollup") then
    match notNull (pv_rollup v) with
    | None => []
    | Some r =>
      match notNull (rollup_number r) with
      | Some n => Number_toString n
      | None =>
        match rollup_array r with
        | Val l => digitsOfN (N.of_nat (length l))
        | _ => []
        end
      end
    end
  else [].

(** [parseNotionProperties]: [cells[key] = ...] for each entry in turn.
    Every value is an object, by its declaration; what the guard
    [!value || typeof value !== "object"] does on other values is in
    [Raw.parseEntries]. *)
Definition parseNotionProperties `{Host} (properties : Properties)
  : gmap jsstring jsstring :=
  fold_left (fun cells '(key, v) => <[key := decodeProperty v]> cells)
    properties ∅.

(** An object literal with only its [type]. *)
Definition typeOnly (ty : jsstring) : NotionPropertyValue :=
  {| pv_id := Absent; pv_type := ty; pv_title := Absent;
     pv_rich_text := Absent; pv_number := Absent; pv_select := Absent;
     pv_multi_select := Absent; pv_checkbox := Absent; pv_date := Absent;
     pv_url := Absent; pv_formula := Absent; pv_rollup := Absent;
     pv_status := Absent; pv_people := Absent |}.

Definition with_title x (v : NotionPropertyValue) :=
  let 'Build_NotionPropertyValue i ty _ rt n s ms c d u f r st p := v in
  Build_NotionPropertyValue i ty x rt n s ms c d u f r st p.
Definition with_rich_text x (v : NotionPropertyValue) :=
  let 'Build_NotionPropertyValue i ty t _ n s ms c d u f r st p := v in
  Build_NotionPropertyValue i ty t x n s ms c d u f r st p.
Definition with_number x (v : NotionPropertyValue) :=
  let 'Build_NotionPropertyValue i ty t rt _ s ms c d u f r st p := v in
  Build_NotionPropertyValue i ty t rt x s ms c d u f r st p.
Definition with_select x (v : NotionPropertyValue) :=
  let 'Build_NotionPropertyValue i ty t rt n _ ms c d u f r st p := v in
  Build_NotionPropertyValue i ty t rt n x ms c d u f r st p.
Definition with_checkbox x (v : NotionPropertyValue) :=
  let 'Build_NotionPropertyValue i ty t rt n s ms _ d u f r st p := v in
  Build_NotionPropertyValue i ty t rt n s ms x d u f r st p.
Definition with_date x (v : NotionPropertyValue) :=
  let 'Build_NotionPropertyValue i ty t rt n s ms c _ u f r st p := v in
  Build_NotionPropertyValue i ty t rt n s ms c x u f r st p.
Definition with_url x (v : NotionPropertyValue) :=
  let 'Build_NotionPropertyValue i ty t rt n s ms c d _ f r st p := v in
  Build_NotionPropertyValue i ty t rt n s ms c d x f r st p.
Definition with_status x (v : NotionPropertyValue) :=
  let 'Build_NotionPropertyValue i ty t rt n s ms c d u f r _ p := v in
  Build_NotionPropertyValue i ty t rt n s ms c d u f r x p.

(** [[{ text: { content: value } }]]. *)
Definition textRuns (value : jsstring) : list NotionRichTextItem :=
  [{| plain_text := Absent; text := Val {| content := value |};
      rt_type := Absent |}].

(** [value ? x : null]. *)
Definition orNull {A} (value : jsstring) (x : A) : field A :=
  match value with
  | [] => Null
  | _ => Val x
  end.

(** [buildNotionPropertyUpdate]: the object with the one computed key. *)
Definition buildNotionPropertyUpdate (propertyName type value : jsstring)
  : Properties :=
  if streq type (lit "title") then
    [(propertyName, with_title (Val (textRuns value)) (typeOnly (lit "title")))]
  else if streq type (lit "rich_text") then
    [(propertyName,
      with_rich_text (Val (textRuns value)) (typeOnly (lit "rich_text")))]
  else if streq type (lit "number") then
    let n := match value with
             | [] => None
             | _ => Some (Number value)
             end in
    [(propertyName,
      with_number
        match n with
        | None => Null
        | Some x => if isNaN x then Null else Val x
        end
        (typeOnly (lit "number")))]
  else if streq type (lit "checkbox") then
    [(propertyName,
      with_checkbox (Val (isTruthyWord (trim value)))
        (typeOnly (lit "checkbox")))]
  else if streq type (lit "date") then
    [(propertyName,
      with_date (orNull value {| date_start := value; date_end := Null |})
        (typeOnly (lit "date")))]
  else if streq type (lit "url") then
    [(propertyName, with_url (orNull value value) (typeOnly (lit "url")))]
  else if streq type (lit "select") then
    [(propertyName,
      with_select (orNull value {| ref_name := value |})
        (typeOnly (lit "select")))]
  else if streq type (lit "status") then
    [(propertyName,
      with_status (orNull value {| ref_name := value |})
        (typeOnly (lit "status")))]
  else
    [(propertyName,
      with_rich_text (Val (textRuns value)) (typeOnly (lit "rich_text")))].

(** ** The decoder on arbitrary JSON ([Raw])

    [parseNotionProperties] as the engine runs it on whatever
    [response.json()] delivered, whether or not it has the declared shape:
    property accesses on [undefined] or [null] and calls of what is not a
    function throw a [TypeError]. *)
Module Raw.

Inductive completion (A : Type) :=
| Normal (a : A)
| Throw.
Arguments Normal {A} a.
Arguments Throw {A}.

#[global] Instance completion_ret : MRet completion := @Normal.
#[global] Instance completion_bind : MBind completion :=
  fun A B k c =>
    match c with
    | Normal a => k a
    | Throw => Throw
    end.

(** The own property of an object. *)
Fixpoint findField (k : jsstring) (fields : list (jsstring * jsval))
  : option jsval :=
  match fields with
  | [] => None
  | (k', v) :: r => if streq k k' then Some v else findField k r
  end.

(** [v.k], for the property names the decoder reads: none of them is an
    index, [length], or a member of a prototype. *)
Definition get (v : jsval) (k : string) : completion jsval :=
  match v with
  | VUndefined | VNull => Throw
  | VObject fields => Normal (default VUndefined (findField (lit k) fields))
  | _ => Normal VUndefined
  end.

(** [v == null]. *)
Definition isNullish (v : jsval) : bool :=
  match v with
  | VUndefined | VNull => true
  | _ => false
  end.

(** [ToBoolean]. *)
Definition truthy (v : jsval) : bool :=
  match v with
  | VUndefined | VNull => false
  | VBool b => b
  | VNumber x => negb (PrimFloat.eqb x 0 || PrimFloat.is_nan x)
  | VString s => negb (streq s [])
  | VArray _ | VObject _ => true
  end.

(** [String(v)] on a value that [JSON.parse] delivers. An array prints
    its elements joined by commas, through [Array.prototype.join]. An
    object prints through [Object.prototype.toString], unless it has a
    property [toString] of its own: that property is no function, and
    neither [valueOf] of its own nor [Object.prototype.valueOf] gives a
    primitive value, so the conversion throws a [TypeError]. *)
Fixpoint ToString `{Host} (v : jsval) : completion jsstring :=
  match v with
  | VUndefined => Normal (lit "undefined")
  | VNull => Normal (lit "null")
  | VBool b => Normal (if b then lit "true" else lit "false")
  | VNumber x => Normal (Number_toString x)
  | VString s => Normal s
  | VArray l =>
    parts ← mapM (fun e => if isNullish e then Normal [] else ToString e) l;
    Normal (join (lit ",") parts)
  | VObject fields =>
    match findField (lit "toString") fields with
    | Some _ => Throw
    | None => Normal (lit "[object Object]")
    end
  end.

(** Some object inside the value, or the value itself, has a property
    [toString] of its own. *)
Fixpoint ownsToString (v : jsval) : bool :=
  match v with
  | VArray l => existsb ownsToString l
  | VObject fields =>
    existsb (fun '(k, x) => streq (lit "toString") k || ownsToString x) fields
  | _ => false
  end.

(** [l.join(sep)] on an array of any values. *)
Definition arrayJoin `{Host} (sep : jsstring) (l : list jsval)
  : completion jsstring :=
  parts ← mapM (fun e => if isNullish e then Normal [] else ToString e) l;
  Normal (join sep parts).

(** [String(v)] as the value of a cell. *)
Definition stringOf `{Host} (v : jsval) : completion jsval :=
  s ← ToString v; Normal (VString s).

Definition richTextRun (t : jsval) : completion jsval :=
  pt ← get t "plain_text";
  if negb (isNullish pt) then Normal pt
  else
    tx ← get t "text";
    if isNullish tx then Normal (VString [])
    else
      c ← get tx "content";
      Normal (if isNullish c then VString [] else c).

Definition richTextToStr `{Host} (richText : jsval) : completion jsval :=
  match richText with
  | VArray l =>
    runs ← mapM richTextRun l;
    s ← arrayJoin [] runs; Normal (VString s)
  | _ => Normal (VString [])
  end.

(** [o != null && o.k != null ? o.k : ""]. *)
Definition memberOrEmpty (o : jsval) (k : string) : completion jsval :=
  if isNullish o then Normal (VString [])
  else
    x ← get o k;
    Normal (if isNullish x then VString [] else x).

(** [a.map(f)]: a call on what is not an array throws. *)
Definition arrayMap (a : jsval) (f : jsval -> completion jsval)
  : completion (list jsval) :=
  match a with
  | VArray l => mapM f l
  | _ => Throw
  end.

(** The [switch] of [parseNotionProperties] on an object. *)
Definition decodeProperty `{Host} (v : jsval) : completion jsval :=
  ty ← get v "type";
  match ty with
  | VString ty =>
    if streq ty (lit "title") then
      x ← get v "title"; richTextToStr x
    else if streq ty (lit "rich_text") then
      x ← get v "rich_text"; richTextToStr x
    else if streq ty (lit "number") then
      n ← get v "number";
      if isNullish n then Normal (VString []) else stringOf n
    else if streq ty (lit "select") then
      x ← get v "select"; memberOrEmpty x "name"
    else if streq ty (lit "multi_select") then
      x ← get v "multi_select";
      names ← arrayMap (if isNullish x then VArray [] else x)
                 (fun s => get s "name");
      s ← arrayJoin (lit ", ") names; Normal (VString s)
    else if streq ty (lit "checkbox") then
      c ← get v "checkbox";
      Normal (VString (if truthy c then lit "Yes" else lit "No"))
    else if streq ty (lit "date") then
      x ← get v "date"; memberOrEmpty x "start"
    else if streq ty (lit "url") then
      u ← get v "url";
      Normal (if isNullish u then VString [] else u)
    else if streq ty (lit "status") then
      x ← get v "status"; memberOrEmpty x "name"
    else if streq ty (lit "people") then
      x ← get v "people";
      names ← arrayMap (if isNullish x then VArray [] else x)
                 (fun p =>
                    n ← get p "name";
                    Normal (if isNullish n then VString [] else n));
      s ← arrayJoin (lit ", ") (List.filter truthy names);
      Normal (VString s)
    else if streq ty (lit "formula") then
      f ← get v "formula";
      if isNullish f then Normal (VString [])
      else
        s ← get f "string";
        if negb (isNullish s) then stringOf s
        else
          n ← get f "number";
          if negb (isNullish n) then stringOf n
          else
            b ← get f "boolean";
            match b with
            | VBool b => Normal (VString (if b then lit "Yes" else lit "No"))
            | _ => Normal (VString [])
            end
    else if streq ty (lit "rollup") then
      r ← get v "rollup";
      if isNullish r then Normal (VString [])
      else
        n ← get r "number";
        if negb (isNullish n) then stringOf n
        else
          a ← get r "array";
          match a with
          | VArray l => Normal (VString (digitsOfN (N.of_nat (length l))))
          | _ => Normal (VString [])
          end
    else Normal (VString [])
  | _ => Normal (VString [])
  end.

(** [!value || typeof value !== "object"] is false. *)
Definition isObject (v : jsval) : bool :=
  match v with
  | VArray _ | VObject _ => true
  | _ => false
  end.

(** [parseNotionProperties] on the entries of any object. *)
Fixpoint parseEntries `{Host} (entries : list (jsstring * jsval))
    (cells : gmap jsstring jsval) : completion (gmap jsstring jsval) :=
  match entries with
  | [] => Normal cells
  | (key, value) :: rest =>
    if negb (isObject value) then parseEntries rest cells
    else
      c ← decodeProperty value;
      parseEntries rest (<[key := c]> cells)
  end.

Definition parseNotionProperties `{Host}
    (properties : list (jsstring * jsval))
  : completion (gmap jsstring jsval) :=
  parseEntries properties ∅.

(** *** Values of the declared shape, as JSON *)

Definition ofField {A} (k : string) (f : A -> jsval) (x : field A)
  : list (jsstring * jsval) :=
  match x with
  | Absent => []
  | Null => [(lit k, VNull)]
  | Val a => [(lit k, f a)]
  end.

Definition ofRichTextItem (t : NotionRichTextItem) : jsval :=
  VObject
    (ofField "plain_text" VString (plain_text t)
     ++ ofField "text"
          (fun tc => VObject [(lit "content", VString (content tc))])
          (text t)
     ++ ofField "type" VString (rt_type t)).

Definition ofNameRef (r : NameRef) : jsval :=
  VObject [(lit "name", VString (ref_name r))].

Definition ofDate (d : DateValue) : jsval :=
  VObject ((lit "start", VString (date_start d))
           :: ofField "end" VString (date_end d)).

Definition ofFormula (f : FormulaValue) : jsval :=
  VObject ((lit "type", VString (formula_type f))
           :: ofField "string" VString (formula_string f)
           ++ ofField "number" VNumber (formula_number f)
           ++ ofField "boolean" VBool (formula_boolean f)).

Definition ofRollup (r : RollupValue) : jsval :=
  VObject ((lit "type", VString (rollup_type r))
           :: ofField "array" VArray (rollup_array r)
           ++ ofField "number" VNumber (rollup_number r)
           ++ ofField "date" (fun d => d) (rollup_date r)).

Definition ofPerson (p : Person) : jsval :=
  VObject (ofField "id" VString (person_id p)
           ++ ofField "name" VString (person_name p)).

Definition ofPropertyValue (v : NotionPropertyValue) : jsval :=
  VObject
    (ofField "id" VString (pv_id v)
     ++ [(lit "type", VString (pv_type v))]
     ++ ofField "title" (fun l => VArray (map ofRichTextItem l)) (pv_title v)
     ++ ofField "rich_text" (fun l => VArray (map ofRichTextItem l))
          (pv_rich_text v)
     ++ ofField "number" VNumber (pv_number v)
     ++ ofField "select" ofNameRef (pv_select v)
     ++ ofField "multi_select" (fun l => VArray (map ofNameRef l))
          (pv_multi_select v)
     ++ ofField "checkbox" VBool (pv_checkbox v)
     ++ ofField "date" ofDate (pv_date v)
     ++ ofField "url" VString (pv_url v)
     ++ ofField "formula" ofFormula (pv_formula v)
     ++ ofField "rollup" ofRollup (pv_rollup v)
     ++ ofField "status" ofNameRef (pv_status v)
     ++ ofField "people" (fun l => VArray (map ofPerson l)) (pv_people v)).

Definition ofProperties (ps : Properties) : list (jsstring * jsval) :=
  map (fun '(k, v) => (k, ofPropertyValue v)) ps.

End Raw.

(** ** The widget ([code.tsx]) *)

(** [Array.prototype.sort] with a comparator, which is stable: an element
    moves behind those it compares greater than ([cmp x y > 0]; a NaN counts
    as [0]). For a consistent comparator this is the order every engine
    returns. For a comparator that is not consistent the standard leaves
    the order to the engine: of such a sort only the elements are known,
    not their order. *)
Fixpoint insertBy {A} (cmp : A -> A -> float) (x : A) (l : list A) : list A :=
  match l with
  | [] => [x]
  | y :: l' =>
    if PrimFloat.ltb 0 (cmp x y) then y :: insertBy cmp x l' else x :: l
  end.

Definition Array_sort {A} (cmp : A -> A -> float) (l : list A) : list A :=
  fold_right (insertBy cmp) [] l.

Record EditingCell := {
  ec_pageId : jsstring;
  ec_property : jsstring;
  ec_columnType : option jsstring;
  ec_value : jsstring;
}.

(** The synced state of one widget. *)
Record WidgetState := {
  proxyUrl : jsstring;
  databaseId : jsstring;
  columns : list ColumnDef;
  rows : list RowData;
  lastSynced : jsstring;
  error : jsstring;
  editingCell : option EditingCell;
  sortBy : jsstring;
  groupBy : jsstring;
  filterColumn : jsstring;
  filterOp : jsstring;
  filterValue : jsstring;
}.

Definition setColumns x (st : WidgetState) :=
  let 'Build_WidgetState p d _ r l e ec s g fc fo fv := st in
  Build_WidgetState p d x r l e ec s g fc fo fv.
Definition setRows x (st : WidgetState) :=
  let 'Build_WidgetState p d c _ l e ec s g fc fo fv := st in
  Build_WidgetState p d c x l e ec s g fc fo fv.
Definition setLastSynced x (st : WidgetState) :=
  let 'Build_WidgetState p d c r _ e ec s g fc fo fv := st in
  Build_WidgetState p d c r x e ec s g fc fo fv.
Definition setError x (st : WidgetState) :=
  let 'Build_WidgetState p d c r l _ ec s g fc fo fv := st in
  Build_WidgetState p d c r l x ec s g fc fo fv.
Definition setEditingCell x (st : WidgetState) :=
  let 'Build_WidgetState p d c r l e _ s g fc fo fv := st in
  Build_WidgetState p d c r l e x s g fc fo fv.

(** [normalizeDatabaseId]. *)
Definition normalizeDatabaseId `{Host} (input : jsstring) : jsstring :=
  let trimmed := trim input in
  match hexMatch trimmed with
  | Some h => toLowerCase h
  | None => toLowerCase (stripDashes trimmed)
  end.

(** [const [key, dir] = sortBy.split(":")]. *)
Definition sortKey (sortBy : jsstring) : jsstring :=
  hd [] (splitColon sortBy).
Definition sortDir (sortBy : jsstring) : option jsstring :=
  nth_error (splitColon sortBy) 1.

(** [dir === "desc"]. *)
Definition isDesc (dir : option jsstring) : bool :=
  match dir with
  | Some d => streq d (lit "desc")
  | None => false
  end.

Definition isTimestampKey (key : jsstring) : bool :=
  streq key (lit "created_time") || streq key (lit "last_edited_time").

Record SortSpec := {
  sort_property : option jsstring;
  sort_timestamp : option jsstring;
  sort_direction : jsstring;
}.

(** [buildSorts]. *)
Definition buildSorts (st : WidgetState) : list SortSpec :=
  match sortBy st with
  | [] => []
  | _ =>
    let key := sortKey (sortBy st) in
    let direction :=
      if isDesc (sortDir (sortBy st)) then lit "descending"
      else lit "ascending" in
    if isTimestampKey key then
      [{| sort_property := None; sort_timestamp := Some key;
          sort_direction := direction |}]
    else
      match key with
      | [] => []
      | _ => [{| sort_property := Some key; sort_timestamp := None;
                 sort_direction := direction |}]
      end
  end.

(** What the widget sends, and what comes back. *)
Inductive RequestBody :=
| QueryBody (sorts : option (list SortSpec))
| PatchBody (properties : Properties).

Record Request := {
  req_url : jsstring;
  req_method : jsstring;
  req_body : option RequestBody;
}.

(** How a promise settles; a rejection is known by the message the
    [catch] block shows ([e.message] or [String(e)]). *)
Inductive Settled (A : Type) :=
| Rejected (message : jsstring)
| Fulfilled (a : A).
Arguments Rejected {A} message.
Arguments Fulfilled {A} a.

Record Response (J : Type) := {
  status : N;
  responseText : jsstring;
  responseJson : Settled J;
}.
Arguments status {J} r.
Arguments responseText {J} r.
Arguments responseJson {J} r.

(** [response.ok]: the status is in the range 200 to 299. *)
Definition ok {J} (r : Response J) : bool :=
  (200 <=? status r) && (status r <=? 299).

(** An asynchronous function up to its [await]: it is over, or it has
    changed the state to [pending], issued [requests], and resumes on what
    they settle to. *)
Inductive Async (R : Type) :=
| Return (st : WidgetState)
| Await (pending : WidgetState) (requests : list Request)
    (resume : R -> WidgetState).
Arguments Return {R} st.
Arguments Await {R} pending requests resume.

Definition databaseNotFound : jsstring :=
  lit "Database not found. Share it with your integration: open the database "
  ++ right_arrow ++ lit " " ++ midline_ellipsis ++ lit " " ++ right_arrow
  ++ lit " Connections " ++ right_arrow ++ lit " Add " ++ right_arrow
  ++ lit " select your integration.".

(** What [Promise.all] of the schema and the query request settles to, and
    the clock reading of [new Date().toISOString()]. *)
Abbreviation SyncReply :=
  (Settled (Response NotionDatabaseResponse
            * Response NotionDatabaseQueryResponse) * jsstring)%type
  (only parsing).

(** [fetchFromNotion]. *)
Definition fetchFromNotion `{Host} (st : WidgetState) : Async SyncReply :=
  if streq (trim (proxyUrl st)) [] || streq (trim (databaseId st)) [] then
    Return (setError (lit "Enter proxy URL and database ID above, then Sync.")
              st)
  else
    let st := setError [] st in
    let base := stripTrailingSlash (proxyUrl st) in
    let normalizedId := normalizeDatabaseId (databaseId st) in
    let sorts := buildSorts st in
    let queryBody :=
      match sorts with
      | [] => QueryBody None
      | _ => QueryBody (Some sorts)
      end in
    Await st
      [ {| req_url := base ++ lit "/notion/databases/" ++ normalizedId;
           req_method := lit "GET"; req_body := None |};
        {| req_url := base ++ lit "/notion/databases/" ++ normalizedId
                      ++ lit "/query";
           req_method := lit "POST"; req_body := Some queryBody |} ]
      (fun '(settled, now) =>
         match settled with
         | Rejected message => setError message st
         | Fulfilled (schemaRes, queryRes) =>
           if negb (ok queryRes) then
             let t := responseText queryRes in
             let errMsg :=
               lit "Notion API: " ++ digitsOfN (status queryRes) ++ lit " "
               ++ slice0 100 t in
             let errMsg :=
               if (status queryRes =? 404)
                  || includes t (lit "could not find")
                  || includes t (lit "locate database")
               then databaseNotFound else errMsg in
             setError errMsg st
           else
             match
               (if ok schemaRes then
                  match responseJson schemaRes with
                  | Rejected message => Rejected message
                  | Fulfilled schema => Fulfilled (Some schema)
                  end
                else Fulfilled None)
             with
             | Rejected message => setError message st
             | Fulfilled schema =>
               match responseJson queryRes with
               | Rejected message => setError message st
               | Fulfilled data =>
                 let results := default [] (results data) in
                 let parsedColumns :=
                   mergeSchemaOptions (parseNotionColumns results) schema in
                 let parsedRows :=
                   map (fun page =>
                          {| pageId := page_id page;
                             cells := parseNotionProperties (properties page);
                             created_time := page_created_time page;
                             last_edited_time := page_last_edited_time page |})
                       results in
                 setLastSynced now
                   (setRows parsedRows (setColumns parsedColumns st))
               end
             end
         end).

(** [{ ...row, cells: { ...row.cells, [property]: newValue } }]. *)
Definition patchCell (property newValue : jsstring) (row : RowData) : RowData :=
  {| pageId := pageId row;
     cells := <[property := newValue]> (cells row);
     created_time := created_time row;
     last_edited_time := last_edited_time row |}.

(** [saveCellEdit]. *)
Definition saveCellEdit (newValue : jsstring) (st : WidgetState)
  : Async (Settled (Response unit)) :=
  match editingCell st with
  | None => Return st
  | Some cell =>
    let st := setEditingCell None st in
    let base := stripTrailingSlash (proxyUrl st) in
    let url := base ++ lit "/notion/pages/" ++ ec_pageId cell in
    let col :=
      find (fun c => streq (propertyName c) (ec_property cell)) (columns st) in
    let type :=
      match ec_columnType cell with
      | Some t => t
      | None =>
        match col with
        | Some c => type c
        | None => lit "rich_text"
        end
      end in
    let payload := buildNotionPropertyUpdate (ec_property cell) type newValue in
    Await st
      [ {| req_url := url; req_method := lit "PATCH";
           req_body := Some (PatchBody payload) |} ]
      (fun settled =>
         match settled with
         | Rejected message => setError message st
         | Fulfilled res =>
           if negb (ok res) then
             setError (lit "Update failed: " ++ digitsOfN (status res)
                       ++ lit " " ++ slice0 80 (responseText res)) st
           else
             setError []
               (setRows
                  (map (fun row =>
                          if streq (pageId row) (ec_pageId cell)
                          then patchCell (ec_property cell) newValue row
                          else row)
                       (rows st))
                  st)
         end)
  end.

(** [editCell]. *)
Definition editCell (pageId propertyName columnType currentValue : jsstring)
    (st : WidgetState) : WidgetState :=
  setEditingCell
    (Some {| ec_pageId := pageId; ec_property := propertyName;
             ec_columnType := Some columnType; ec_value := currentValue |})
    st.

(** The state an asynchronous function leaves once its requests have
    settled to [reply]. *)
Definition run {R} (t : Async R) (reply : R) : WidgetState :=
  match t with
  | Return st => st
  | Await _ _ resume => resume reply
  end.

(** [row.cells[key] ?? d]. *)
Definition cellOr (d : jsstring) (row : RowData) (key : jsstring) : jsstring :=
  default d (cells row !! key).

Definition hasColumn (st : WidgetState) (key : jsstring) : bool :=
  existsb (fun c => streq (propertyName c) key) (columns st).

(** [getFilteredRows]. *)
Definition getFilteredRows `{Host} (st : WidgetState) : list RowData :=
  if streq (filterColumn st) [] || negb (hasColumn st (filterColumn st)) then
    rows st
  else
    let val := toLowerCase (trim (filterValue st)) in
    let needsValue :=
      negb (streq (filterOp st) (lit "is_empty"))
      && negb (streq (filterOp st) (lit "is_not_empty")) in
    if needsValue && streq val [] then rows st
    else
      List.filter
        (fun row =>
           let cellVal := toLowerCase (cellOr [] row (filterColumn st)) in
           let isEmpty := streq cellVal [] || streq cellVal em_dash in
           if streq (filterOp st) (lit "contains") then includes cellVal val
           else if streq (filterOp st) (lit "equals") then streq cellVal val
           else if streq (filterOp st) (lit "is_empty") then isEmpty
           else if streq (filterOp st) (lit "is_not_empty") then negb isEmpty
           else true)
        (rows st).

(** A [string | number]. *)
Inductive SortValue :=
| SVString (s : jsstring)
| SVNumber (x : float).

(** [va < vb]: strings compare by code units, numbers as floats. *)
Definition svlt (va vb : SortValue) : bool :=
  match va, vb with
  | SVString a, SVString b => strlt a b
  | SVNumber a, SVNumber b => PrimFloat.ltb a b
  | SVString a, SVNumber b => PrimFloat.ltb (Number a) b
  | SVNumber a, SVString b => PrimFloat.ltb a (Number b)
  end.

(** [getCellSortValue]. *)
Definition getCellSortValue `{Host} (st : WidgetState) (row : RowData)
    (key : jsstring) : SortValue :=
  if streq key (lit "created_time") then
    SVString (default [] (created_time row))
  else if streq key (lit "last_edited_time") then
    SVString (default [] (last_edited_time row))
  else
    let v := cellOr [] row key in
    let col := find (fun c => streq (propertyName c) key) (columns st) in
    match col with
    | Some c =>
      if streq (type c) (lit "number") then
        let n := parseFloat v in
        SVNumber (if isNaN n then 0%float else n)
      else SVString (toLowerCase v)
    | None => SVString (toLowerCase v)
    end.

(** The comparator of [getSortedRows]. *)
Definition rowCompare `{Host} (st : WidgetState) (key : jsstring) (asc : bool)
    (a b : RowData) : float :=
  let va := getCellSortValue st a key in
  let vb := getCellSortValue st b key in
  let cmp :=
    if svlt va vb then (-1)%float
    else if svlt vb va then 1%float else 0%float in
  if asc then cmp else PrimFloat.opp cmp.

(** [getSortedRows]. *)
Definition getSortedRows `{Host} (st : WidgetState) : list RowData :=
  let filtered := getFilteredRows st in
  match sortBy st with
  | [] => filtered
  | _ =>
    let key := sortKey (sortBy st) in
    match key with
    | [] => rows st
    | _ =>
      let asc := negb (isDesc (sortDir (sortBy st))) in
      Array_sort (rowCompare st key asc) filtered
    end
  end.

Record Group := { groupValue : jsstring; groupRows : list RowData }.

(** [if (!map.has(val)) map.set(val, []); map.get(val).push(row)] on a
    [Map], whose keys stay in insertion order. *)
Fixpoint pushRow (val : jsstring) (row : RowData)
    (m : list (jsstring * list RowData)) : list (jsstring * list RowData) :=
  match m with
  | [] => [(val, [row])]
  | (k, rs) :: m' =>
    if streq k val then (k, rs ++ [row]) :: m'
    else (k, rs) :: pushRow val row m'
  end.

(** [map.get(key)]. *)
Fixpoint mapGet (key : jsstring) (m : list (jsstring * list RowData))
  : option (list RowData) :=
  match m with
  | [] => None
  | (k, rs) :: m' => if streq k key then Some rs else mapGet key m'
  end.

(** The comparator of the bucket keys. *)
Definition groupKeyCompare `{Host} (col : option ColumnDef) (a b : jsstring)
  : float :=
  let numeric :=
    match col with
    | Some c => streq (type c) (lit "number")
    | None => false
    end in
  let na := parseFloat a in
  let nb := parseFloat b in
  if numeric && negb (isNaN na) && negb (isNaN nb) then PrimFloat.sub na nb
  else localeCompare a b.

(** [getGroupedRows]. The comparator of the bucket keys need not be
    consistent (it mixes a numeric difference with [localeCompare]), so
    the general statements below say nothing of the order of the buckets;
    what each bucket holds does not depend on it. *)
Definition getGroupedRows `{Host} (st : WidgetState) : list Group :=
  let sorted := getSortedRows st in
  if streq (groupBy st) [] || negb (hasColumn st (groupBy st)) then
    [{| groupValue := []; groupRows := sorted |}]
  else
    let map :=
      fold_left (fun m row => pushRow (cellOr em_dash row (groupBy st)) row m)
        sorted [] in
    let col :=
      find (fun c => streq (propertyName c) (groupBy st)) (columns st) in
    let sortedKeys := Array_sort (groupKeyCompare col) (List.map fst map) in
    List.map (fun groupValue =>
                {| groupValue := groupValue;
                   groupRows := default [] (mapGet groupValue map) |})
      sortedKeys.

(** ** Definitions used by the statements *)

(** A host for the examples: numbers print as integers with a sign (exact
    for an integer below 10^21), [toLocaleString] groups the digits of an
    integer by thousands as the [en-US] locale does, strings outside ASCII
    are left as they are by [toLowerCase], [localeCompare] is the order of
    code units, and no string parses as a date. *)
Definition floatToZ (x : float) : option Z :=
  match Prim2SF x with
  | S754_zero _ => Some 0%Z
  | S754_finite s m e =>
    let mag :=
      if (0 <=? e)%Z then Some (Zpos m * 2 ^ e)%Z
      else if (Zpos m mod 2 ^ (- e) =? 0)%Z then Some (Zpos m / 2 ^ (- e))%Z
      else None in
    option_map (fun z => if s then (- z)%Z else z) mag
  | _ => None
  end.

Definition printInteger (x : float) : jsstring :=
  match floatToZ x with
  | Some z =>
    (if (z <? 0)%Z then lit "-" else []) ++ digitsOfN (Z.abs_N z)
  | None => lit "NaN"
  end.

Fixpoint groupThousands (fuel : nat) (rdigits : jsstring) : jsstring :=
  match fuel, rdigits with
  | S fuel, a :: b :: c :: (d :: _) as rest =>
    a :: b :: c :: 44 :: groupThousands fuel rest
  | _, _ => rdigits
  end.

Definition printGrouped (x : float) : jsstring :=
  match floatToZ x with
  | Some z =>
    (if (z <? 0)%Z then lit "-" else [])
    ++ rev (let r := rev (digitsOfN (Z.abs_N z)) in
            groupThousands (length r) r)
  | None => lit "NaN"
  end.

Definition exampleHost : Host :=
  {| Number_toString := printInteger;
     unicode_toLowerCase := fun s => s;
     localeCompare := fun a b =>
       if strlt a b then (-1)%float else if strlt b a then 1%float
       else 0%float;
     Number_toLocaleString := printGrouped;
     Date_parse := fun _ => nan;
     Date_toLocaleDateString := fun _ => lit "Invalid Date" |}.

(** The payload that goes with the type tag is absent or [null]. *)
Definition isMissing {A} (f : field A) : bool :=
  match f with
  | Val _ => false
  | _ => true
  end.

Definition payloadMissing (v : NotionPropertyValue) : bool :=
  let ty := pv_type v in
  if streq ty (lit "title") then isMissing (pv_title v)
  else if streq ty (lit "rich_text") then isMissing (pv_rich_text v)
  else if streq ty (lit "number") then isMissing (pv_number v)
  else if streq ty (lit "select") then isMissing (pv_select v)
  else if streq ty (lit "multi_select") then isMissing (pv_multi_select v)
  else if streq ty (lit "checkbox") then isMissing (pv_checkbox v)
  else if streq ty (lit "date") then isMissing (pv_date v)
  else if streq ty (lit "url") then isMissing (pv_url v)
  else if streq ty (lit "status") then isMissing (pv_status v)
  else if streq ty (lit "people") then isMissing (pv_people v)
  else if streq ty (lit "formula") then isMissing (pv_formula v)
  else if streq ty (lit "rollup") then isMissing (pv_rollup v)
  else false.

(** The type tags the decoder knows. *)
Definition knownType (ty : jsstring) : bool :=
  existsb (fun t => streq ty (lit t))
    ["title"; "rich_text"; "number"; "select"; "multi_select"; "checkbox";
     "date"; "url"; "status"; "people"; "formula"; "rollup"]%string.

(** The payload of a number update. *)
Definition numberUpdate (n : field float) : NotionPropertyValue :=
  with_number n (typeOnly (lit "number")).

(** The rows of scenario C: the page [p1] with [Name] and [Score]. *)
Definition scenarioRow : RowData :=
  {| pageId := lit "p1";
     cells := {[ lit "Name" := lit "Alpha"; lit "Score" := lit "3" ]};
     created_time := None; last_edited_time := None |}.

Definition scenarioColumns : list ColumnDef :=
  [ {| name := lit "Name"; propertyName := lit "Name"; type := lit "title";
       options := None |};
    {| name := lit "Score"; propertyName := lit "Score";
       type := lit "number"; options := None |} ].

Definition scenarioState : WidgetState :=
  {| proxyUrl := lit "https://proxy.example.dev"; databaseId := lit "abc";
     columns := scenarioColumns; rows := [scenarioRow];
     lastSynced := lit "2024-01-01T00:00:00.000Z"; error := [];
     editingCell := None; sortBy := []; groupBy := []; filterColumn := [];
     filterOp := lit "contains"; filterValue := [] |}.

Definition scenarioCell : EditingCell :=
  {| ec_pageId := lit "p1"; ec_property := lit "Score";
     ec_columnType := Some (lit "number"); ec_value := lit "3" |}.

Definition reply (J : Type) (code : N) (body : jsstring) : Response J :=
  {| status := code; responseText := body;
     responseJson := Rejected (lit "Unexpected token") |}.

(** The requests an asynchronous function has issued. *)
Definition requestsOf {R} (t : Async R) : list Request :=
  match t with
  | Return _ => []
  | Await _ requests _ => requests
  end.

(** What reading an optional member gives. *)
Definition fieldVal {A} (f : A -> jsval) (x : field A) : jsval :=
  match x with
  | Absent => VUndefined
  | Null => VNull
  | Val a => f a
  end.

(** The comparator lets [x] stay before [y]. *)
Definition inOrder {A} (cmp : A -> A -> float) (x y : A) : Prop :=
  PrimFloat.ltb 0 (cmp x y) = false.

(** The rows of a list whose group value is [k], in the order of the
    list. *)
Definition bucketOf (gv : RowData -> jsstring) (k : jsstring)
    (l : list RowData) : list RowData :=
  List.filter (fun row => streq (gv row) k) l.

(** The map after the rows [pre]: its keys are distinct, and under each
    key are the rows of [pre] with that group value, at least one. *)
Definition bucketsOf (gv : RowData -> jsstring)
    (m : list (jsstring * list RowData)) (pre : list RowData) : Prop :=
  NoDup (map fst m)
  /\ forall k, mapGet k m = match bucketOf gv k pre with
                            | [] => None
                            | rs => Some rs
                            end.

(** A view of three rows, sorted by the number column [Score] and grouped
    by [Tag]. *)
Definition viewRow (id name tag score : string) : RowData :=
  {| pageId := lit id;
     cells := {[ lit "Name" := lit name; lit "Tag" := lit tag;
                 lit "Score" := lit score ]};
     created_time := None; last_edited_time := None |}.

Definition viewState : WidgetState :=
  {| proxyUrl := lit "https://proxy.example.dev"; databaseId := lit "abc";
     columns :=
       scenarioColumns
       ++ [ {| name := lit "Tag"; propertyName := lit "Tag";
               type := lit "select"; options := None |} ];
     rows := [ viewRow "p1" "Alpha" "x" "10"; viewRow "p2" "Beta" "y" "2";
               viewRow "p3" "Gamma" "x" "5" ];
     lastSynced := []; error := []; editingCell := None;
     sortBy := lit "Score:asc"; groupBy := lit "Tag"; filterColumn := [];
     filterOp := lit "contains"; filterValue := [] |}.

(** Scenario D: the cells ["10"] and ["2"] of the number column [Score],
    to be sorted in ascending order. *)
Definition scoreRow (id score : string) : RowData :=
  {| pageId := lit id;
     cells := {[ lit "Score" := lit score ]};
     created_time := None; last_edited_time := None |}.

Definition scenarioD : WidgetState :=
  {| proxyUrl := lit "https://proxy.example.dev"; databaseId := lit "abc";
     columns := scenarioColumns;
     rows := [ scoreRow "p1" "10"; scoreRow "p2" "2" ];
     lastSynced := []; error := []; editingCell := None;
     sortBy := lit "Score:asc"; groupBy := []; filterColumn := [];
     filterOp := lit "contains"; filterValue := [] |}.

(** A table with a column named [:x], sorted by it in ascending order
    through the option [:x:asc] of the sort menu, filtered to the rows
    whose [Score] equals [2] and grouped by [Score]. *)
Definition colonState : WidgetState :=
  {| proxyUrl := lit "https://proxy.example.dev"; databaseId := lit "abc";
     columns :=
       scenarioColumns
       ++ [ {| name := lit ":x"; propertyName := lit ":x";
               type := lit "rich_text"; options := None |} ];
     rows := [ scoreRow "p1" "10"; scoreRow "p2" "2" ];
     lastSynced := []; error := []; editingCell := None;
     sortBy := lit ":x:asc"; groupBy := lit "Score";
     filterColumn := lit "Score"; filterOp := lit "equals";
     filterValue := lit "2" |}.



(** The record of scenario A, and the reply of a query that finds it. *)
Definition scenarioPage : NotionPage :=
  {| page_id := lit "p1";
     properties :=
       [ (lit "Name",
          with_title
            (Val [ {| plain_text := Val (lit "Alpha"); text := Absent;
                      rt_type := Absent |} ])
            (typeOnly (lit "title")));
         (lit "Score", with_number (Val 3%float) (typeOnly (lit "number"))) ];
     page_created_time := None; page_last_edited_time := None |}.

Definition scenarioQueryReply : Response NotionDatabaseQueryResponse :=
  {| status := 200; responseText := [];
     responseJson :=
       Fulfilled {| query_object := lit "list";
                    results := Some [scenarioPage];
                    next_cursor := None; has_more := false |} |}.

(** ** More of the widget ([code.tsx]) *)

(** [s.replace(/c/g, by)], for a replacement without [$]. *)
Definition replaceAll (c : N) (by_ : jsstring) (s : jsstring) : jsstring :=
  flat_map (fun x => if x =? c then by_ else [x]) s.

(** [escapeHtml]. *)
Definition escapeHtml (s : jsstring) : jsstring :=
  replaceAll 34 (lit "&quot;")
    (replaceAll 62 (lit "&gt;")
       (replaceAll 60 (lit "&lt;") (replaceAll 38 (lit "&amp;") s))).

Definition setSortBy x (st : WidgetState) :=
  let 'Build_WidgetState p d c r l e ec _ g fc fo fv := st in
  Build_WidgetState p d c r l e ec x g fc fo fv.
Definition setGroupBy x (st : WidgetState) :=
  let 'Build_WidgetState p d c r l e ec s _ fc fo fv := st in
  Build_WidgetState p d c r l e ec s x fc fo fv.
Definition setFilterColumn x (st : WidgetState) :=
  let 'Build_WidgetState p d c r l e ec s g _ fo fv := st in
  Build_WidgetState p d c r l e ec s g x fo fv.
Definition setFilterOp x (st : WidgetState) :=
  let 'Build_WidgetState p d c r l e ec s g fc _ fv := st in
  Build_WidgetState p d c r l e ec s g fc x fv.
Definition setFilterValue x (st : WidgetState) :=
  let 'Build_WidgetState p d c r l e ec s g fc fo _ := st in
  Build_WidgetState p d c r l e ec s g fc fo x.

(** One entry of a dropdown. *)
Record MenuOption := { mo_option : jsstring; mo_label : jsstring }.

(** U+2191 and U+2193, the arrows of the sort labels. *)
Definition up_arrow : jsstring := [8593].
Definition down_arrow : jsstring := [8595].

(** [sortOptions]. *)
Definition sortOptions (st : WidgetState) : list MenuOption :=
  [ {| mo_option := []; mo_label := lit "Sort: None" |} ]
  ++ flat_map
       (fun c =>
          [ {| mo_option := propertyName c ++ lit ":asc";
               mo_label := name c ++ lit " " ++ up_arrow |};
            {| mo_option := propertyName c ++ lit ":desc";
               mo_label := name c ++ lit " " ++ down_arrow |} ])
       (columns st)
  ++ [ {| mo_option := lit "created_time:asc";
          mo_label := lit "Created " ++ up_arrow |};
       {| mo_option := lit "created_time:desc";
          mo_label := lit "Created " ++ down_arrow |};
       {| mo_option := lit "last_edited_time:asc";
          mo_label := lit "Last edited " ++ up_arrow |};
       {| mo_option := lit "last_edited_time:desc";
          mo_label := lit "Last edited " ++ down_arrow |} ].

(** [groupOptions]. *)
Definition groupOptions (st : WidgetState) : list MenuOption :=
  {| mo_option := []; mo_label := lit "Group: None" |}
  :: map (fun c => {| mo_option := propertyName c;
                      mo_label := lit "By " ++ name c |})
       (columns st).

(** [filterColumnOptions]. *)
Definition filterColumnOptions (st : WidgetState) : list MenuOption :=
  {| mo_option := []; mo_label := lit "Filter: None" |}
  :: map (fun c => {| mo_option := propertyName c; mo_label := name c |})
       (columns st).

(** [filterOpOptions]. *)
Definition filterOpOptions : list MenuOption :=
  [ {| mo_option := lit "contains"; mo_label := lit "contains" |};
    {| mo_option := lit "equals"; mo_label := lit "equals" |};
    {| mo_option := lit "is_empty"; mo_label := lit "is empty" |};
    {| mo_option := lit "is_not_empty"; mo_label := lit "is not empty" |} ].

(** [needsFilterValue], as a boolean. *)
Definition needsFilterValue (st : WidgetState) : bool :=
  negb (streq (filterColumn st) [])
  && (streq (filterOp st) (lit "contains")
      || streq (filterOp st) (lit "equals")).

(** [Array.from(new Set(l))]: the first occurrence of each string, in
    order. *)
Definition dedupe (l : list jsstring) : list jsstring :=
  fold_left (fun acc x => if existsb (streq x) acc then acc else acc ++ [x])
    l [].

(** [s.localeCompare(t)] as a comparator. *)
Definition byLocale `{Host} (a b : jsstring) : float := localeCompare a b.

(** [filterValueOptions]. *)
Definition filterValueOptions `{Host} (st : WidgetState) : list MenuOption :=
  if needsFilterValue st then
    {| mo_option := []; mo_label := lit "Filter value: (none)" |}
    :: map (fun v => {| mo_option := v; mo_label := v |})
         (firstn 50
            (Array_sort byLocale
               (dedupe
                  (List.filter
                     (fun v => negb (streq v []) && negb (streq v em_dash))
                     (map (fun r => trim (cellOr [] r (filterColumn st)))
                        (rows st))))))
  else [ {| mo_option := []; mo_label := lit "Filter value: (none)" |} ].

(** An item of the property menu. *)
Inductive MenuItem :=
| Action (propertyName tooltip : jsstring)
| Separator
| Dropdown (propertyName tooltip selectedOption : jsstring)
    (options : list MenuOption).

(** [options.some((o) => o.option === current) ? current : fallback]. *)
Definition selectedOr (fallback current : jsstring)
    (options : list MenuOption) : jsstring :=
  if existsb (fun o => streq (mo_option o) current) options then current
  else fallback.

(** [menuItems]. *)
Definition menuItems `{Host} (st : WidgetState) : list MenuItem :=
  [ Action (lit "sync") (lit "Sync from Notion");
    Separator;
    Dropdown (lit "sort") (lit "Sort by")
      (selectedOr [] (sortBy st) (sortOptions st)) (sortOptions st);
    Dropdown (lit "group") (lit "Group by")
      (selectedOr [] (groupBy st) (groupOptions st)) (groupOptions st);
    Separator;
    Dropdown (lit "filterColumn") (lit "Filter by column")
      (selectedOr [] (filterColumn st) (filterColumnOptions st))
      (filterColumnOptions st);
    Dropdown (lit "filterOp") (lit "Filter operator")
      (selectedOr (lit "contains") (filterOp st) filterOpOptions)
      filterOpOptions ]
  ++ (if needsFilterValue st then
        [ Dropdown (lit "filterValue") (lit "Filter value")
            (selectedOr [] (filterValue st) (filterValueOptions st))
            (filterValueOptions st) ]
      else []).

(** The handler of the property menu; [propertyValue] is [None] when it
    is [undefined]. *)
Definition onPropertyMenu `{Host} (propertyName : jsstring)
    (propertyValue : option jsstring) (st : WidgetState) : Async SyncReply :=
  if streq propertyName (lit "sync") then fetchFromNotion st
  else if streq propertyName (lit "sort") then
    Return (setSortBy (default [] propertyValue) st)
  else if streq propertyName (lit "group") then
    Return (setGroupBy (default [] propertyValue) st)
  else if streq propertyName (lit "filterColumn") then
    Return (setFilterColumn (default [] propertyValue) st)
  else if streq propertyName (lit "filterOp") then
    Return (setFilterOp (default (lit "contains") propertyValue) st)
  else if streq propertyName (lit "filterValue") then
    Return (setFilterValue (default [] propertyValue) st)
  else Return st.

(** [isEditing] of a cell in the table. *)
Definition isEditing (st : WidgetState) (row : RowData) (col : ColumnDef)
  : bool :=
  match editingCell st with
  | Some cell =>
    streq (ec_pageId cell) (pageId row)
    && streq (ec_property cell) (propertyName col)
  | None => false
  end.

(** The [onClick] of a cell:
    [canEdit && editCell(row.pageId, col.propertyName, col.type, cellValue)]. *)
Definition onCellClick (st : WidgetState) (row : RowData) (col : ColumnDef)
  : WidgetState :=
  let cellValue := cellOr [] row (propertyName col) in
  let readOnly := isReadOnlyType (type col) in
  let canEdit := negb readOnly && negb (isEditing st row col) in
  if canEdit then editCell (pageId row) (propertyName col) (type col) cellValue st
  else st.

(** ** The proxy ([supabase/functions/notion-proxy/index.ts]) *)

(** Header names are compared without regard to case: a [Headers] object
    is a map from the names in lower case. *)
Definition headerName (n : string) : jsstring := map asciiLower (lit n).

Definition corsHeaders : gmap jsstring jsstring :=
  <[headerName "Access-Control-Allow-Origin" := lit "*"]>
    (<[headerName "Access-Control-Allow-Methods" :=
         lit "GET, POST, PATCH, OPTIONS"]>
       (<[headerName "Access-Control-Allow-Headers" :=
            lit "Content-Type, Authorization"]>
          (<[headerName "Access-Control-Max-Age" := lit "86400"]> ∅))).

(** What the handler reads of a request: the method, the [pathname] and
    the [search] of its URL, and the body. *)
Record ProxyRequest := {
  pr_method : jsstring;
  pr_pathname : jsstring;
  pr_search : jsstring;
  pr_body : jsstring;
}.

Record ProxyResponse := {
  res_status : N;
  res_headers : gmap jsstring jsstring;
  res_body : option jsstring;
}.

Record UpstreamRequest := {
  up_url : jsstring;
  up_method : jsstring;
  up_headers : gmap jsstring jsstring;
  up_body : option jsstring;
}.

(** The handler answers by itself, or calls the API and answers from what
    comes back. *)
Inductive ProxyStep :=
| Respond (r : ProxyResponse)
| Forward (request : UpstreamRequest) (answer : ProxyResponse -> ProxyResponse).

(** What follows the leftmost occurrence of [pat] in [s]. *)
Fixpoint findAfter (pat s : jsstring) : option jsstring :=
  if isPrefixOf pat s then Some (skipn (length pat) s)
  else match s with
       | [] => None
       | _ :: s' => findAfter pat s'
       end.

(** A character that [.] of a regular expression does not match. *)
Definition isLineTerminator (c : N) : bool :=
  (c =? 10) || (c =? 13) || (c =? 8232) || (c =? 8233).

(** [s.replace(/^\/notion/, "")]. *)
Definition stripNotionPrefix (s : jsstring) : jsstring :=
  if isPrefixOf (lit "/notion") s then skipn 7 s else s.

(** The path sent on. The pattern of the [match] is [/notion-proxy]
    followed by a group: [/notion/] and every character up to the end of
    the line. The path is the group without its leading [/notion]. *)
Definition notionPath (pathname : jsstring) : jsstring :=
  match findAfter (lit "/notion-proxy/notion/") pathname with
  | Some rest =>
    stripNotionPrefix
      (lit "/notion/" ++ takeWhile (fun c => negb (isLineTerminator c)) rest)
  | None => []
  end.

Definition notionUrl (req : ProxyRequest) : jsstring :=
  lit "https://api.notion.com/v1" ++ notionPath (pr_pathname req)
  ++ pr_search req.

(** The handler of [Deno.serve]; [apiKey] is [Deno.env.get("NOTION_API_KEY")]. *)
Definition proxyHandler (apiKey : option jsstring) (req : ProxyRequest)
  : ProxyStep :=
  if streq (pr_method req) (lit "OPTIONS") then
    Respond {| res_status := 200; res_headers := corsHeaders;
               res_body := None |}
  else
    match apiKey with
    | None | Some [] =>
      Respond
        {| res_status := 500;
           res_headers :=
             <[headerName "Content-Type" := lit "application/json"]>
               corsHeaders;
           res_body :=
             Some (lit "{" ++ [34] ++ lit "error" ++ [34] ++ lit ":" ++ [34]
                   ++ lit "NOTION_API_KEY not configured" ++ [34] ++ lit "}") |}
    | Some key =>
      Forward
        {| up_url := notionUrl req;
           up_method := pr_method req;
           up_headers :=
             <[headerName "Content-Type" := lit "application/json"]>
               (<[headerName "Notion-Version" := lit "2022-06-28"]>
                  (<[headerName "Authorization" := lit "Bearer " ++ key]> ∅));
           up_body :=
             if negb (streq (pr_method req) (lit "GET"))
                && negb (streq (pr_method req) (lit "HEAD"))
             then Some (pr_body req) else None |}
        (fun response =>
           {| res_status := res_status response;
              res_headers :=
                <[headerName "Access-Control-Allow-Headers" :=
                    lit "Content-Type"]>
                  (<[headerName "Access-Control-Allow-Methods" :=
                       lit "GET, POST, PATCH, OPTIONS"]>
                     (<[headerName "Access-Control-Allow-Origin" := lit "*"]>
                        (res_headers response)));
              res_body := res_body response |})
    end.

(** ** More definitions used by the statements *)

(** The types [buildNotionPropertyUpdate] has a case for. *)
Definition isWritableType (ty : jsstring) : bool :=
  existsb (fun t => streq ty (lit t))
    ["title"; "rich_text"; "number"; "checkbox"; "date"; "url"; "select";
     "status"]%string.

(** Nothing but [options] differs between two columns. *)
Definition sameColumn (c c' : ColumnDef) : Prop :=
  name c' = name c /\ propertyName c' = propertyName c /\ type c' = type c.

(** The view parameters and the configuration of two states agree. *)
Definition sameSettings (st st' : WidgetState) : Prop :=
  proxyUrl st' = proxyUrl st /\ databaseId st' = databaseId st
  /\ sortBy st' = sortBy st /\ groupBy st' = groupBy st
  /\ filterColumn st' = filterColumn st /\ filterOp st' = filterOp st
  /\ filterValue st' = filterValue st.

(** The dashed form of an id: 8, 4, 4, 4 and 12 characters. *)
Definition dashed (h : jsstring) : jsstring :=
  firstn 8 h ++ [45] ++ firstn 4 (skipn 8 h) ++ [45]
  ++ firstn 4 (skipn 12 h) ++ [45] ++ firstn 4 (skipn 16 h) ++ [45]
  ++ skipn 20 h.

(** The table of two states agrees: columns, rows and the time of the
    last sync. *)
Definition sameTable (st st' : WidgetState) : Prop :=
  columns st' = columns st /\ rows st' = rows st
  /\ lastSynced st' = lastSynced st.

(** The row a record is decoded to. *)
Definition rowOfPage `{Host} (page : NotionPage) : RowData :=
  {| pageId := page_id page;
     cells := parseNotionProperties (properties page);
     created_time := page_created_time page;
     last_edited_time := page_last_edited_time page |}.

(** The cell being edited, if any, is of a type that can be written. *)
Definition editingWritable (st : WidgetState) : Prop :=
  match editingCell st with
  | Some cell =>
    exists t, ec_columnType cell = Some t /\ isReadOnlyType t = false
  | None => True
  end.

(** The selected option of the dropdown of a name. *)
Fixpoint dropdownSelected (n : jsstring) (items : list MenuItem)
  : option jsstring :=
  match items with
  | [] => None
  | Dropdown n' _ sel _ :: items' =>
    if streq n' n then Some sel else dropdownSelected n items'
  | _ :: items' => dropdownSelected n items'
  end.

(** Row [a] may stand before row [b] in the sorted view: under an
    ascending sort the value of [b] is not smaller than that of [a], under
    a descending sort not greater. *)
Definition sortedBefore `{Host} (st : WidgetState) (a b : RowData) : Prop :=
  let key := sortKey (sortBy st) in
  if isDesc (sortDir (sortBy st)) then
    svlt (getCellSortValue st a key) (getCellSortValue st b key) = false
  else
    svlt (getCellSortValue st b key) (getCellSortValue st a key) = false.

(** * Properties *)

(** ** Strings and type tags *)

Lemma streq_true (a b : jsstring) : streq a b = true <-> a = b.
Proof. unfold streq. apply bool_decide_eq_true. Qed.

Lemma streq_false (a b : jsstring) : streq a b = false <-> a <> b.
Proof. unfold streq. apply bool_decide_eq_false. Qed.

Lemma streq_refl (a : jsstring) : streq a a = true.
Proof. by apply streq_true. Qed.

(** A type tag is one of the twelve of the [switch], or none of them. *)
Lemma type_cases (ty : jsstring) :
  ty = lit "title" \/ ty = lit "rich_text" \/ ty = lit "number"
  \/ ty = lit "select" \/ ty = lit "multi_select" \/ ty = lit "checkbox"
  \/ ty = lit "date" \/ ty = lit "url" \/ ty = lit "status"
  \/ ty = lit "people" \/ ty = lit "formula" \/ ty = lit "rollup"
  \/ knownType ty = false.
Proof.
  unfold knownType, existsb.
  repeat match goal with
         | |- context [streq ty (lit ?t)] =>
           let E := fresh "E" in
           destruct (streq ty (lit t)) eqn:E;
           [ apply streq_true in E; tauto | clear E ]
         end.
  tauto.
Qed.

Lemma knownType_false (ty : jsstring) :
  knownType ty = false ->
  forall t, In t ["title"; "rich_text"; "number"; "select"; "multi_select";
                  "checkbox"; "date"; "url"; "status"; "people"; "formula";
                  "rollup"]%string ->
            streq ty (lit t) = false.
Proof.
  unfold knownType. intros Hk t Ht.
  destruct (streq ty (lit t)) eqn:E; [ | reflexivity ].
  rewrite <- Hk. symmetry. apply existsb_exists. exists t. split; assumption.
Qed.

(** Rewrites every test of an unknown tag to [false]. *)
Ltac unknown_tag H :=
  repeat match goal with
         | |- context [streq ?ty (lit ?t)] =>
           rewrite (knownType_false ty H t) by (simpl; tauto)
         end.

Lemma decodeProperty_unknown `{Host} (v : NotionPropertyValue) :
  knownType (pv_type v) = false -> decodeProperty v = [].
Proof. intros Hk. unfold decodeProperty. unknown_tag Hk. reflexivity. Qed.

(** ** Write-back of numbers *)

(** ** Number write-back: which strings are not numbers *)

(** Rounding keeps a mantissa that is not negative that way, so its result
    is a number. *)
Lemma shr_1_nonneg (mrs : shr_record) :
  (0 <= shr_m mrs)%Z -> (0 <= shr_m (shr_1 mrs))%Z.
Proof. destruct mrs as [[ | [p | p | ] | p] r t]; cbn; lia. Qed.

Lemma iter_shr_1_nonneg (p : positive) (mrs : shr_record) :
  (0 <= shr_m mrs)%Z -> (0 <= shr_m (SpecFloat.iter_pos shr_1 p mrs))%Z.
Proof.
  revert mrs. induction p as [p IH | p IH | ]; intros mrs Hm;
    cbn [SpecFloat.iter_pos].
  - by apply IH, IH, shr_1_nonneg.
  - by apply IH, IH.
  - by apply shr_1_nonneg.
Qed.

Lemma shr_fexp_nonneg (m e : Z) (l : location) :
  (0 <= m)%Z -> (0 <= shr_m (fst (shr_fexp prec emax m e l)))%Z.
Proof.
  intros Hm. unfold shr_fexp, shr.
  assert (Hl : (0 <= shr_m (shr_record_of_loc m l))%Z)
    by (by destruct l as [ | [ | | ]]).
  destruct (fexp prec emax (Zdigits2 m + e) - e)%Z; cbn [fst]; try done.
  by apply iter_shr_1_nonneg.
Qed.

Lemma binary_round_aux_not_nan (sx : bool) (mx ex : Z) (lx : location) :
  (0 <= mx)%Z -> binary_round_aux prec emax sx mx ex lx <> S754_nan.
Proof.
  intros Hm. unfold binary_round_aux.
  pose proof (shr_fexp_nonneg mx ex lx Hm) as H1.
  destruct (shr_fexp prec emax mx ex lx) as [mrs' e']. cbn [fst] in H1.
  assert (H2 : (0 <= round_nearest_even (shr_m mrs')
                       (loc_of_shr_record mrs'))%Z).
  { unfold round_nearest_even.
    destruct (loc_of_shr_record mrs') as [ | [ | | ]]; try done;
      try destruct (Z.even (shr_m mrs')); lia. }
  pose proof (shr_fexp_nonneg _ e' loc_Exact H2) as H3.
  destruct (shr_fexp prec emax _ e' loc_Exact) as [mrs'' e''].
  cbn [fst] in H3.
  destruct (shr_m mrs'') as [ | m | m ]; [ done | | lia ].
  by destruct (e'' <=? emax - prec)%Z.
Qed.

Lemma binary_round_not_nan (sx : bool) (mx : positive) (ex : Z) :
  binary_round prec emax sx mx ex <> S754_nan.
Proof.
  unfold binary_round. destruct (shl_align _ _ _) as [mz ez].
  by apply binary_round_aux_not_nan.
Qed.

Lemma binary_normalize_not_nan (m e : Z) (sz : bool) :
  binary_normalize prec emax m e sz <> S754_nan.
Proof. destruct m; [ done | apply binary_round_not_nan .. ]. Qed.

Lemma SFdiv_finite_not_nan (sx sy : bool) (mx my : positive) (ex ey : Z) :
  SFdiv prec emax (S754_finite sx mx ex) (S754_finite sy my ey) <> S754_nan.
Proof.
  unfold SFdiv, SFdiv_core_binary.
  set (e' := Z.min _ _). set (m' := match (ex - ey - e')%Z with
                                    | Z0 => Zpos mx
                                    | Zpos _ => Z.shiftl (Zpos mx) (ex - ey - e')
                                    | Zneg _ => 0%Z
                                    end).
  assert (Hm' : (0 <= m')%Z).
  { subst m'. destruct (ex - ey - e')%Z; [ done | | done ].
    by apply Z.shiftl_nonneg. }
  pose proof (Z.div_pos m' (Zpos my) Hm' eq_refl) as Hq.
  unfold Z.div in Hq. destruct (Z.div_eucl m' (Zpos my)) as [q r].
  by apply binary_round_aux_not_nan.
Qed.

(** The float of a specification float that is a number is a number. *)
Lemma SF2Prim_not_nan (x : spec_float) :
  x <> S754_nan -> isNaN (SF2Prim x) = false.
Proof.
  intros Hx. destruct (isNaN (SF2Prim x)) eqn:E; [ exfalso | reflexivity ].
  assert (Hnan : Prim2SF (SF2Prim x) = S754_nan).
  { unfold isNaN in E. unfold Prim2SF. by rewrite E. }
  clear E. destruct x as [[ | ] | [ | ] | | sx m e]; try done;
    try (vm_compute in Hnan; discriminate Hnan).
  assert (Hld : forall f k,
             Prim2SF f <> S754_nan -> Prim2SF (Z.ldexp f k) <> S754_nan).
  { intros f k Hf. unfold Z.ldexp. rewrite ldshiftexp_spec.
    unfold SFldexp. destruct (Prim2SF f); try done.
    apply binary_round_not_nan. }
  assert (Hpm : Prim2SF (Z.ldexp (of_uint63 (Uint63.of_Z (Zpos m))) e)
                <> S754_nan).
  { apply Hld. rewrite of_uint63_spec. apply binary_normalize_not_nan. }
  unfold SF2Prim in Hnan. cbv zeta in Hnan.
  destruct sx; [ | done ].
  rewrite opp_spec in Hnan.
  by destruct (Prim2SF (Z.ldexp (of_uint63 (Uint63.of_Z (Zpos m))) e)).
Qed.

Lemma roundDecimal_not_nan (nd : nat) (m e10 : Z) :
  isNaN (roundDecimal nd m e10) = false.
Proof.
  unfold roundDecimal. destruct m as [ | p | p ]; try reflexivity.
  destruct (310 <? e10)%Z; [ reflexivity | ].
  destruct (Z.of_nat nd + e10 <? -330)%Z; [ reflexivity | ].
  destruct (0 <=? e10)%Z; apply SF2Prim_not_nan.
  - apply binary_normalize_not_nan.
  - apply SFdiv_finite_not_nan.
Qed.

Lemma opp_not_nan (x : float) :
  isNaN x = false -> isNaN (PrimFloat.opp x) = false.
Proof.
  intros Hx.
  destruct (isNaN (PrimFloat.opp x)) eqn:E; [ exfalso | reflexivity ].
  assert (Hnan : Prim2SF (PrimFloat.opp x) = S754_nan).
  { unfold isNaN in E. unfold Prim2SF. by rewrite E. }
  rewrite opp_spec in Hnan.
  assert (Hx' : Prim2SF x = S754_nan) by (by destruct (Prim2SF x)).
  rewrite <- (SF2Prim_Prim2SF x), Hx' in Hx. discriminate Hx.
Qed.

(** What the scan of a decimal literal finds is a number. *)
Lemma scanUnsigned_not_nan (s r : jsstring) (x : float) :
  scanUnsigned s = Some (x, r) -> isNaN x = false.
Proof.
  unfold scanUnsigned.
  destruct (isPrefixOf (lit "Infinity") s); [ by intros [= <- _] | ].
  destruct (dropWhile isDigit s) as [ | c r1 ].
  - destruct (takeWhile isDigit s ++ []) as [ | d ds ]; [ done | ].
    destruct (scanExponent []) as [ex r3]. intros [= <- _].
    apply roundDecimal_not_nan.
  - set (fr := match c with
               | 46 => (takeWhile isDigit r1, dropWhile isDigit r1)
               | _ => ([], c :: r1)
               end).
    destruct fr as [fp r2].
    destruct (takeWhile isDigit s ++ fp) as [ | d ds ]; [ done | ].
    destruct (scanExponent r2) as [ex r3]. intros [= <- _].
    apply roundDecimal_not_nan.
Qed.

Lemma scanDecimal_not_nan (s r : jsstring) (x : float) :
  scanDecimal s = Some (x, r) -> isNaN x = false.
Proof.
  assert (Hneg : forall s',
             match scanUnsigned s' with
             | Some (y, r') => Some (PrimFloat.opp y, r')
             | None => None
             end = Some (x, r) -> isNaN x = false).
  { intros s'. destruct (scanUnsigned s') as [[y r'] | ] eqn:E; [ | done ].
    intros [= <- _]. by apply opp_not_nan, (scanUnsigned_not_nan s' r'). }
  unfold scanDecimal. destruct s as [ | c s' ];
    [ apply scanUnsigned_not_nan | ].
  destruct c as [ | p ]; [ apply scanUnsigned_not_nan | ].
  destruct (Pos.eq_dec p 43%positive) as [-> | H43]; [ apply scanUnsigned_not_nan | ].
  destruct (Pos.eq_dec p 45%positive) as [-> | H45]; [ apply Hneg | ].
  assert (scanDecimal (Npos p :: s') = scanUnsigned (Npos p :: s')) as Heq.
  { unfold scanDecimal.
    do 6 (destruct p as [p | p | ]; try reflexivity); done. }
  unfold scanDecimal in Heq. rewrite Heq. apply scanUnsigned_not_nan.
Qed.

(** A string in which the scan finds no decimal literal has no prefix in
    which it finds one. *)
Lemma isPrefixOf_app (pat t w : jsstring) :
  isPrefixOf pat t = true -> isPrefixOf pat (t ++ w) = true.
Proof.
  revert t. induction pat as [ | a pat IH ]; intros [ | b t ]; try done.
  cbn. intros [-> Ht]%andb_true_iff. by rewrite IH.
Qed.

Lemma scanFraction_eq (r1 : jsstring) :
  match r1 with
  | 46 :: r => (takeWhile isDigit r, dropWhile isDigit r)
  | _ => ([], r1)
  end
  = match r1 with
    | c :: r =>
      if c =? 46 then (takeWhile isDigit r, dropWhile isDigit r)
      else ([], r1)
    | [] => ([], r1)
    end.
Proof.
  destruct r1 as [ | c r ]; [ reflexivity | ].
  destruct (N.eqb_spec c 46) as [-> | Hc]; [ reflexivity | ].
  destruct c as [ | p ]; [ reflexivity | ].
  do 6 (destruct p as [p | p | ]; try reflexivity). done.
Qed.

(** No prefix of it has a decimal literal either. *)
Lemma scanUnsigned_None_prefix (t w : jsstring) :
  scanUnsigned (t ++ w) = None -> scanUnsigned t = None.
Proof.
  unfold scanUnsigned. rewrite !scanFraction_eq.
  destruct (isPrefixOf (lit "Infinity") t) eqn:Ep.
  { by rewrite (isPrefixOf_app _ _ w Ep). }
  destruct (isPrefixOf (lit "Infinity") (t ++ w)); [ done | ].
  destruct t as [ | c t ]; [ reflexivity | ].
  cbn [app takeWhile dropWhile]. destruct (isDigit c).
  - destruct (match dropWhile isDigit (t ++ w) with
              | [] => _
              | _ :: _ => _
              end) as [fp r2].
    cbn [app]. by destruct (scanExponent r2).
  - destruct (c =? 46); [ | done ].
    destruct t as [ | d t ]; [ done | ].
    cbn [app takeWhile]. destruct (isDigit d); [ | done ].
    cbn [app]. by destruct (scanExponent _).
Qed.

Lemma scanDecimal_None_prefix (t w : jsstring) :
  scanDecimal (t ++ w) = None -> scanDecimal t = None.
Proof.
  destruct t as [ | c t ]; [ reflexivity | ].
  cbn [app]. destruct (N.eqb_spec c 43) as [-> | H43].
  { apply scanUnsigned_None_prefix. }
  destruct (N.eqb_spec c 45) as [-> | H45].
  { cbn [scanDecimal]. intros Hs.
    rewrite (scanUnsigned_None_prefix t w); [ done | ].
    by destruct (scanUnsigned (t ++ w)) as [[y r] | ]. }
  assert (Heq : forall s', scanDecimal (c :: s') = scanUnsigned (c :: s')).
  { intros s'. unfold scanDecimal. destruct c as [ | p ]; [ reflexivity | ].
    do 6 (destruct p as [p | p | ]; try reflexivity); done. }
  rewrite !Heq. apply (scanUnsigned_None_prefix (c :: t) w).
Qed.

(** A literal in another radix starts with the digit 0, where the scan of a
    decimal literal finds one. *)
Lemma nonDecimalLiteral_scans (t : jsstring) (x : float) :
  nonDecimalLiteral t = Some x -> scanDecimal t <> None.
Proof.
  destruct t as [ | a [ | c ds ] ]; try done.
  { destruct a as [ | p ]; [ done | ].
    do 6 (destruct p as [p | p | ]; try done). }
  destruct (N.eqb_spec a 48) as [-> | Ha].
  - intros _. cbn [scanDecimal]. unfold scanUnsigned.
    rewrite scanFraction_eq.
    change (isPrefixOf (lit "Infinity") (48 :: c :: ds)) with false.
    cbn [takeWhile dropWhile isDigit N.leb N.compare Pos.compare
           Pos.compare_cont andb].
    change (isDigit 48) with true. cbv iota.
    destruct (match dropWhile isDigit (c :: ds) with
              | [] => _
              | _ :: _ => _
              end) as [fp r2].
    cbn [app]. by destruct (scanExponent r2).
  - destruct a as [ | p ]; [ done | ].
    do 6 (destruct p as [p | p | ]; try done).
Qed.

Lemma takeWhile_dropWhile {A} (p : A -> bool) (l : list A) :
  l = takeWhile p l ++ dropWhile p l.
Proof.
  induction l as [ | x l IH ]; [ reflexivity | ].
  cbn. destruct (p x); [ | reflexivity ]. cbn. by rewrite <- IH.
Qed.

Lemma trimEnd_prefix (s : jsstring) : exists w, s = trimEnd s ++ w.
Proof.
  unfold trimEnd. exists (rev (takeWhile isWhiteSpace (rev s))).
  rewrite <- rev_app_distr, <- takeWhile_dropWhile.
  symmetry. apply rev_involutive.
Qed.

(** Where [parseFloat] finds no number, [Number] finds none either, unless
    the string is empty or all white space. *)
Lemma parseFloat_NaN_Number (v : jsstring) :
  isNaN (parseFloat v) = true -> trim v <> [] -> isNaN (Number v) = true.
Proof.
  unfold parseFloat, Number, trim. intros Hp Ht.
  destruct (scanDecimal (trimStart v)) as [[x r] | ] eqn:Es.
  { by rewrite (scanDecimal_not_nan _ _ _ Es) in Hp. }
  destruct (trimEnd_prefix (trimStart v)) as [w Hw].
  rewrite Hw in Es. apply scanDecimal_None_prefix in Es.
  destruct (trimEnd (trimStart v)) as [ | c t ]; [ done | ].
  rewrite Es.
  destruct (nonDecimalLiteral (c :: t)) as [y | ] eqn:En; [ | reflexivity ].
  by apply nonDecimalLiteral_scans in En.
Qed.

(** A string of white space that is not empty is the number 0. *)
Lemma Number_blank (v : jsstring) : trim v = [] -> Number v = 0%float.
Proof. unfold Number. by intros ->. Qed.

(** C7. For every property name, the update of a number from the empty
    string carries [number: null]; so does the update from every string
    in which [parseFloat] finds no number, ["abc"] among them, unless the
    string is all white space; and so does the update from every string
    that [Number] does not convert. A string of white space that is not
    empty is converted to 0, and its update carries the number 0.
    Whatever the string, the payload is [null] or a number that is not
    NaN. The mapper is a total function: it cannot throw. *)
Theorem buildUpdate_number_null (k v : jsstring) :
  buildNotionPropertyUpdate k (lit "number") [] = [(k, numberUpdate Null)]
  /\ (isNaN (parseFloat v) = true -> trim v <> [] ->
      buildNotionPropertyUpdate k (lit "number") v = [(k, numberUpdate Null)])
  /\ (isNaN (Number v) = true ->
      buildNotionPropertyUpdate k (lit "number") v = [(k, numberUpdate Null)])
  /\ (v <> [] -> trim v = [] ->
      buildNotionPropertyUpdate k (lit "number") v
      = [(k, numberUpdate (Val 0%float))])
  /\ buildNotionPropertyUpdate k (lit "number") (lit "abc")
     = [(k, numberUpdate Null)]
  /\ exists n,
      buildNotionPropertyUpdate k (lit "number") v = [(k, numberUpdate n)]
      /\ match n with
         | Absent => False
         | Null => True
         | Val x => isNaN x = false
         end.
Proof.
  assert (Hgen : forall w,
             buildNotionPropertyUpdate k (lit "number") w
             = [(k, numberUpdate
                      match w with
                      | [] => Null
                      | _ => if isNaN (Number w) then Null else Val (Number w)
                      end)]).
  { intros w. destruct w; reflexivity. }
  assert (Hnan : isNaN (Number v) = true ->
                 buildNotionPropertyUpdate k (lit "number") v
                 = [(k, numberUpdate Null)]).
  { intros Hnan. rewrite Hgen, Hnan. by destruct v. }
  split; [ reflexivity | ].
  split; [ intros Hp Ht; by apply Hnan, parseFloat_NaN_Number | ].
  split; [ exact Hnan | ].
  split; [ | split; [ reflexivity | ] ].
  - intros Hv Ht. rewrite Hgen, (Number_blank v Ht). by destruct v.
  - rewrite Hgen. destruct v as [ | c v ]; [ by exists Null | ].
    destruct (isNaN (Number (c :: v))) eqn:E.
    + by exists Null.
    + by exists (Val (Number (c :: v))).
Qed.

(** The update of the number column [Score] from ["abc"], in which
    [parseFloat] finds no number, and from a tab and a space. *)
Lemma buildUpdate_number_null_witness :
  isNaN (parseFloat (lit "abc")) = true
  /\ buildNotionPropertyUpdate (lit "Score") (lit "number") (lit "abc")
     = [(lit "Score", numberUpdate Null)]
  /\ buildNotionPropertyUpdate (lit "Score") (lit "number") [9; 32]
     = [(lit "Score", numberUpdate (Val 0%float))].
Proof.
  split; [ reflexivity | ]. split.
  - refine (proj1 (proj2 (buildUpdate_number_null (lit "Score") (lit "abc")))
              eq_refl _).
    discriminate.
  - refine (proj1 (proj2 (proj2 (proj2
              (buildUpdate_number_null (lit "Score") [9; 32])))) _ eq_refl).
    discriminate.
Defined.

(** C7 as stated fails on a blank: [parseFloat] finds no number in [" "],
    but [Number] converts it to 0, and the update carries the number 0,
    not [null]. *)
Lemma buildUpdate_number_blank_not_null :
  isNaN (parseFloat (lit " ")) = true
  /\ buildNotionPropertyUpdate (lit "Score") (lit "number") (lit " ")
     = [(lit "Score", numberUpdate (Val 0%float))]
  /\ buildNotionPropertyUpdate (lit "Score") (lit "number") (lit " ")
     <> [(lit "Score", numberUpdate Null)].
Proof. split; [ reflexivity | ]. split; [ reflexivity | discriminate ]. Qed.

(** [Number] reads a string of white space as 0: the update from [" "]
    carries the number 0, not [null]. *)
Lemma buildUpdate_number_blank (k : jsstring) :
  buildNotionPropertyUpdate k (lit "number") (lit " ")
  = [(k, numberUpdate (Val 0%float))].
Proof. reflexivity. Qed.

(** ** Round trip of the simple types *)

Lemma parseNotionProperties_single `{Host} (k : jsstring)
    (p : NotionPropertyValue) :
  parseNotionProperties [(k, p)] = {[ k := decodeProperty p ]}.
Proof. unfold parseNotionProperties. simpl. apply insert_empty. Qed.

(** C4. For every property name [k] and every string [v], decoding the
    update built for [k] and [v] gives the cell [v] back, for the types
    [title], [rich_text], [url] and [date]; for [url] and [date] also when
    [v] is empty, where the payload is [null]. *)
Theorem decode_buildUpdate_roundtrip `{Host} (k v : jsstring) :
  parseNotionProperties (buildNotionPropertyUpdate k (lit "title") v)
  = {[ k := v ]}
  /\ parseNotionProperties (buildNotionPropertyUpdate k (lit "rich_text") v)
     = {[ k := v ]}
  /\ parseNotionProperties (buildNotionPropertyUpdate k (lit "url") v)
     = {[ k := v ]}
  /\ parseNotionProperties (buildNotionPropertyUpdate k (lit "date") v)
     = {[ k := v ]}
  /\ parseNotionProperties
       (buildNotionPropertyUpdate k (lit "date") (lit "2024-01-01")) !! k
     = Some (lit "2024-01-01").
Proof.
  split; [ | split; [ | split; [ | split ] ] ].
  - change (buildNotionPropertyUpdate k (lit "title") v)
      with [(k, with_title (Val (textRuns v)) (typeOnly (lit "title")))].
    by rewrite parseNotionProperties_single.
  - change (buildNotionPropertyUpdate k (lit "rich_text") v)
      with [(k, with_rich_text (Val (textRuns v))
                  (typeOnly (lit "rich_text")))].
    by rewrite parseNotionProperties_single.
  - change (buildNotionPropertyUpdate k (lit "url") v)
      with [(k, with_url (orNull v v) (typeOnly (lit "url")))].
    rewrite parseNotionProperties_single. by destruct v.
  - change (buildNotionPropertyUpdate k (lit "date") v)
      with [(k, with_date (orNull v {| date_start := v; date_end := Null |})
                  (typeOnly (lit "date")))].
    rewrite parseNotionProperties_single. by destruct v.
  - change (buildNotionPropertyUpdate k (lit "date") (lit "2024-01-01"))
      with [(k, with_date
                  (Val {| date_start := lit "2024-01-01"; date_end := Null |})
                  (typeOnly (lit "date")))].
    rewrite parseNotionProperties_single. apply lookup_singleton_eq.
Qed.

(** ** Missing payloads *)

(** C9, as the code has it. When the payload that goes with a known type
    tag is absent or [null], the cell is the empty string, except for a
    checkbox, whose cell is ["No"]. *)
Theorem decodeProperty_missing `{Host} (v : NotionPropertyValue) :
  payloadMissing v = true ->
  decodeProperty v = if streq (pv_type v) (lit "checkbox") then lit "No" else [].
Proof.
  destruct v as [i ty t rt n s ms c d u f r st p].
  unfold payloadMissing, decodeProperty. cbn [pv_type].
  destruct (type_cases ty)
    as [->|[->|[->|[->|[->|[->|[->|[->|[->|[->|[->|[->|Hk]]]]]]]]]]]];
    cbn -[lit streq]; intros Hm.
  13: { revert Hm. unknown_tag Hk. discriminate. }
  - by destruct t.
  - by destruct rt.
  - by destruct n.
  - by destruct s.
  - by destruct ms.
  - by destruct c.
  - by destruct d.
  - by destruct u.
  - by destruct st.
  - by destruct p.
  - by destruct f.
  - by destruct r.
Qed.

(** A number without its payload, and a checkbox without its payload. *)
Lemma decodeProperty_missing_witness :
  payloadMissing (typeOnly (lit "number")) = true
  /\ @decodeProperty exampleHost (typeOnly (lit "number")) = []
  /\ @decodeProperty exampleHost (typeOnly (lit "checkbox")) = lit "No".
Proof.
  split; [ reflexivity | ]. split.
  - exact (@decodeProperty_missing exampleHost (typeOnly (lit "number"))
             eq_refl).
  - exact (@decodeProperty_missing exampleHost (typeOnly (lit "checkbox"))
             eq_refl).
Defined.

(** C9 as stated fails on a checkbox: the property [Done] of type
    [checkbox] without a [checkbox] member decodes to ["No"], which is not
    the empty string. *)
Lemma checkbox_missing_decodes_No :
  @parseNotionProperties exampleHost
    [(lit "Done", typeOnly (lit "checkbox"))] !! lit "Done"
  = Some (lit "No")
  /\ lit "No" <> [].
Proof.
  split; [ | discriminate ].
  rewrite parseNotionProperties_single, lookup_singleton_eq. reflexivity.
Qed.

(** ** Display formatting *)

(** C8, as the code has it. For every type other than [checkbox], [date]
    and [number], whose rendering is not a fixed point, formatting a
    formatted value changes nothing. The function reads its two arguments
    only: no state is there for it to modify. *)
Theorem formatCellForDisplay_idempotent `{Host} (t v : jsstring) :
  streq t (lit "checkbox") = false ->
  streq t (lit "date") = false ->
  streq t (lit "number") = false ->
  formatCellForDisplay t (formatCellForDisplay t v) = formatCellForDisplay t v.
Proof.
  intros Hc Hd Hn. unfold formatCellForDisplay. rewrite Hc, Hd, Hn.
  destruct v as [ | c v ].
  - by destruct (streq t (lit "url")).
  - by destruct (streq t (lit "url")).
Qed.

(** A select cell. *)
Lemma formatCellForDisplay_idempotent_witness :
  @formatCellForDisplay exampleHost (lit "select")
    (@formatCellForDisplay exampleHost (lit "select") (lit "Done"))
  = @formatCellForDisplay exampleHost (lit "select") (lit "Done").
Proof.
  exact (@formatCellForDisplay_idempotent exampleHost (lit "select")
           (lit "Done") eq_refl eq_refl eq_refl).
Defined.

(** A checkbox shows the check mark or the dash, and either of them
    formats to the dash. *)
Lemma formatCellForDisplay_checkbox_twice `{Host} (v : jsstring) :
  formatCellForDisplay (lit "checkbox")
    (formatCellForDisplay (lit "checkbox") v) = em_dash.
Proof.
  unfold formatCellForDisplay.
  change (streq (lit "checkbox") (lit "checkbox")) with true. cbv iota.
  destruct v as [ | c v ]; [ reflexivity | ].
  by destruct (isTruthyWord (trim (c :: v))).
Qed.

(** C8 as stated fails: the checkbox cell ["yes"] formats to the check
    mark, and the check mark formats to the dash; with thousands grouped as
    in [en-US], the number cell ["1234"] formats to ["1,234"], and that to
    ["1"]. *)
Lemma formatCellForDisplay_not_idempotent :
  @formatCellForDisplay exampleHost (lit "checkbox")
    (@formatCellForDisplay exampleHost (lit "checkbox") (lit "yes"))
  <> @formatCellForDisplay exampleHost (lit "checkbox") (lit "yes")
  /\ @formatCellForDisplay exampleHost (lit "number")
       (@formatCellForDisplay exampleHost (lit "number") (lit "1234"))
     <> @formatCellForDisplay exampleHost (lit "number") (lit "1234").
Proof. split; vm_compute; discriminate. Qed.

(** ** Cell update *)

Lemma rows_setError x st : rows (setError x st) = rows st.
Proof. by destruct st. Qed.
Lemma rows_setRows x st : rows (setRows x st) = x.
Proof. by destruct st. Qed.
Lemma rows_setEditingCell x st : rows (setEditingCell x st) = rows st.
Proof. by destruct st. Qed.
Lemma editingCell_setError x st :
  editingCell (setError x st) = editingCell st.
Proof. by destruct st. Qed.
Lemma editingCell_setRows x st : editingCell (setRows x st) = editingCell st.
Proof. by destruct st. Qed.
Lemma editingCell_setEditingCell x st :
  editingCell (setEditingCell x st) = x.
Proof. by destruct st. Qed.

(** C3. With a cell being edited, a successful update puts the new value
    in the cell of the edited property of every row with the edited page
    id, and changes nothing else: the other cells and the other members of
    that row, and every other row, are as before. After an update that is
    answered by a failure status, or not answered at all, the rows are as
    before. In both cases no cell is being edited. *)
Theorem saveCellEdit_frame (st : WidgetState) (cell : EditingCell)
    (newValue : jsstring) (res : Response unit) :
  editingCell st = Some cell ->
  let st' := run (saveCellEdit newValue st) (Fulfilled res) in
  editingCell st' = None
  /\ (ok res = true ->
      Forall2
        (fun row row' =>
           if streq (pageId row) (ec_pageId cell) then
             pageId row' = pageId row
             /\ created_time row' = created_time row
             /\ last_edited_time row' = last_edited_time row
             /\ cells row' !! ec_property cell = Some newValue
             /\ forall k, k <> ec_property cell ->
                          cells row' !! k = cells row !! k
           else row' = row)
        (rows st) (rows st'))
  /\ (ok res = false -> rows st' = rows st)
  /\ (forall message,
        rows (run (saveCellEdit newValue st) (Rejected message)) = rows st).
Proof.
  intros Hcell st'. subst st'. unfold saveCellEdit. rewrite Hcell.
  cbn [run].
  assert (Hrej : forall message,
             rows (setError message (setEditingCell None st)) = rows st)
    by (intros message; by rewrite rows_setError, rows_setEditingCell).
  destruct (ok res); cbn [negb].
  - split; [ | split; [ intros _ | split; [ discriminate | exact Hrej ] ] ].
    + by rewrite editingCell_setError, editingCell_setRows,
        editingCell_setEditingCell.
    + rewrite rows_setError, rows_setRows, rows_setEditingCell.
      clear Hrej. induction (rows st) as [ | row l IH ]; [ constructor | ].
      cbn [map]. constructor; [ | exact IH ].
      destruct (streq (pageId row) (ec_pageId cell)); [ | reflexivity ].
      unfold patchCell. cbn. repeat split.
      * apply lookup_insert_eq.
      * intros k Hk. by apply lookup_insert_ne.
  - split; [ | split; [ discriminate | split; [ intros _ | exact Hrej ] ] ].
    + by rewrite editingCell_setError, editingCell_setEditingCell.
    + by rewrite rows_setError, rows_setEditingCell.
Qed.

(** Scenario C: the edit of [p1]/[Score] to ["7"]. A success makes the
    cell ["7"], a failure leaves it ["3"]. *)
Lemma saveCellEdit_frame_witness :
  let st := setEditingCell (Some scenarioCell) scenarioState in
  editingCell st = Some scenarioCell
  /\ (cells <$> rows (run (saveCellEdit (lit "7") st)
                        (Fulfilled (reply unit 200 []))))
     = [ {[ lit "Name" := lit "Alpha"; lit "Score" := lit "7" ]} ]
  /\ rows (run (saveCellEdit (lit "7") st) (Fulfilled (reply unit 500 [])))
     = [scenarioRow].
Proof.
  intros st. split; [ reflexivity | ]. split.
  - vm_compute. reflexivity.
  - exact (proj1 (proj2 (proj2 (saveCellEdit_frame st scenarioCell (lit "7")
                                  (reply unit 500 []) eq_refl))) eq_refl).
Defined.

(** ** Full sync: a failed query *)

Lemma columns_setError x st : columns (setError x st) = columns st.
Proof. by destruct st. Qed.
Lemma lastSynced_setError x st : lastSynced (setError x st) = lastSynced st.
Proof. by destruct st. Qed.
Lemma error_setError x st : error (setError x st) = x.
Proof. by destruct st. Qed.
Lemma proxyUrl_setError x st : proxyUrl (setError x st) = proxyUrl st.
Proof. by destruct st. Qed.
Lemma databaseId_setError x st : databaseId (setError x st) = databaseId st.
Proof. by destruct st. Qed.

Lemma slice0_length (n : nat) (s : jsstring) : (length (slice0 n s) <= n)%nat.
Proof. unfold slice0. rewrite length_firstn. lia. Qed.

(** C2, as the code has it. With the proxy URL and the database id set,
    when the query comes back with a status outside 200..299 the columns,
    the rows and the time of the last sync are as before, and the error
    message is: the fixed "Database not found" text when the status is 404
    or the body contains "could not find" or "locate database"; otherwise
    "Notion API: ", the status, a space, and the first 100 code units of
    the body. *)
Theorem fetchFromNotion_failed_query `{Host} (st : WidgetState)
    (schemaRes : Response NotionDatabaseResponse)
    (queryRes : Response NotionDatabaseQueryResponse) (now : jsstring) :
  streq (trim (proxyUrl st)) [] = false ->
  streq (trim (databaseId st)) [] = false ->
  ok queryRes = false ->
  let st' := run (fetchFromNotion st) (Fulfilled (schemaRes, queryRes), now) in
  columns st' = columns st
  /\ rows st' = rows st
  /\ lastSynced st' = lastSynced st
  /\ error st'
     = (if (status queryRes =? 404)
           || includes (responseText queryRes) (lit "could not find")
           || includes (responseText queryRes) (lit "locate database")
        then databaseNotFound
        else lit "Notion API: " ++ digitsOfN (status queryRes) ++ lit " "
             ++ slice0 100 (responseText queryRes))
  /\ (length (slice0 100 (responseText queryRes)) <= 100)%nat.
Proof.
  intros Hp Hd Hok st'. subst st'. unfold fetchFromNotion.
  rewrite Hp, Hd. cbn [orb run]. rewrite Hok. cbn [negb].
  rewrite !columns_setError, !rows_setError, !lastSynced_setError,
    error_setError.
  repeat split. apply slice0_length.
Qed.

(** A query answered by 500 and a body of 150 letters: the message ends
    with the first 100 of them. *)
Lemma fetchFromNotion_failed_query_witness :
  let queryRes := reply NotionDatabaseQueryResponse 500 (repeat 120 150) in
  let st' := run (@fetchFromNotion exampleHost scenarioState)
               (Fulfilled (reply NotionDatabaseResponse 200 [], queryRes),
                lit "2024-02-02T00:00:00.000Z") in
  rows st' = [scenarioRow]
  /\ columns st' = scenarioColumns
  /\ lastSynced st' = lit "2024-01-01T00:00:00.000Z"
  /\ error st' = lit "Notion API: 500 " ++ repeat 120 100.
Proof.
  intros queryRes st'.
  destruct (@fetchFromNotion_failed_query exampleHost scenarioState
              (reply NotionDatabaseResponse 200 []) queryRes
              (lit "2024-02-02T00:00:00.000Z") eq_refl eq_refl eq_refl)
    as (Hc & Hr & Hl & He & _).
  repeat split; assumption.
Defined.

(** C2 as stated fails on a 404: the message is the "Database not found"
    text, which contains neither the status nor the body. *)
Lemma fetchFromNotion_404_message :
  let st' := run (@fetchFromNotion exampleHost scenarioState)
               (Fulfilled (reply NotionDatabaseResponse 200 [],
                           reply NotionDatabaseQueryResponse 404
                             (lit "no such object")),
                lit "2024-02-02T00:00:00.000Z") in
  error st' = databaseNotFound
  /\ includes (error st') (digitsOfN 404) = false
  /\ includes (error st') (lit "no such object") = false.
Proof. vm_compute. repeat split. Qed.

(** ** Database id *)

Lemma isHexDigit_cases (c : N) :
  isHexDigit c = true
  <-> (48 <= c <= 57 \/ 97 <= c <= 102 \/ 65 <= c <= 70).
Proof.
  unfold isHexDigit, isDigit.
  rewrite !orb_true_iff, !andb_true_iff, !N.leb_le. tauto.
Qed.

Lemma isHexDigit_isAscii (c : N) : isHexDigit c = true -> isAscii c = true.
Proof.
  intros Hc%isHexDigit_cases. unfold isAscii. apply N.ltb_lt. lia.
Qed.

Lemma isHexDigit_not_space (c : N) :
  isHexDigit c = true -> isWhiteSpace c = false.
Proof.
  intros Hc%isHexDigit_cases. unfold isWhiteSpace.
  repeat rewrite (proj2 (N.eqb_neq c _)) by lia.
  rewrite (proj2 (N.leb_gt 8192 c)) by lia. reflexivity.
Qed.

Lemma isHexDigit_asciiLower (c : N) :
  isHexDigit c = true ->
  isHexDigit (asciiLower c) = true /\ asciiLower (asciiLower c) = asciiLower c.
Proof.
  intros Hc%isHexDigit_cases. split.
  - apply isHexDigit_cases. unfold asciiLower, isUpperAZ.
    destruct (N.leb_spec 65 c), (N.leb_spec c 90); cbn [andb]; lia.
  - unfold asciiLower, isUpperAZ.
    destruct ((65 <=? c) && (c <=? 90)) eqn:E; [ | by rewrite E ].
    apply andb_true_iff in E as [H1 H2]. apply N.leb_le in H1, H2.
    destruct (N.leb_spec (c + 32) 90); [ lia | ].
    by rewrite andb_false_r.
Qed.

Lemma dropWhile_head_false {A} (p : A -> bool) (l : list A) :
  match l with
  | [] => True
  | x :: _ => p x = false
  end ->
  dropWhile p l = l.
Proof. destruct l as [ | x l ]; [ reflexivity | ]. cbn. by intros ->. Qed.

(** A string without white space is its own trim. *)
Lemma trim_no_space (s : jsstring) :
  forallb (fun c => negb (isWhiteSpace c)) s = true -> trim s = s.
Proof.
  intros Hs. unfold trim, trimStart, trimEnd.
  assert (Hd : forall l,
             forallb (fun c => negb (isWhiteSpace c)) l = true ->
             dropWhile isWhiteSpace l = l).
  { intros l Hl. apply dropWhile_head_false. destruct l as [ | x l ]; [ done | ].
    cbn in Hl. apply andb_true_iff in Hl as [Hx _].
    by apply negb_true_iff in Hx. }
  rewrite (Hd s Hs), Hd; [ apply rev_involutive | ].
  rewrite forallb_forall in *. intros c Hc. apply Hs. by apply in_rev.
Qed.

(** What [hexMatch] finds is 32 hexadecimal digits. *)
Lemma hexMatch_Some (s h : jsstring) :
  hexMatch s = Some h -> length h = 32%nat /\ forallb isHexDigit h = true.
Proof.
  induction s as [ | c s IH ]; [ discriminate | ].
  cbn [hexMatch].
  destruct ((32 <=? length (c :: s))%nat && forallb isHexDigit (firstn 32 (c :: s)))
    eqn:E; [ | exact IH ].
  intros [= <-]. apply andb_true_iff in E as [Hlen Hhex].
  split; [ | exact Hhex ].
  apply Nat.leb_le in Hlen. cbn [length] in *. rewrite length_firstn. lia.
Qed.

(** A block of 32 hexadecimal digits is the match in itself. *)
Lemma hexMatch_block (h : jsstring) :
  length h = 32%nat -> forallb isHexDigit h = true -> hexMatch h = Some h.
Proof.
  intros Hlen Hhex. destruct h as [ | c h ]; [ discriminate | ].
  cbn [hexMatch]. rewrite Hlen.
  change (32 <=? 32)%nat with true. cbn [andb].
  rewrite firstn_all2 by lia. by rewrite Hhex.
Qed.

Lemma toLowerCase_ascii `{Host} (s : jsstring) :
  forallb isAscii s = true -> toLowerCase s = map asciiLower s.
Proof. unfold toLowerCase. by intros ->. Qed.

(** C10, as the code has it. When the trimmed input contains a block of
    32 hexadecimal digits, the normalized id is the first such block in
    lower case, and normalizing it again changes nothing. With the proxy
    URL and the database id set, a full sync addresses both of its
    requests, the schema and the query, by the normalized id. *)
Theorem normalizeDatabaseId_hex_idempotent `{Host} :
  (forall s h : jsstring,
     hexMatch (trim s) = Some h ->
     normalizeDatabaseId s = map asciiLower h
     /\ normalizeDatabaseId (normalizeDatabaseId s) = normalizeDatabaseId s)
  /\ (forall st : WidgetState,
        streq (trim (proxyUrl st)) [] = false ->
        streq (trim (databaseId st)) [] = false ->
        map req_url (requestsOf (fetchFromNotion st))
        = [ stripTrailingSlash (proxyUrl st) ++ lit "/notion/databases/"
            ++ normalizeDatabaseId (databaseId st);
            stripTrailingSlash (proxyUrl st) ++ lit "/notion/databases/"
            ++ normalizeDatabaseId (databaseId st) ++ lit "/query" ]).
Proof.
  split.
  - intros s h Hm. destruct (hexMatch_Some _ _ Hm) as [Hlen Hhex].
    assert (Hall : forall c, In c h -> isHexDigit c = true)
      by (by apply forallb_forall).
    assert (Hn : normalizeDatabaseId s = map asciiLower h).
    { unfold normalizeDatabaseId. rewrite Hm. apply toLowerCase_ascii.
      apply forallb_forall. intros c Hc. by apply isHexDigit_isAscii, Hall. }
    split; [ exact Hn | ]. rewrite Hn.
    set (r := map asciiLower h).
    assert (Hr : forall c, In c r -> isHexDigit c = true
                                     /\ asciiLower c = c).
    { intros c Hc. apply in_map_iff in Hc as (c0 & <- & Hc0).
      by apply isHexDigit_asciiLower, Hall. }
    assert (Hrhex : forallb isHexDigit r = true).
    { apply forallb_forall. intros c Hc. by apply Hr. }
    unfold normalizeDatabaseId. rewrite trim_no_space.
    + rewrite hexMatch_block; [ | by subst r; rewrite length_map | exact Hrhex ].
      rewrite toLowerCase_ascii.
      * rewrite <- (map_id r) at 2. apply map_ext_in. intros c Hc. by apply Hr.
      * apply forallb_forall. intros c Hc. by apply isHexDigit_isAscii, Hr.
    + apply forallb_forall. intros c Hc.
      apply negb_true_iff, isHexDigit_not_space. by apply Hr.
  - intros st Hp Hd. unfold fetchFromNotion. rewrite Hp, Hd. cbn [orb].
    cbn [requestsOf map req_url].
    by rewrite proxyUrl_setError, databaseId_setError.
Qed.

(** The id pasted as part of a URL, in upper case. *)
Lemma normalizeDatabaseId_hex_idempotent_witness :
  let s := lit " https://www.notion.so/ws/0123456789ABCDEF0123456789abcdef?v=1" in
  hexMatch (trim s) = Some (lit "0123456789ABCDEF0123456789abcdef")
  /\ @normalizeDatabaseId exampleHost s = lit "0123456789abcdef0123456789abcdef"
  /\ @normalizeDatabaseId exampleHost (@normalizeDatabaseId exampleHost s)
     = @normalizeDatabaseId exampleHost s
  /\ map req_url (requestsOf (@fetchFromNotion exampleHost scenarioState))
     = [ lit "https://proxy.example.dev/notion/databases/abc";
         lit "https://proxy.example.dev/notion/databases/abc/query" ].
Proof.
  intros s. split; [ reflexivity | ].
  destruct (@normalizeDatabaseId_hex_idempotent exampleHost) as [Hid Hreq].
  destruct (Hid s _ eq_refl) as [Hn Hidem].
  split; [ exact Hn | ]. split; [ exact Hidem | ].
  exact (Hreq scenarioState eq_refl eq_refl).
Defined.

(** C10 as stated fails: ["a -"] normalizes to ["a "], the space laid bare
    by the removal of the dash, and ["a "] normalizes to ["a"]; a URL with
    the id in its dashed form normalizes to the URL without dashes, and
    that to the id alone. *)
Lemma normalizeDatabaseId_not_idempotent :
  @normalizeDatabaseId exampleHost (@normalizeDatabaseId exampleHost (lit "a -"))
  <> @normalizeDatabaseId exampleHost (lit "a -")
  /\ (let url := lit "https://notion.so/01234567-89ab-cdef-0123-456789abcdef" in
      @normalizeDatabaseId exampleHost (@normalizeDatabaseId exampleHost url)
      <> @normalizeDatabaseId exampleHost url).
Proof. split; vm_compute; discriminate. Qed.

(** ** Decoding values of the declared shape *)

Lemma findField_skip {A} (k : jsstring) (k' : string) (f : A -> jsval)
    (x : field A) (rest : list (jsstring * jsval)) :
  streq k (lit k') = false ->
  Raw.findField k (Raw.ofField k' f x ++ rest) = Raw.findField k rest.
Proof. intros Hk. destruct x; cbn; by rewrite ?Hk. Qed.

Lemma findField_skip_last {A} (k : jsstring) (k' : string) (f : A -> jsval)
    (x : field A) :
  streq k (lit k') = false -> Raw.findField k (Raw.ofField k' f x) = None.
Proof. intros Hk. destruct x; cbn; by rewrite ?Hk. Qed.

Lemma findField_cons_ne (k k' : jsstring) (v : jsval)
    (rest : list (jsstring * jsval)) :
  streq k k' = false ->
  Raw.findField k ((k', v) :: rest) = Raw.findField k rest.
Proof. intros Hk. cbn. by rewrite Hk. Qed.

Lemma findField_hit {A} (k : string) (f : A -> jsval) (x : field A)
    (rest : list (jsstring * jsval)) :
  Raw.findField (lit k) rest = None ->
  default VUndefined (Raw.findField (lit k) (Raw.ofField k f x ++ rest))
  = fieldVal f x.
Proof. intros Hr. destruct x; cbn; by rewrite ?streq_refl, ?Hr. Qed.

Lemma findField_hit_last {A} (k : string) (f : A -> jsval) (x : field A) :
  default VUndefined (Raw.findField (lit k) (Raw.ofField k f x)) = fieldVal f x.
Proof. destruct x; cbn; by rewrite ?streq_refl. Qed.

(** Looks a literal name up in the members of an embedded object. *)
Ltac skip_fields :=
  repeat first
    [ rewrite findField_skip by reflexivity
    | rewrite findField_cons_ne by reflexivity
    | rewrite findField_skip_last by reflexivity ].

Ltac find_field :=
  cbn [Raw.get Raw.ofPropertyValue app];
  skip_fields;
  first [ rewrite findField_hit_last
        | rewrite findField_hit by (skip_fields; reflexivity) ];
  reflexivity.

Section Embedded.
Context `{Host}.
Variable v : NotionPropertyValue.

Lemma get_type :
  Raw.get (Raw.ofPropertyValue v) "type" = Raw.Normal (VString (pv_type v)).
Proof.
  cbn [Raw.get Raw.ofPropertyValue app]. skip_fields.
  cbn. by rewrite streq_refl.
Qed.

Lemma get_title :
  Raw.get (Raw.ofPropertyValue v) "title"
  = Raw.Normal (fieldVal (fun l => VArray (map Raw.ofRichTextItem l))
                  (pv_title v)).
Proof. find_field. Qed.

Lemma get_rich_text :
  Raw.get (Raw.ofPropertyValue v) "rich_text"
  = Raw.Normal (fieldVal (fun l => VArray (map Raw.ofRichTextItem l))
                  (pv_rich_text v)).
Proof. find_field. Qed.

Lemma get_number :
  Raw.get (Raw.ofPropertyValue v) "number"
  = Raw.Normal (fieldVal VNumber (pv_number v)).
Proof. find_field. Qed.

Lemma get_select :
  Raw.get (Raw.ofPropertyValue v) "select"
  = Raw.Normal (fieldVal Raw.ofNameRef (pv_select v)).
Proof. find_field. Qed.

Lemma get_multi_select :
  Raw.get (Raw.ofPropertyValue v) "multi_select"
  = Raw.Normal (fieldVal (fun l => VArray (map Raw.ofNameRef l))
                  (pv_multi_select v)).
Proof. find_field. Qed.

Lemma get_checkbox :
  Raw.get (Raw.ofPropertyValue v) "checkbox"
  = Raw.Normal (fieldVal VBool (pv_checkbox v)).
Proof. find_field. Qed.

Lemma get_date :
  Raw.get (Raw.ofPropertyValue v) "date"
  = Raw.Normal (fieldVal Raw.ofDate (pv_date v)).
Proof. find_field. Qed.

Lemma get_url :
  Raw.get (Raw.ofPropertyValue v) "url"
  = Raw.Normal (fieldVal VString (pv_url v)).
Proof. find_field. Qed.

Lemma get_formula :
  Raw.get (Raw.ofPropertyValue v) "formula"
  = Raw.Normal (fieldVal Raw.ofFormula (pv_formula v)).
Proof. find_field. Qed.

Lemma get_rollup :
  Raw.get (Raw.ofPropertyValue v) "rollup"
  = Raw.Normal (fieldVal Raw.ofRollup (pv_rollup v)).
Proof. find_field. Qed.

Lemma get_status :
  Raw.get (Raw.ofPropertyValue v) "status"
  = Raw.Normal (fieldVal Raw.ofNameRef (pv_status v)).
Proof. find_field. Qed.

Lemma get_people :
  Raw.get (Raw.ofPropertyValue v) "people"
  = Raw.Normal (fieldVal (fun l => VArray (map Raw.ofPerson l))
                  (pv_people v)).
Proof. find_field. Qed.

End Embedded.

Section Agreement.
Context `{Host}.

Lemma arrayJoin_strings (sep : jsstring) (l : list jsstring) :
  Raw.arrayJoin sep (map VString l) = Raw.Normal (join sep l).
Proof.
  unfold Raw.arrayJoin.
  assert (mapM (fun e => if Raw.isNullish e then Raw.Normal []
                         else Raw.ToString e) (map VString l)
          = Raw.Normal l) as ->; [ | reflexivity ].
  induction l as [ | s l IH ]; [ reflexivity | ].
  cbn [map mapM]. rewrite IH. reflexivity.
Qed.

Lemma mapM_embedded {A} (emb : A -> jsval) (f : jsval -> Raw.completion jsval)
    (g : A -> jsstring) (l : list A) :
  (forall a, f (emb a) = Raw.Normal (VString (g a))) ->
  mapM f (map emb l) = Raw.Normal (map VString (map g l)).
Proof.
  intros Hf. induction l as [ | a l IH ]; [ reflexivity | ].
  cbn [map mapM]. rewrite Hf, IH. reflexivity.
Qed.

Lemma richTextRun_embedded (t : NotionRichTextItem) :
  Raw.richTextRun (Raw.ofRichTextItem t)
  = Raw.Normal (VString (richTextRun t)).
Proof.
  destruct t as [[ | | pt] [ | | [c]] [ | | ty]]; reflexivity.
Qed.

Lemma richTextToStr_embedded (x : field (list NotionRichTextItem)) :
  Raw.richTextToStr (fieldVal (fun l => VArray (map Raw.ofRichTextItem l)) x)
  = Raw.Normal (VString (richTextToStr x)).
Proof.
  destruct x as [ | | l ]; try reflexivity.
  cbn [fieldVal Raw.richTextToStr richTextToStr].
  rewrite (mapM_embedded _ _ richTextRun) by apply richTextRun_embedded.
  cbn. by rewrite arrayJoin_strings.
Qed.

Lemma memberOrEmpty_name (x : field NameRef) :
  Raw.memberOrEmpty (fieldVal Raw.ofNameRef x) "name"
  = Raw.Normal (VString match notNull x with
                        | Some r => ref_name r
                        | None => []
                        end).
Proof. by destruct x. Qed.

Lemma memberOrEmpty_start (x : field DateValue) :
  Raw.memberOrEmpty (fieldVal Raw.ofDate x) "start"
  = Raw.Normal (VString match notNull x with
                        | Some d => date_start d
                        | None => []
                        end).
Proof. by destruct x. Qed.

Lemma filter_truthy_strings (l : list jsstring) :
  List.filter Raw.truthy (map VString l)
  = map VString (List.filter (fun s => negb (streq s [])) l).
Proof.
  induction l as [ | s l IH ]; [ reflexivity | ].
  cbn [map List.filter Raw.truthy].
  destruct (negb (streq s [])); cbn [map]; by rewrite IH.
Qed.

(** On a value of the declared shape, the decoder ends normally with the
    string that the typed reading gives. *)
Lemma decodeProperty_embedded (v : NotionPropertyValue) :
  Raw.decodeProperty (Raw.ofPropertyValue v)
  = Raw.Normal (VString (decodeProperty v)).
Proof.
  unfold Raw.decodeProperty, decodeProperty. rewrite get_type.
  cbn [mbind Raw.completion_bind].
  destruct (type_cases (pv_type v))
    as [E|[E|[E|[E|[E|[E|[E|[E|[E|[E|[E|[E|Hk]]]]]]]]]]]];
    try (rewrite E;
         repeat match goal with
                | |- context [streq (lit ?a) (lit ?b)] =>
                  let r := eval vm_compute in (streq (lit a) (lit b)) in
                  change (streq (lit a) (lit b)) with r
                end;
         cbv iota).
  13: { unknown_tag Hk. reflexivity. }
  - rewrite get_title. apply richTextToStr_embedded.
  - rewrite get_rich_text. apply richTextToStr_embedded.
  - rewrite get_number. by destruct (pv_number v).
  - rewrite get_select. apply memberOrEmpty_name.
  - rewrite get_multi_select.
    destruct (pv_multi_select v) as [ | | l ]; try reflexivity.
    cbn [mbind Raw.completion_bind fieldVal Raw.isNullish Raw.arrayMap].
    rewrite (mapM_embedded _ _ ref_name) by reflexivity.
    cbn. by rewrite arrayJoin_strings.
  - rewrite get_checkbox. by destruct (pv_checkbox v) as [ | | [ | ]].
  - rewrite get_date. apply memberOrEmpty_start.
  - rewrite get_url. by destruct (pv_url v).
  - rewrite get_status. apply memberOrEmpty_name.
  - rewrite get_people.
    destruct (pv_people v) as [ | | l ]; try reflexivity.
    cbn [mbind Raw.completion_bind fieldVal Raw.isNullish Raw.arrayMap].
    rewrite (mapM_embedded _ _
               (fun p => default [] (notNull (person_name p)))).
    + cbn. by rewrite filter_truthy_strings, arrayJoin_strings.
    + intros [[ | | pid] [ | | n]]; reflexivity.
  - rewrite get_formula.
    destruct (pv_formula v) as [ | | [ty [ | | s] [ | | n] [ | | [ | ]]]];
      reflexivity.
  - rewrite get_rollup.
    destruct (pv_rollup v) as [ | | [ty [ | | a] [ | | n] [ | | d]]];
      reflexivity.
Qed.

Lemma parseEntries_embedded (ps : Properties) (m : gmap jsstring jsstring) :
  Raw.parseEntries (Raw.ofProperties ps) (VString <$> m)
  = Raw.Normal
      (VString <$>
         fold_left (fun cells '(key, v) => <[key := decodeProperty v]> cells)
           ps m).
Proof.
  revert m. induction ps as [ | [k v] ps IH ]; intros m; [ reflexivity | ].
  cbn [Raw.ofProperties map Raw.parseEntries fold_left].
  change (Raw.isObject (Raw.ofPropertyValue v)) with true. cbn [negb].
  rewrite decodeProperty_embedded. cbn [mbind Raw.completion_bind].
  rewrite <- fmap_insert. apply IH.
Qed.

Lemma parseNotionProperties_defined (ps : Properties)
    (m : gmap jsstring jsstring) (k : jsstring) :
  In k (map fst ps) \/ is_Some (m !! k) ->
  is_Some (fold_left
             (fun cells '(key, v) => <[key := decodeProperty v]> cells)
             ps m !! k).
Proof.
  revert m. induction ps as [ | [k' v] ps IH ]; intros m Hk.
  - destruct Hk as [[] | Hk]. exact Hk.
  - cbn [fold_left]. apply IH. cbn [map fst In] in Hk.
    destruct (decide (k' = k)) as [-> | Hne].
    + right. rewrite lookup_insert_eq. by eexists.
    + destruct Hk as [[Hk | Hk] | Hk]; [ done | by left | ].
      right. by rewrite lookup_insert_ne.
Qed.

End Agreement.

(** C1, as the code has it. On every property map whose values have the
    declared shape (any type tag, known or not; every payload absent,
    [null], or of its declared type) the decoder ends normally, the cell
    of every entry is a string, namely the one the typed reading gives,
    and the cell of an entry with an unknown tag is the empty string. *)
Theorem parseNotionProperties_total `{Host} (ps : Properties) :
  Raw.parseNotionProperties (Raw.ofProperties ps)
  = Raw.Normal (VString <$> parseNotionProperties ps)
  /\ (forall k, In k (map fst ps) ->
                exists s, parseNotionProperties ps !! k = Some s)
  /\ (forall v, knownType (pv_type v) = false -> decodeProperty v = []).
Proof.
  split; [ | split ].
  - unfold Raw.parseNotionProperties, parseNotionProperties.
    rewrite <- parseEntries_embedded. by rewrite fmap_empty.
  - intros k Hk. by apply parseNotionProperties_defined; left.
  - intros v. apply decodeProperty_unknown.
Qed.

(** C1 as stated fails on a malformed shape: with a number where the
    array of a [multi_select] should be, the call of [map] throws. *)
Lemma parseNotionProperties_throws :
  @Raw.parseNotionProperties exampleHost
    [(lit "Tags",
      VObject [(lit "type", VString (lit "multi_select"));
               (lit "multi_select", VNumber 5)])]
  = Raw.Throw.
Proof. reflexivity. Qed.

(** ** The view: grouping keeps the sorted order *)

Lemma insertBy_Permutation {A} (cmp : A -> A -> float) (x : A) (l : list A) :
  Permutation (insertBy cmp x l) (x :: l).
Proof.
  induction l as [ | y l IH ]; [ reflexivity | ].
  cbn [insertBy]. destruct (PrimFloat.ltb 0 (cmp x y)); [ | reflexivity ].
  rewrite IH. apply perm_swap.
Qed.

(** Sorting rearranges: nothing is lost and nothing is added, whatever
    the comparator. *)
Lemma Array_sort_Permutation {A} (cmp : A -> A -> float) (l : list A) :
  Permutation (Array_sort cmp l) l.
Proof.
  induction l as [ | x l IH ]; [ reflexivity | ].
  cbn [Array_sort fold_right]. rewrite insertBy_Permutation.
  by apply perm_skip.
Qed.

(** With a comparator that is total and transitive, as a consistent
    comparator is, the result of a sort is in order. *)
Section Sorted.
Context {A : Type} (cmp : A -> A -> float).
Hypothesis cmp_total : forall x y, inOrder cmp x y \/ inOrder cmp y x.
Hypothesis cmp_trans :
  forall x y z, inOrder cmp x y -> inOrder cmp y z -> inOrder cmp x z.

Lemma insertBy_sorted (x : A) (l : list A) :
  StronglySorted (inOrder cmp) l ->
  StronglySorted (inOrder cmp) (insertBy cmp x l).
Proof.
  induction l as [ | y l IH ]; intros Hs.
  - repeat constructor.
  - apply StronglySorted_inv in Hs as [Hs Hy]. cbn [insertBy].
    destruct (PrimFloat.ltb 0 (cmp x y)) eqn:E.
    + constructor; [ by apply IH | ].
      apply Forall_forall. intros z Hz%list_elem_of_In.
      apply (Permutation_in _ (insertBy_Permutation cmp x l)) in Hz
        as [<- | Hz].
      * destruct (cmp_total x y) as [Hxy | Hyx]; [ | exact Hyx ].
        unfold inOrder in Hxy. congruence.
      * rewrite Forall_forall in Hy. by apply Hy, list_elem_of_In.
    + constructor; [ by constructor | ].
      constructor; [ exact E | ].
      eapply Forall_impl; [ exact Hy | ].
      intros z Hz. by apply (cmp_trans x y z).
Qed.

Lemma Array_sort_sorted (l : list A) :
  StronglySorted (inOrder cmp) (Array_sort cmp l).
Proof.
  induction l as [ | x l IH ]; [ constructor | ].
  cbn [Array_sort fold_right]. by apply insertBy_sorted.
Qed.

End Sorted.

Section Buckets.
Variable gv : RowData -> jsstring.

Lemma streq_sym (a b : jsstring) : streq a b = streq b a.
Proof.
  destruct (streq b a) eqn:E.
  - apply streq_true in E. by apply streq_true.
  - apply streq_false in E. by apply streq_false.
Qed.

Lemma mapGet_pushRow (key val : jsstring) (row : RowData)
    (m : list (jsstring * list RowData)) :
  mapGet key (pushRow val row m)
  = if streq val key then Some (default [] (mapGet val m) ++ [row])
    else mapGet key m.
Proof.
  induction m as [ | [k rs] m IH ]; [ reflexivity | ].
  cbn [pushRow]. destruct (streq k val) eqn:Ekv.
  - apply streq_true in Ekv as ->. cbn [mapGet]. rewrite streq_refl.
    by destruct (streq val key).
  - cbn [mapGet]. rewrite Ekv, IH.
    destruct (streq k key) eqn:Ekk; [ | reflexivity ].
    apply streq_true in Ekk as ->. by rewrite streq_sym, Ekv.
Qed.

Lemma keys_pushRow (val : jsstring) (row : RowData)
    (m : list (jsstring * list RowData)) :
  map fst (pushRow val row m)
  = map fst m ++ match mapGet val m with
                 | Some _ => []
                 | None => [val]
                 end.
Proof.
  induction m as [ | [k rs] m IH ]; [ reflexivity | ].
  cbn [pushRow mapGet]. destruct (streq k val); cbn [map fst app].
  - by rewrite app_nil_r.
  - by rewrite IH.
Qed.

Lemma mapGet_In (key : jsstring) (m : list (jsstring * list RowData)) :
  In key (map fst m) <-> exists rs, mapGet key m = Some rs.
Proof.
  induction m as [ | [k rs] m IH ]; cbn [map fst In mapGet].
  - split; [ intros [] | intros [rs [=]] ].
  - destruct (streq k key) eqn:E.
    + apply streq_true in E. split; [ by eexists | by left ].
    + apply streq_false in E. rewrite <- IH. tauto.
Qed.

Lemma bucketOf_snoc (k : jsstring) (pre : list RowData) (row : RowData) :
  bucketOf gv k (pre ++ [row])
  = bucketOf gv k pre ++ (if streq (gv row) k then [row] else []).
Proof. unfold bucketOf. by rewrite List.filter_app. Qed.

Lemma bucketsOf_default (m : list (jsstring * list RowData))
    (pre : list RowData) (k : jsstring) :
  bucketsOf gv m pre -> default [] (mapGet k m) = bucketOf gv k pre.
Proof. intros [_ Hm]. rewrite Hm. by destruct (bucketOf gv k pre). Qed.

Lemma bucketsOf_pushRow (m : list (jsstring * list RowData))
    (pre : list RowData) (row : RowData) :
  bucketsOf gv m pre -> bucketsOf gv (pushRow (gv row) row m) (pre ++ [row]).
Proof.
  intros Hinv. pose proof Hinv as [Hnd Hm]. split.
  - rewrite keys_pushRow. destruct (mapGet (gv row) m) eqn:E.
    + by rewrite app_nil_r.
    + apply NoDup_app. split; [ exact Hnd | ]. split.
      * intros x Hx Hx'. apply list_elem_of_In in Hx.
        apply list_elem_of_In in Hx'. destruct Hx' as [<- | []].
        apply mapGet_In in Hx as [rs Hrs]. congruence.
      * apply NoDup_singleton.
  - intros k. rewrite mapGet_pushRow, bucketOf_snoc.
    destruct (streq (gv row) k) eqn:E.
    + apply streq_true in E as <-. rewrite (bucketsOf_default m pre) by done.
      by destruct (bucketOf gv (gv row) pre).
    + rewrite app_nil_r. apply Hm.
Qed.

Lemma bucketsOf_fold (l : list RowData) (m : list (jsstring * list RowData))
    (pre : list RowData) :
  bucketsOf gv m pre ->
  bucketsOf gv (fold_left (fun m row => pushRow (gv row) row m) l m) (pre ++ l).
Proof.
  revert m pre. induction l as [ | row l IH ]; intros m pre Hinv.
  - by rewrite app_nil_r.
  - cbn [fold_left]. rewrite (cons_middle row pre l), app_assoc.
    apply IH. by apply bucketsOf_pushRow.
Qed.

Lemma bucketOf_other (k k' : jsstring) (l : list RowData) :
  k' <> k ->
  bucketOf gv k' (List.filter (fun row => negb (streq (gv row) k)) l)
  = bucketOf gv k' l.
Proof.
  intros Hne. unfold bucketOf. induction l as [ | row l IH ]; [ reflexivity | ].
  cbn [List.filter]. destruct (streq (gv row) k) eqn:E; cbn [negb].
  - apply streq_true in E.
    assert (streq (gv row) k' = false) as -> by (apply streq_false; congruence).
    exact IH.
  - cbn [List.filter]. by rewrite IH.
Qed.

Lemma filter_split (f : RowData -> bool) (l : list RowData) :
  Permutation (List.filter f l ++ List.filter (fun x => negb (f x)) l) l.
Proof.
  induction l as [ | x l IH ]; [ reflexivity | ].
  cbn [List.filter]. destruct (f x); cbn [negb app].
  - by apply perm_skip.
  - rewrite <- Permutation_middle. by apply perm_skip.
Qed.

(** The buckets of distinct keys that cover a list, one after the other,
    hold the rows of the list, each once. *)
Lemma concat_buckets (ks : list jsstring) (l : list RowData) :
  NoDup ks ->
  (forall row, In row l -> In (gv row) ks) ->
  Permutation (concat (map (fun k => bucketOf gv k l) ks)) l.
Proof.
  revert l. induction ks as [ | k ks IH ]; intros l Hnd Hcov.
  - destruct l as [ | row l ]; [ reflexivity | ].
    destruct (Hcov row); by left.
  - apply NoDup_cons in Hnd as [Hk Hnd]. cbn [map concat].
    etransitivity; [ | apply (filter_split (fun row => streq (gv row) k)) ].
    apply Permutation_app; [ reflexivity | ].
    rewrite <- (IH (List.filter (fun row => negb (streq (gv row) k)) l) Hnd).
    + apply Permutation_refl'. f_equal. apply map_ext_in. intros k' Hk'.
      symmetry. apply bucketOf_other. intros ->.
      apply Hk. by apply list_elem_of_In.
    + intros row Hrow. apply filter_In in Hrow as [Hrow Hne].
      apply negb_true_iff, streq_false in Hne.
      destruct (Hcov row Hrow) as [Heq | Hin]; [ congruence | exact Hin ].
Qed.

End Buckets.

Lemma getSortedRows_Permutation `{Host} (st : WidgetState) :
  sortBy st = [] \/ sortKey (sortBy st) <> [] ->
  Permutation (getSortedRows st) (getFilteredRows st).
Proof.
  intros Hs. unfold getSortedRows.
  destruct (sortBy st) as [ | c s ]; [ reflexivity | ].
  destruct Hs as [[=] | Hs].
  destruct (sortKey (c :: s)); [ done | ]. apply Array_sort_Permutation.
Qed.

(** X29. The grouped view is built from the sorted view, and, when no
    sort is set or the sort has a key, the sorted view from the filtered
    view. Without an active group key, there is one bucket, and it is the
    sorted view. With one, the buckets have distinct keys, every bucket
    holds exactly the rows of the sorted view with its key, at least one,
    in the order of the sorted view, and every row of the sorted view has
    its bucket. In both cases the buckets together hold the rows of the
    sorted view, each once; and the sorted view holds the rows of the
    filtered view, each once, when no sort is set or the sort has a key. *)
Theorem getGroupedRows_keeps_sorted_order `{Host} (st : WidgetState) :
  let sorted := getSortedRows st in
  let groups := getGroupedRows st in
  let gv := fun row => cellOr em_dash row (groupBy st) in
  (if streq (groupBy st) [] || negb (hasColumn st (groupBy st))
   then groups = [{| groupValue := []; groupRows := sorted |}]
   else NoDup (map groupValue groups)
        /\ (forall g, In g groups ->
                      groupRows g <> []
                      /\ groupRows g = bucketOf gv (groupValue g) sorted)
        /\ (forall row, In row sorted ->
                        exists g, In g groups /\ groupValue g = gv row))
  /\ Permutation (concat (map groupRows groups)) sorted
  /\ (sortBy st = [] \/ sortKey (sortBy st) <> [] ->
      Permutation sorted (getFilteredRows st)).
Proof.
  intros sorted groups gv.
  split; [ | split; [ | apply getSortedRows_Permutation ] ];
    subst groups; unfold getGroupedRows; fold sorted;
    destruct (streq (groupBy st) [] || negb (hasColumn st (groupBy st)));
    try reflexivity; [ | by cbn; rewrite app_nil_r | ].
  all: set (m := fold_left _ sorted []);
    set (col := find _ (columns st));
    set (keys := Array_sort (groupKeyCompare col) (map fst m));
    assert (Hinv : bucketsOf gv m sorted)
      by (apply (bucketsOf_fold gv sorted [] []); split;
          [ apply NoDup_nil_2 | reflexivity ]);
    assert (Hperm : Permutation keys (map fst m))
      by apply Array_sort_Permutation;
    assert (Hnd : NoDup keys)
      by (destruct Hinv as [Hnd _]; by rewrite Hperm);
    assert (Hcov : forall row, In row sorted -> In (gv row) keys).
  1, 3: intros row Hrow; apply (Permutation_in _ (symmetry Hperm));
    apply mapGet_In; destruct Hinv as [_ Hm]; rewrite Hm;
    assert (In row (bucketOf gv (gv row) sorted)) as Hin
        by (apply filter_In; split; [ done | apply streq_refl ]);
    destruct (bucketOf gv (gv row) sorted); [ destruct Hin | by eexists ].
  - split; [ | split ].
    + rewrite map_map. cbn [groupValue]. by rewrite map_id.
    + intros g Hg. apply in_map_iff in Hg as (k & <- & Hk). cbn.
      rewrite (bucketsOf_default gv m sorted) by done. split; [ | done ].
      apply (Permutation_in _ Hperm), mapGet_In in Hk as [rs Hrs].
      destruct Hinv as [_ Hm]. rewrite Hm in Hrs.
      by destruct (bucketOf gv k sorted).
    + intros row Hrow. eexists. split.
      * apply in_map. by apply Hcov.
      * reflexivity.
  - rewrite map_map. cbn [groupRows].
    etransitivity; [ | apply (concat_buckets gv keys sorted Hnd Hcov) ].
    apply Permutation_refl'. f_equal. apply map_ext. intros k.
    by apply bucketsOf_default.
Qed.

(** The view of three rows: sorted by [Score] as numbers, then grouped by
    [Tag]; and the same view filtered to the rows whose [Tag] is [x]. *)
Lemma getGroupedRows_keeps_sorted_order_witness :
  let filtered :=
    setFilterValue (lit "x")
      (setFilterOp (lit "equals") (setFilterColumn (lit "Tag") viewState)) in
  map pageId (@getSortedRows exampleHost viewState)
  = [lit "p2"; lit "p3"; lit "p1"]
  /\ map (fun g => (groupValue g, map pageId (groupRows g)))
       (@getGroupedRows exampleHost viewState)
     = [ (lit "x", [lit "p3"; lit "p1"]); (lit "y", [lit "p2"]) ]
  /\ Permutation
       (concat (map groupRows (@getGroupedRows exampleHost viewState)))
       (@getSortedRows exampleHost viewState)
  /\ map pageId (@getFilteredRows exampleHost filtered)
     = [lit "p1"; lit "p3"]
  /\ map (fun g => (groupValue g, map pageId (groupRows g)))
       (@getGroupedRows exampleHost filtered)
     = [ (lit "x", [lit "p3"; lit "p1"]) ]
  /\ Permutation (@getSortedRows exampleHost filtered)
       (@getFilteredRows exampleHost filtered).
Proof.
  intros filtered.
  split; [ vm_compute; reflexivity | ]. split; [ vm_compute; reflexivity | ].
  split; [ exact (proj1 (proj2 (@getGroupedRows_keeps_sorted_order
                                  exampleHost viewState))) | ].
  split; [ vm_compute; reflexivity | ]. split; [ vm_compute; reflexivity | ].
  apply (proj2 (proj2 (@getGroupedRows_keeps_sorted_order exampleHost
                         filtered))).
  right. vm_compute. discriminate.
Defined.

(** C5. With a sort whose key is empty the stages are not applied one
    after the other. The sort menu of a table with a column named [:x]
    offers [:x:asc]; the text before its first colon is empty, and
    [getSortedRows] then returns the rows, not the filtered rows. With the
    filter [Score equals 2], which lets one row through, the sorted view
    and the buckets hold both rows. *)
Theorem getGroupedRows_shows_filtered_out_row :
  In (sortBy colonState) (map mo_option (sortOptions colonState))
  /\ sortKey (sortBy colonState) = []
  /\ map pageId (@getFilteredRows exampleHost colonState) = [lit "p2"]
  /\ map pageId (@getSortedRows exampleHost colonState)
     = [lit "p1"; lit "p2"]
  /\ map (fun g => (groupValue g, map pageId (groupRows g)))
       (@getGroupedRows exampleHost colonState)
     = [ (lit "2", [lit "p2"]); (lit "10", [lit "p1"]) ]
  /\ ~ Permutation
        (concat (map groupRows (@getGroupedRows exampleHost colonState)))
        (@getFilteredRows exampleHost colonState).
Proof.
  split; [ vm_compute; tauto | ].
  split; [ reflexivity | ].
  split; [ vm_compute; reflexivity | ].
  split; [ vm_compute; reflexivity | ].
  split; [ vm_compute; reflexivity | ].
  intros Hperm. apply Permutation_length in Hperm.
  vm_compute in Hperm. discriminate Hperm.
Qed.

(** ** The view: what a sort compares *)

Lemma SFcompare_antisym (x y : spec_float) :
  SFcompare y x = option_map CompOpp (SFcompare x y).
Proof.
  destruct x as [sx | sx | | sx mx ex], y as [sy | sy | | sy my ey];
    try destruct sx; try destruct sy; try reflexivity; cbn;
    rewrite (Z.compare_antisym ex ey);
    destruct (ex ?= ey)%Z; cbn; try reflexivity;
    by rewrite (Pos.compare_cont_antisym mx my Eq).
Qed.

(** [x < y] and [y < x] do not both hold. *)
Lemma float_ltb_asym (x y : float) :
  PrimFloat.ltb x y = true -> PrimFloat.ltb y x = false.
Proof.
  rewrite !ltb_spec. unfold SFltb.
  rewrite (SFcompare_antisym (Prim2SF x) (Prim2SF y)).
  by destruct (SFcompare (Prim2SF x) (Prim2SF y)) as [[ | | ] | ].
Qed.

Lemma strlt_asym (a b : jsstring) : strlt a b = true -> strlt b a = false.
Proof.
  revert b. induction a as [ | x a IH ]; intros [ | y b ]; try done.
  cbn [strlt]. intros Hab.
  apply orb_true_iff in Hab as [Hlt | Heq].
  - apply N.ltb_lt in Hlt.
    rewrite (proj2 (N.ltb_ge y x)) by lia.
    rewrite (proj2 (N.eqb_neq y x)) by lia. reflexivity.
  - apply andb_true_iff in Heq as [Heq Hab]. apply N.eqb_eq in Heq as ->.
    rewrite N.ltb_irrefl, N.eqb_refl. cbn. by apply IH.
Qed.




(** ** The scenarios of the specification *)

(** Scenario A: a full sync that finds the one record gives the columns
    [Name] and [Score] and the row of [p1], with the time of the sync. *)
Lemma scenario_A :
  let st0 := setRows [] (setColumns [] scenarioState) in
  let st := run (@fetchFromNotion exampleHost st0)
              (Fulfilled (reply NotionDatabaseResponse 404 [],
                          scenarioQueryReply),
               lit "2024-02-02T00:00:00.000Z") in
  columns st = scenarioColumns
  /\ rows st = [scenarioRow]
  /\ lastSynced st = lit "2024-02-02T00:00:00.000Z"
  /\ error st = [].
Proof. vm_compute. repeat split. Qed.

(** Scenario B: the filter [Score equals 3] keeps the row, and
    [Score equals 9] keeps none. *)
Lemma scenario_B :
  let filtered value :=
    @getFilteredRows exampleHost
      {| proxyUrl := []; databaseId := []; columns := scenarioColumns;
         rows := [scenarioRow]; lastSynced := []; error := [];
         editingCell := None; sortBy := []; groupBy := [];
         filterColumn := lit "Score"; filterOp := lit "equals";
         filterValue := lit value |} in
  filtered "3"%string = [scenarioRow] /\ filtered "9"%string = [].
Proof. vm_compute. repeat split. Qed.

(** ** Columns and cells *)

Lemma parseNotionProperties_fold_lookup `{Host} (ps : Properties)
    (m : gmap jsstring jsstring) (k : jsstring) :
  (~ In k (map fst ps) ->
   fold_left (fun cells '(key, v) => <[key := decodeProperty v]> cells) ps m
     !! k = m !! k)
  /\ (NoDup (map fst ps) ->
      forall v, In (k, v) ps ->
      fold_left (fun cells '(key, v) => <[key := decodeProperty v]> cells) ps m
        !! k = Some (decodeProperty v)).
Proof.
  revert m. induction ps as [ | [k' v'] ps IH ]; intros m.
  - split; [ done | intros _ v [] ].
  - cbn [fold_left map fst In]. split.
    + intros Hk. rewrite (proj1 (IH _)) by tauto.
      apply lookup_insert_ne. tauto.
    + intros Hnd v Hv. apply NoDup_cons in Hnd as [Hk' Hnd].
      destruct Hv as [[= -> ->] | Hv].
      * rewrite (proj1 (IH _)); [ apply lookup_insert_eq | ].
        intros Hin. apply Hk'. by apply list_elem_of_In.
      * by apply (proj2 (IH _)).
Qed.

(** X1. The columns come from the first record alone, one per property in
    the order of the record, named by the property, typed by its tag and
    without options; and the cells of that record have a string for every
    column. Without records there are no columns. *)
Theorem parseNotionColumns_first_record `{Host} (p : NotionPage)
    (ps : list NotionPage) :
  parseNotionColumns [] = []
  /\ parseNotionColumns (p :: ps) = parseNotionColumns [p]
  /\ map propertyName (parseNotionColumns (p :: ps)) = map fst (properties p)
  /\ map type (parseNotionColumns (p :: ps))
     = map (fun kv => pv_type (snd kv)) (properties p)
  /\ Forall (fun c =>
               name c = propertyName c /\ options c = None
               /\ exists s,
                   parseNotionProperties (properties p) !! propertyName c
                   = Some s)
       (parseNotionColumns (p :: ps)).
Proof.
  split; [ reflexivity | ]. split; [ reflexivity | ].
  cbn [parseNotionColumns]. rewrite !map_map.
  split; [ apply map_ext; by intros [k v] | ].
  split; [ apply map_ext; by intros [k v] | ].
  apply Forall_forall. intros c Hc%list_elem_of_In.
  apply in_map_iff in Hc as ([k v] & <- & Hkv). cbn.
  split; [ reflexivity | ]. split; [ reflexivity | ].
  apply parseNotionProperties_defined. left.
  apply in_map_iff. by exists (k, v).
Qed.

(** X2. Decoding stores one cell per property name and no other: a name
    that is not a property has no cell, a property whose name occurs once
    has the decoded value as its cell, and of two properties of one name
    the later one wins. *)
Theorem parseNotionProperties_lookup `{Host} (ps : Properties) (k : jsstring) :
  (~ In k (map fst ps) -> parseNotionProperties ps !! k = None)
  /\ (NoDup (map fst ps) ->
      forall v, In (k, v) ps ->
                parseNotionProperties ps !! k = Some (decodeProperty v))
  /\ (forall v, parseNotionProperties (ps ++ [(k, v)]) !! k
                = Some (decodeProperty v)).
Proof.
  unfold parseNotionProperties. split; [ | split ].
  - intros Hk. by rewrite (proj1 (parseNotionProperties_fold_lookup ps ∅ k)).
  - apply parseNotionProperties_fold_lookup.
  - intros v. rewrite fold_left_app. cbn. apply lookup_insert_eq.
Qed.

(** The record of scenario A: no cell for a name that is no property, and
    the decoded title under [Name]. *)
Lemma parseNotionProperties_lookup_witness :
  @parseNotionProperties exampleHost (properties scenarioPage) !! lit "Tag"
  = None
  /\ @parseNotionProperties exampleHost (properties scenarioPage) !! lit "Name"
     = Some (lit "Alpha").
Proof.
  destruct (@parseNotionProperties_lookup exampleHost
              (properties scenarioPage) (lit "Tag")) as [Hnone _].
  destruct (@parseNotionProperties_lookup exampleHost
              (properties scenarioPage) (lit "Name")) as (_ & Hsome & _).
  split.
  - apply Hnone. cbn. intros [[=] | [[=] | []]].
  - refine (Hsome _ _ (or_introl eq_refl)).
    repeat constructor; cbn; rewrite ?list_elem_of_In; cbn;
      intros Hin; decompose [or] Hin; discriminate || done.
Defined.

(** ** Schema options *)

Ltac unchanged_column := split; [ done | split; [ done | by left ] ].

(** X3. Merging the schema changes nothing but the options of a column:
    the columns keep their number, order, names and types. A column is
    changed only if its type is [select], and then it gets an option list
    that is not empty and gives every option a color; a column of any other
    type, [status] included, stays as it is, and so does every column when
    there is no schema. *)
Theorem mergeSchemaOptions_frame (columns : list ColumnDef)
    (schema : option NotionDatabaseResponse) :
  mergeSchemaOptions columns None = columns
  /\ Forall2
       (fun c c' =>
          sameColumn c c'
          /\ (streq (type c) (lit "select") = false -> c' = c)
          /\ (c' = c
              \/ exists l, options c' = Some l /\ l <> []
                           /\ Forall (fun o => opt_color o <> None) l))
       columns (mergeSchemaOptions columns schema).
Proof.
  split; [ reflexivity | ].
  destruct schema as [schema | ]; cbn [mergeSchemaOptions].
  2: { induction columns; constructor; [ unchanged_column | done ]. }
  induction columns as [ | c columns IH ]; cbn [map]; constructor;
    [ | exact IH ].
  destruct (db_properties schema !! propertyName c) as [prop | ];
    [ | unchanged_column ].
  destruct (streq (type c) (lit "select")) eqn:Esel; [ | unchanged_column ].
  match goal with
  | |- context [match ?opts with None => c | Some _ => _ end] =>
    destruct opts as [[ | o l] | ]
  end; try unchanged_column.
  cbn. split; [ done | ]. split; [ done | ]. right. eexists.
  split; [ reflexivity | ]. split; [ done | ].
  constructor; [ done | ]. apply Forall_forall.
  intros x Hx%list_elem_of_In. apply in_map_iff in Hx as (y & <- & _). done.
Qed.

(** ** More round trips *)

(** X4. A checkbox survives decoding and write-back: the cell of a
    checkbox is ["Yes"] when it is [true] and ["No"] otherwise; the update
    built from that cell carries [true] exactly when the checkbox was
    [true]; and decoding the update built from any string gives ["Yes"] or
    ["No"], according to whether the trimmed string is [1], [true] or
    [yes] in any case. *)
Theorem checkbox_roundtrip `{Host} (k v : jsstring) (b : field bool) :
  let cell := decodeProperty (with_checkbox b (typeOnly (lit "checkbox"))) in
  let checked := match b with
                 | Val true => true
                 | _ => false
                 end in
  cell = (if checked then lit "Yes" else lit "No")
  /\ buildNotionPropertyUpdate k (lit "checkbox") cell
     = [(k, with_checkbox (Val checked) (typeOnly (lit "checkbox")))]
  /\ parseNotionProperties (buildNotionPropertyUpdate k (lit "checkbox") v)
     = {[ k := if isTruthyWord (trim v) then lit "Yes" else lit "No" ]}.
Proof.
  split; [ | split ].
  - by destruct b as [ | | [ | ]].
  - by destruct b as [ | | [ | ]].
  - change (buildNotionPropertyUpdate k (lit "checkbox") v)
      with [(k, with_checkbox (Val (isTruthyWord (trim v)))
                  (typeOnly (lit "checkbox")))].
    rewrite parseNotionProperties_single.
    by destruct (isTruthyWord (trim v)).
Qed.

(** X5. Decoding the update built for a [select] or a [status] property
    gives the value back, the empty value through a [null] selection. *)
Theorem select_status_roundtrip `{Host} (k v : jsstring) :
  parseNotionProperties (buildNotionPropertyUpdate k (lit "select") v)
  = {[ k := v ]}
  /\ parseNotionProperties (buildNotionPropertyUpdate k (lit "status") v)
     = {[ k := v ]}.
Proof.
  split.
  - change (buildNotionPropertyUpdate k (lit "select") v)
      with [(k, with_select (orNull v {| ref_name := v |})
                  (typeOnly (lit "select")))].
    rewrite parseNotionProperties_single. by destruct v.
  - change (buildNotionPropertyUpdate k (lit "status") v)
      with [(k, with_status (orNull v {| ref_name := v |})
                  (typeOnly (lit "status")))].
    rewrite parseNotionProperties_single. by destruct v.
Qed.

Lemma isWritableType_false (ty : jsstring) :
  isWritableType ty = false ->
  forall t, In t ["title"; "rich_text"; "number"; "checkbox"; "date"; "url";
                  "select"; "status"]%string ->
            streq ty (lit t) = false.
Proof.
  unfold isWritableType. intros Hk t Ht.
  destruct (streq ty (lit t)) eqn:E; [ | reflexivity ].
  rewrite <- Hk. symmetry. apply existsb_exists. exists t. split; assumption.
Qed.

(** X6. For a type the mapper has no case for, the read-only types
    [formula], [rollup] and [people] among them, the update is the one of a
    [rich_text] property: one text run with the value, which decodes to the
    value. *)
Theorem buildUpdate_fallback `{Host} (k t v : jsstring) :
  isWritableType t = false ->
  buildNotionPropertyUpdate k t v
  = buildNotionPropertyUpdate k (lit "rich_text") v
  /\ parseNotionProperties (buildNotionPropertyUpdate k t v) = {[ k := v ]}
  /\ (forall t', isReadOnlyType t' = true -> isWritableType t' = false).
Proof.
  intros Hw.
  assert (Hb : buildNotionPropertyUpdate k t v
               = [(k, with_rich_text (Val (textRuns v))
                        (typeOnly (lit "rich_text")))]).
  { unfold buildNotionPropertyUpdate.
    repeat match goal with
           | |- context [streq t (lit ?x)] =>
             rewrite (isWritableType_false t Hw x) by (simpl; tauto)
           end.
    reflexivity. }
  split; [ by rewrite Hb | ]. split.
  - by rewrite Hb, parseNotionProperties_single.
  - intros t'. unfold isReadOnlyType. rewrite !orb_true_iff, !streq_true.
    by intros [[-> | ->] | ->].
Qed.

(** An edit of a formula column, were one to get through. *)
Lemma buildUpdate_fallback_witness :
  isWritableType (lit "formula") = false
  /\ buildNotionPropertyUpdate (lit "Total") (lit "formula") (lit "42")
     = [(lit "Total",
         with_rich_text (Val (textRuns (lit "42")))
           (typeOnly (lit "rich_text")))].
Proof.
  split; [ reflexivity | ].
  exact (proj1 (@buildUpdate_fallback exampleHost (lit "Total")
                  (lit "formula") (lit "42") eq_refl)).
Defined.

(** ** Checkboxes on display *)

(** X7. The table shows the check mark for exactly the strings that the
    write-back sends as [true]; and the cell decoded from a checkbox shows
    the check mark when the checkbox is [true] and the dash otherwise. *)
Theorem checkbox_display_agrees `{Host} (k v : jsstring) (b : field bool) :
  (formatCellForDisplay (lit "checkbox") v = check_mark
   <-> buildNotionPropertyUpdate k (lit "checkbox") v
       = [(k, with_checkbox (Val true) (typeOnly (lit "checkbox")))])
  /\ formatCellForDisplay (lit "checkbox")
       (decodeProperty (with_checkbox b (typeOnly (lit "checkbox"))))
     = match b with
       | Val true => check_mark
       | _ => em_dash
       end.
Proof.
  split; [ | by destruct b as [ | | [ | ]] ].
  change (buildNotionPropertyUpdate k (lit "checkbox") v)
    with [(k, with_checkbox (Val (isTruthyWord (trim v)))
                (typeOnly (lit "checkbox")))].
  assert (Hf : formatCellForDisplay (lit "checkbox") v
               = if isTruthyWord (trim v) then check_mark else em_dash)
    by (by destruct v).
  rewrite Hf. destruct (isTruthyWord (trim v)); split; done.
Qed.

(** X8. A cell of a type other than [date] and [number] never shows as
    the empty string: the empty value shows as the dash, a checkbox as the
    check mark or the dash, and any other value as itself. *)
Theorem formatCellForDisplay_not_empty `{Host} (t v : jsstring) :
  streq t (lit "date") = false ->
  streq t (lit "number") = false ->
  formatCellForDisplay t v <> []
  /\ formatCellForDisplay t [] = em_dash
  /\ (streq t (lit "checkbox") = false -> v <> [] ->
      formatCellForDisplay t v = v).
Proof.
  intros Hd Hn. unfold formatCellForDisplay. rewrite Hd, Hn.
  split; [ | split ].
  - destruct v as [ | c v ]; [ done | ].
    destruct (streq t (lit "checkbox")).
    + by destruct (isTruthyWord (trim (c :: v))).
    + by destruct (streq t (lit "url")).
  - reflexivity.
  - intros -> Hv. destruct v as [ | c v ]; [ done | ].
    by destruct (streq t (lit "url")).
Qed.

(** A URL cell, empty and not. *)
Lemma formatCellForDisplay_not_empty_witness :
  @formatCellForDisplay exampleHost (lit "url") [] = em_dash
  /\ @formatCellForDisplay exampleHost (lit "url") (lit "https://a.io")
     = lit "https://a.io".
Proof.
  destruct (@formatCellForDisplay_not_empty exampleHost (lit "url")
              (lit "https://a.io") eq_refl eq_refl) as (_ & He & Hv).
  split; [ exact He | ]. apply Hv; [ reflexivity | discriminate ].
Defined.

(** ** Where the decoder can throw *)

Lemma get_of_value (o : jsval) (k : string) :
  Raw.isNullish o = false -> exists x, Raw.get o k = Raw.Normal x.
Proof. destruct o; try discriminate; intros _; by eexists. Qed.

Lemma memberOrEmpty_normal (o : jsval) (k : string) :
  exists c, Raw.memberOrEmpty o k = Raw.Normal c.
Proof.
  unfold Raw.memberOrEmpty. destruct (Raw.isNullish o) eqn:E; [ by eexists | ].
  destruct (get_of_value o k E) as [x ->]. by eexists.
Qed.

Lemma findField_ownsToString (k : jsstring) (fields : list (jsstring * jsval))
    (x : jsval) :
  Raw.findField k fields = Some x -> Raw.ownsToString x = true ->
  Raw.ownsToString (VObject fields) = true.
Proof.
  intros Hx Hown. cbn [Raw.ownsToString].
  induction fields as [ | [k' y] fields IH ]; [ discriminate | ].
  cbn [Raw.findField existsb] in *. apply orb_true_iff.
  destruct (streq k k'); [ | right; by apply IH ].
  injection Hx as ->. left. rewrite Hown. apply orb_true_r.
Qed.

Lemma get_ownsToString (o : jsval) (k : string) (x : jsval) :
  Raw.get o k = Raw.Normal x -> Raw.ownsToString x = true ->
  Raw.ownsToString o = true.
Proof.
  destruct o as [ | | b | n | s | l | fields ]; cbn [Raw.get];
    try discriminate; try (intros [= <-]; discriminate).
  intros [= <-].
  destruct (Raw.findField (lit k) fields) as [y | ] eqn:E; [ | discriminate ].
  apply (findField_ownsToString _ _ _ E).
Qed.

(** Printing throws only where a property [toString] is in the way. *)
Lemma ToString_throws `{Host} (v : jsval) :
  Raw.ToString v = Raw.Throw -> Raw.ownsToString v = true.
Proof.
  revert v. fix IH 1.
  intros [ | | b | x | s | l | fields ];
    cbn [Raw.ToString Raw.ownsToString]; try discriminate.
  - induction l as [ | e l IHl ]; [ discriminate | ].
    cbn [mapM existsb mbind Raw.completion_bind] in *.
    intros Hthrow. apply orb_true_iff.
    destruct (Raw.isNullish e).
    + right. apply IHl.
      cbn [mbind Raw.completion_bind] in Hthrow.
      by destruct (mapM _ l).
    + destruct (Raw.ToString e) eqn:Ee; [ | left; by apply IH ].
      right. apply IHl.
      cbn [mbind Raw.completion_bind] in Hthrow.
      by destruct (mapM _ l).
  - destruct (Raw.findField (lit "toString") fields) as [y | ] eqn:E;
      [ intros _ | discriminate ].
    clear IH. induction fields as [ | [k' z] fields IHf ]; [ discriminate | ].
    cbn [Raw.findField existsb] in *.
    destruct (streq (lit "toString") k'); [ reflexivity | ].
    rewrite (IHf E). apply orb_true_r.
Qed.

Lemma stringOf_throws `{Host} (o : jsval) (k : string) (x : jsval) :
  Raw.get o k = Raw.Normal x -> Raw.stringOf x = Raw.Throw ->
  Raw.ownsToString o = true.
Proof.
  intros Hx Hthrow. apply (get_ownsToString o k x Hx).
  apply ToString_throws. unfold Raw.stringOf in Hthrow.
  by destruct (Raw.ToString x).
Qed.

(** X9. On any JSON object, whatever its shape, decoding throws only in
    seven branches of the [switch]. Four read a list: [title] and
    [rich_text], whose runs are read one by one, and [multi_select] and
    [people], which call [map]. Three print a value with [String]:
    [number], [formula] and [rollup], and these throw only when an object
    inside the value has a property [toString] of its own. For every other
    type tag, known or not, and for a value without a string as its
    [type], the decoder ends normally. *)
Theorem decodeProperty_throw_sites `{Host} (v : jsval) :
  Raw.isObject v = true ->
  Raw.decodeProperty v = Raw.Throw ->
  exists ty,
    Raw.get v "type" = Raw.Normal (VString ty)
    /\ (ty = lit "title" \/ ty = lit "rich_text" \/ ty = lit "multi_select"
        \/ ty = lit "people"
        \/ ((ty = lit "number" \/ ty = lit "formula" \/ ty = lit "rollup")
            /\ Raw.ownsToString v = true)).
Proof.
  intros Hobj. destruct v as [ | | | | | l | fields ]; try discriminate.
  unfold Raw.decodeProperty. cbn [Raw.get mbind Raw.completion_bind].
  destruct (default VUndefined (Raw.findField (lit "type") fields))
    as [ | | | | ty | | ]; try discriminate.
  intros Hthrow. exists ty. split; [ reflexivity | ].
  destruct (streq ty (lit "title")) eqn:E1;
    [ apply streq_true in E1; tauto | ].
  destruct (streq ty (lit "rich_text")) eqn:E2;
    [ apply streq_true in E2; tauto | ].
  destruct (streq ty (lit "number")) eqn:E5.
  { apply streq_true in E5. do 4 right. split; [ tauto | ].
    destruct (Raw.isNullish _); [ discriminate | ].
    by apply (stringOf_throws (VObject fields) "number" _ eq_refl). }
  destruct (streq ty (lit "select")).
  { destruct (memberOrEmpty_normal
                (default VUndefined (Raw.findField (lit "select") fields))
                "name") as [c Hc].
    rewrite Hc in Hthrow. discriminate. }
  destruct (streq ty (lit "multi_select")) eqn:E3;
    [ apply streq_true in E3; tauto | ].
  destruct (streq ty (lit "checkbox")); [ discriminate | ].
  destruct (streq ty (lit "date")).
  { destruct (memberOrEmpty_normal
                (default VUndefined (Raw.findField (lit "date") fields))
                "start") as [c Hc].
    rewrite Hc in Hthrow. discriminate. }
  destruct (streq ty (lit "url")); [ discriminate | ].
  destruct (streq ty (lit "status")).
  { destruct (memberOrEmpty_normal
                (default VUndefined (Raw.findField (lit "status") fields))
                "name") as [c Hc].
    rewrite Hc in Hthrow. discriminate. }
  destruct (streq ty (lit "people")) eqn:E4;
    [ apply streq_true in E4; tauto | ].
  do 4 right.
  destruct (streq ty (lit "formula")) eqn:E6.
  { apply streq_true in E6. split; [ tauto | ].
    set (f := default VUndefined (Raw.findField (lit "formula") fields)) in *.
    assert (Hf : Raw.get (VObject fields) "formula" = Raw.Normal f)
      by reflexivity.
    apply (get_ownsToString _ _ _ Hf).
    destruct (Raw.isNullish f) eqn:Ef; [ discriminate | ].
    destruct (get_of_value f "string" Ef) as [s Hs].
    destruct (get_of_value f "number" Ef) as [n Hn].
    destruct (get_of_value f "boolean" Ef) as [b Hb].
    rewrite Hs in Hthrow. cbn [mbind Raw.completion_bind] in Hthrow.
    destruct (Raw.isNullish s); cbn [negb] in Hthrow;
      [ | by apply (stringOf_throws f "string" s) ].
    rewrite Hn in Hthrow. cbn [mbind Raw.completion_bind] in Hthrow.
    destruct (Raw.isNullish n); cbn [negb] in Hthrow;
      [ | by apply (stringOf_throws f "number" n) ].
    rewrite Hb in Hthrow. by destruct b. }
  destruct (streq ty (lit "rollup")) eqn:E7; [ | discriminate ].
  apply streq_true in E7. split; [ tauto | ].
  set (r := default VUndefined (Raw.findField (lit "rollup") fields)) in *.
  assert (Hr : Raw.get (VObject fields) "rollup" = Raw.Normal r)
    by reflexivity.
  apply (get_ownsToString _ _ _ Hr).
  destruct (Raw.isNullish r) eqn:Er; [ discriminate | ].
  destruct (get_of_value r "number" Er) as [n Hn].
  destruct (get_of_value r "array" Er) as [a Ha].
  rewrite Hn in Hthrow. cbn [mbind Raw.completion_bind] in Hthrow.
  destruct (Raw.isNullish n); cbn [negb] in Hthrow;
    [ | by apply (stringOf_throws r "number" n) ].
  rewrite Ha in Hthrow. by destruct a.
Qed.

(** A number that is an object with a property [toString]: printing it
    throws. *)
Lemma decodeProperty_throw_sites_witness :
  let v := VObject [(lit "type", VString (lit "number"));
                    (lit "number",
                     VObject [(lit "toString", VNumber 1)])] in
  @Raw.decodeProperty exampleHost v = Raw.Throw
  /\ exists ty,
      Raw.get v "type" = Raw.Normal (VString ty)
      /\ (ty = lit "title" \/ ty = lit "rich_text"
          \/ ty = lit "multi_select" \/ ty = lit "people"
          \/ ((ty = lit "number" \/ ty = lit "formula" \/ ty = lit "rollup")
              /\ Raw.ownsToString v = true)).
Proof.
  intros v. split; [ reflexivity | ].
  exact (@decodeProperty_throw_sites exampleHost v eq_refl eq_refl).
Defined.

(** ** Database id: the dashed form *)

Lemma isHexDigit_not_dash (c : N) : isHexDigit c = true -> (c =? 45) = false.
Proof. intros Hc%isHexDigit_cases. apply N.eqb_neq. lia. Qed.

Lemma hexMatch_short (s : jsstring) :
  (length s < 32)%nat -> hexMatch s = None.
Proof.
  induction s as [ | c s IH ]; [ reflexivity | ]. intros Hlen.
  cbn [hexMatch]. rewrite (proj2 (Nat.leb_gt 32 (length (c :: s)))) by lia.
  cbn [andb]. apply IH. cbn [length] in Hlen. lia.
Qed.

(** No block of 32 digits fits on either side of a dash. *)
Lemma hexMatch_around_dash (pre post : jsstring) :
  (length pre < 32)%nat -> (length post < 32)%nat ->
  hexMatch (pre ++ 45 :: post) = None.
Proof.
  intros Hpre Hpost. induction pre as [ | c pre IH ].
  - cbn [app hexMatch]. rewrite andb_false_r. by apply hexMatch_short.
  - cbn [length] in Hpre.
    assert (Hw : forallb isHexDigit (firstn 32 ((c :: pre) ++ 45 :: post))
                 = false).
    { rewrite firstn_app.
      replace (32 - length (c :: pre))%nat
        with (S (31 - length (c :: pre))) by (cbn [length]; lia).
      rewrite forallb_app. cbn [firstn forallb].
      change (isHexDigit 45) with false. cbn [andb]. apply andb_false_r. }
    change ((c :: pre) ++ 45 :: post) with (c :: pre ++ 45 :: post) in *.
    cbn [hexMatch]. rewrite Hw, andb_false_r. apply IH. lia.
Qed.

Lemma stripDashes_hex (s : jsstring) :
  forallb isHexDigit s = true -> stripDashes s = s.
Proof.
  unfold stripDashes. induction s as [ | c s IH ]; [ reflexivity | ].
  cbn [forallb List.filter]. intros [Hc Hs]%andb_true_iff.
  rewrite (isHexDigit_not_dash c Hc). cbn [negb]. by rewrite IH.
Qed.

Lemma stripDashes_dashed (h : jsstring) :
  forallb isHexDigit h = true -> stripDashes (dashed h) = h.
Proof.
  intros Hhex. rewrite <- (stripDashes_hex h Hhex) at 2.
  unfold stripDashes, dashed. rewrite !List.filter_app. cbn [List.filter].
  change (negb (45 =? 45)) with false. cbn [app].
  rewrite <- !List.filter_app. f_equal.
  rewrite <- (firstn_skipn 8 h) at 6. f_equal.
  rewrite <- (firstn_skipn 4 (skipn 8 h)) at 2. f_equal.
  rewrite skipn_skipn. cbn [Nat.add].
  rewrite <- (firstn_skipn 4 (skipn 12 h)) at 2. f_equal.
  rewrite skipn_skipn. cbn [Nat.add].
  rewrite <- (firstn_skipn 4 (skipn 16 h)) at 2. f_equal.
  by rewrite skipn_skipn.
Qed.

(** X10. An id written with dashes, as a UUID, and the same id written
    without them normalize to the same string: its 32 hexadecimal digits
    in lower case. *)
Theorem normalizeDatabaseId_dashed `{Host} (h : jsstring) :
  length h = 32%nat ->
  forallb isHexDigit h = true ->
  normalizeDatabaseId (dashed h) = map asciiLower h
  /\ normalizeDatabaseId h = map asciiLower h.
Proof.
  intros Hlen Hhex.
  assert (Hall : forall c, In c h -> isHexDigit c = true)
    by (by apply forallb_forall).
  assert (Hlow : toLowerCase h = map asciiLower h).
  { apply toLowerCase_ascii, forallb_forall.
    intros c Hc. by apply isHexDigit_isAscii, Hall. }
  split; unfold normalizeDatabaseId.
  - rewrite trim_no_space.
    + assert (hexMatch (dashed h) = None) as ->.
      { apply (hexMatch_around_dash (firstn 8 h)).
        - rewrite length_firstn. lia.
        - rewrite !length_app, !length_firstn, !length_skipn. cbn [length].
          lia. }
      by rewrite stripDashes_dashed.
    + apply forallb_forall. intros c Hc. apply negb_true_iff.
      destruct (N.eqb_spec c 45) as [-> | Hne]; [ reflexivity | ].
      apply isHexDigit_not_space, Hall.
      rewrite <- (stripDashes_dashed h Hhex). apply filter_In.
      split; [ exact Hc | ]. by apply negb_true_iff, N.eqb_neq.
  - rewrite trim_no_space.
    + by rewrite hexMatch_block.
    + apply forallb_forall. intros c Hc.
      by apply negb_true_iff, isHexDigit_not_space, Hall.
Qed.

(** The id of the examples, in its two forms. *)
Lemma normalizeDatabaseId_dashed_witness :
  dashed (lit "0123456789ABCDEF0123456789abcdef")
  = lit "01234567-89AB-CDEF-0123-456789abcdef"
  /\ @normalizeDatabaseId exampleHost
       (lit "01234567-89AB-CDEF-0123-456789abcdef")
     = lit "0123456789abcdef0123456789abcdef"
  /\ @normalizeDatabaseId exampleHost (lit "0123456789ABCDEF0123456789abcdef")
     = lit "0123456789abcdef0123456789abcdef".
Proof.
  split; [ reflexivity | ].
  exact (@normalizeDatabaseId_dashed exampleHost
           (lit "0123456789ABCDEF0123456789abcdef") eq_refl eq_refl).
Defined.

(** ** Full sync: every outcome *)

(** X11. With a proxy URL or a database id that is empty or all white
    space, a sync sends nothing: it only sets the message that asks for
    them, and leaves the rest of the state as it is. *)
Theorem fetchFromNotion_unconfigured `{Host} (st : WidgetState)
    (reply : Settled (Response NotionDatabaseResponse
                      * Response NotionDatabaseQueryResponse) * jsstring) :
  trim (proxyUrl st) = [] \/ trim (databaseId st) = [] ->
  requestsOf (fetchFromNotion st) = []
  /\ run (fetchFromNotion st) reply
     = setError (lit "Enter proxy URL and database ID above, then Sync.") st.
Proof.
  intros Hblank. unfold fetchFromNotion.
  assert (streq (trim (proxyUrl st)) [] || streq (trim (databaseId st)) []
          = true) as ->; [ | by split ].
  apply orb_true_iff. rewrite !streq_true. exact Hblank.
Qed.

(** A database id of spaces. *)
Lemma fetchFromNotion_unconfigured_witness :
  let st :=
    {| proxyUrl := lit "https://proxy.example.dev"; databaseId := lit "  ";
       columns := scenarioColumns; rows := [scenarioRow];
       lastSynced := []; error := []; editingCell := None; sortBy := [];
       groupBy := []; filterColumn := []; filterOp := lit "contains";
       filterValue := [] |} in
  requestsOf (@fetchFromNotion exampleHost st) = []
  /\ rows (run (@fetchFromNotion exampleHost st)
             (Rejected (lit "unused"), [])) = [scenarioRow].
Proof.
  intros st.
  destruct (@fetchFromNotion_unconfigured exampleHost st
              (Rejected (lit "unused"), []) (or_intror eq_refl)) as [Hr Hs].
  split; [ exact Hr | ]. by rewrite Hs.
Defined.

(** X12. A sync is all or nothing. Whatever comes back, the proxy URL, the
    database id, the view parameters and the cell being edited are as
    before; and either the columns, the rows and the time of the last sync
    are as before too, or the sync went through: the rows are the decoded
    records of the reply, the time of the last sync is the clock reading,
    and the error message is empty. *)
Theorem fetchFromNotion_all_or_nothing `{Host} (st : WidgetState)
    (reply : Settled (Response NotionDatabaseResponse
                      * Response NotionDatabaseQueryResponse) * jsstring) :
  let st' := run (fetchFromNotion st) reply in
  sameSettings st st'
  /\ editingCell st' = editingCell st
  /\ (sameTable st st'
      \/ exists schemaRes queryRes data,
          fst reply = Fulfilled (schemaRes, queryRes)
          /\ ok queryRes = true
          /\ responseJson queryRes = Fulfilled data
          /\ rows st' = map rowOfPage (default [] (results data))
          /\ lastSynced st' = snd reply
          /\ error st' = []).
Proof.
  destruct st as [p d c r l e ec s g fc fo fv].
  destruct reply as [settled now]. unfold fetchFromNotion.
  cbn [proxyUrl databaseId].
  destruct (streq (trim p) [] || streq (trim d) []);
    [ by repeat split; left | ].
  cbn [run setError]. destruct settled as [message | [schemaRes queryRes]];
    [ by repeat split; left | ].
  destruct (ok queryRes) eqn:Eok; cbn [negb]; [ | by repeat split; left ].
  destruct (if ok schemaRes then _ else _) as [message | schema];
    [ by repeat split; left | ].
  destruct (responseJson queryRes) as [message | data] eqn:Ej;
    [ by repeat split; left | ].
  split; [ done | ]. split; [ done | ]. right.
  exists schemaRes, queryRes, data. by rewrite Ej.
Qed.

(** X13. A sync that goes through replaces the table wholesale: the
    columns are those of the first record of the reply, each with its
    name and type, the rows are the records decoded in order, and the
    state after the sync does not depend on the columns, the rows, the
    time of the last sync or the error message from before. A schema
    request answered by a failure status is tolerated: the columns are
    then those of the records as they are. *)
Theorem fetchFromNotion_replaces_table `{Host} (st : WidgetState)
    (schemaRes : Response NotionDatabaseResponse)
    (queryRes : Response NotionDatabaseQueryResponse)
    (data : NotionDatabaseQueryResponse) (now : jsstring) :
  trim (proxyUrl st) <> [] -> trim (databaseId st) <> [] ->
  ok queryRes = true ->
  responseJson queryRes = Fulfilled data ->
  ok schemaRes = false ->
  let st' := run (fetchFromNotion st) (Fulfilled (schemaRes, queryRes), now) in
  columns st' = parseNotionColumns (default [] (results data))
  /\ rows st' = map rowOfPage (default [] (results data))
  /\ lastSynced st' = now
  /\ error st' = []
  /\ forall c r l e,
      run (fetchFromNotion
             (setError e (setLastSynced l (setRows r (setColumns c st)))))
        (Fulfilled (schemaRes, queryRes), now)
      = st'.
Proof.
  intros Hp%streq_false Hd%streq_false Hok Hj Hs st'. subst st'.
  destruct st as [p d c r l e ec s g fc fo fv].
  unfold fetchFromNotion. cbn [proxyUrl databaseId setError setLastSynced
                               setRows setColumns] in *.
  rewrite Hp, Hd. cbn [orb run]. rewrite Hok, Hs, Hj. cbn [negb].
  repeat split.
Qed.

(** Scenario A after a schema request answered by 404, from a state with
    a stale table. *)
Lemma fetchFromNotion_replaces_table_witness :
  let st' := run (@fetchFromNotion exampleHost scenarioD)
               (Fulfilled (reply NotionDatabaseResponse 404 [],
                           scenarioQueryReply),
                lit "2024-02-02T00:00:00.000Z") in
  columns st' = scenarioColumns /\ rows st' = [scenarioRow].
Proof.
  destruct (@fetchFromNotion_replaces_table exampleHost scenarioD
              (reply NotionDatabaseResponse 404 []) scenarioQueryReply
              {| query_object := lit "list"; results := Some [scenarioPage];
                 next_cursor := None; has_more := false |}
              (lit "2024-02-02T00:00:00.000Z"))
    as (Hc & Hr & _); try reflexivity; try discriminate.
  split; [ exact Hc | ]. rewrite Hr. vm_compute. reflexivity.
Defined.

(** ** Sort directives and sort options *)

(** X14. The query carries at most one sort directive, and none exactly
    when the text before the first colon of [sortBy] is empty. The
    directive names that text, as a timestamp for [created_time] and
    [last_edited_time] and as a property otherwise, never as both, and it
    is descending exactly when the text after the first colon is [desc],
    which is when the local sort is descending. *)
Theorem buildSorts_one_directive (st : WidgetState) :
  let key := sortKey (sortBy st) in
  (key = [] -> buildSorts st = [])
  /\ (key <> [] ->
      buildSorts st
      = [ {| sort_property := if isTimestampKey key then None else Some key;
             sort_timestamp := if isTimestampKey key then Some key else None;
             sort_direction :=
               if isDesc (sortDir (sortBy st)) then lit "descending"
               else lit "ascending" |} ]).
Proof.
  unfold buildSorts. destruct (sortBy st) as [ | c s ] eqn:E.
  - split; [ done | ]. by intros [].
  - cbn zeta. split.
    + intros Hk. rewrite Hk. reflexivity.
    + intros Hk. destruct (isTimestampKey (sortKey (c :: s))); [ done | ].
      by destruct (sortKey (c :: s)).
Qed.

(** The sort of scenario D: by the property [Score], ascending. *)
Lemma buildSorts_one_directive_witness :
  buildSorts scenarioD
  = [ {| sort_property := Some (lit "Score"); sort_timestamp := None;
         sort_direction := lit "ascending" |} ]
  /\ buildSorts scenarioState = [].
Proof.
  split.
  - refine (proj2 (buildSorts_one_directive scenarioD) _). discriminate.
  - exact (proj1 (buildSorts_one_directive scenarioState) eq_refl).
Defined.

Lemma splitColon_prefix (p r : jsstring) :
  ~ In 58 p -> splitColon (p ++ 58 :: r) = p :: splitColon r.
Proof.
  induction p as [ | c p IH ]; intros Hp; [ reflexivity | ].
  cbn [app splitColon]. cbn [In] in Hp.
  rewrite (proj2 (N.eqb_neq c 58)) by (intros ->; tauto).
  rewrite IH by tauto. reflexivity.
Qed.

(** X15. The options the sort menu offers for a column read back as they
    were meant, provided the property name has no colon: the option for
    ascending order has the property as its key and is not descending, the
    one for descending order has the same key and is descending. *)
Theorem sortOption_roundtrip (p : jsstring) :
  ~ In 58 p ->
  sortKey (p ++ lit ":asc") = p
  /\ isDesc (sortDir (p ++ lit ":asc")) = false
  /\ sortKey (p ++ lit ":desc") = p
  /\ isDesc (sortDir (p ++ lit ":desc")) = true.
Proof.
  intros Hp. unfold sortKey, sortDir.
  change (lit ":asc") with (58 :: lit "asc").
  change (lit ":desc") with (58 :: lit "desc").
  rewrite !splitColon_prefix by exact Hp. repeat split.
Qed.

(** The column [Score]; and a column whose name has a colon, for which
    the key is cut short. *)
Lemma sortOption_roundtrip_witness :
  sortKey (lit "Score" ++ lit ":desc") = lit "Score"
  /\ isDesc (sortDir (lit "Score" ++ lit ":desc")) = true
  /\ sortKey (lit "Time: start" ++ lit ":desc") = lit "Time".
Proof.
  assert (Hp : ~ In 58 (lit "Score"))
    by (cbn; intros Hin; decompose [or] Hin; discriminate || done).
  destruct (sortOption_roundtrip (lit "Score") Hp) as (_ & _ & Hk & Hd).
  split; [ exact Hk | ]. split; [ exact Hd | reflexivity ].
Defined.

(** ** The view: a sort is stable *)

Lemma float_ltb_irrefl (x : float) : PrimFloat.ltb x x = false.
Proof.
  destruct (PrimFloat.ltb x x) eqn:E; [ | reflexivity ].
  by rewrite (float_ltb_asym x x E) in E.
Qed.

Lemma strlt_irrefl (a : jsstring) : strlt a a = false.
Proof.
  destruct (strlt a a) eqn:E; [ | reflexivity ].
  by rewrite (strlt_asym a a E) in E.
Qed.

Lemma svlt_irrefl (v : SortValue) : svlt v v = false.
Proof. destruct v; [ apply strlt_irrefl | apply float_ltb_irrefl ]. Qed.

Lemma insertBy_filter {A} (cmp : A -> A -> float) (P : A -> bool) (x : A)
    (l : list A) :
  (forall y, In y l -> P x = true -> P y = true ->
             PrimFloat.ltb 0 (cmp x y) = false) ->
  List.filter P (insertBy cmp x l) = List.filter P (x :: l).
Proof.
  induction l as [ | y l IH ]; intros Hx; [ reflexivity | ].
  cbn [insertBy]. destruct (PrimFloat.ltb 0 (cmp x y)) eqn:E; [ | reflexivity ].
  cbn [List.filter] in *. rewrite IH by (intros; apply Hx; cbn; tauto).
  destruct (P x) eqn:Ex, (P y) eqn:Ey; try reflexivity.
  rewrite Hx in E by (cbn; tauto). discriminate.
Qed.

(** Rows that the comparator never puts one behind the other keep their
    order. *)
Lemma Array_sort_filter {A} (cmp : A -> A -> float) (P : A -> bool)
    (l : list A) :
  (forall x y, In x l -> In y l -> P x = true -> P y = true ->
               PrimFloat.ltb 0 (cmp x y) = false) ->
  List.filter P (Array_sort cmp l) = List.filter P l.
Proof.
  induction l as [ | x l IH ]; intros Hc; [ reflexivity | ].
  cbn [Array_sort fold_right]. fold (Array_sort cmp l).
  rewrite insertBy_filter.
  - cbn [List.filter]. rewrite IH; [ done | ].
    intros a b Ha Hb. apply Hc; cbn; tauto.
  - intros y Hy. apply Hc; [ by left | right ].
    by apply (Permutation_in _ (Array_sort_Permutation cmp l)).
Qed.

(** X16. The sort is stable, in either direction: any rows of the
    filtered view that have the same sort value stand, after the sort, in
    the order in which they stood before it. *)
Theorem getSortedRows_stable `{Host} (st : WidgetState)
    (P : RowData -> bool) :
  sortBy st = [] \/ sortKey (sortBy st) <> [] ->
  (forall a b, In a (getFilteredRows st) -> In b (getFilteredRows st) ->
               P a = true -> P b = true ->
               getCellSortValue st a (sortKey (sortBy st))
               = getCellSortValue st b (sortKey (sortBy st))) ->
  List.filter P (getSortedRows st) = List.filter P (getFilteredRows st).
Proof.
  intros Hs HP. unfold getSortedRows.
  destruct (sortBy st) as [ | c s ]; [ reflexivity | ].
  destruct Hs as [[=] | Hs].
  destruct (sortKey (c :: s)) as [ | k key ] eqn:Ek; [ done | ].
  apply Array_sort_filter. intros a b Hina Hinb Ha Hb. unfold rowCompare.
  rewrite (HP a b Hina Hinb Ha Hb), svlt_irrefl.
  by destruct (negb (isDesc (sortDir (c :: s)))).
Qed.

(** The scores 7, 2 and 7.0 sorted in descending order: the two rows of
    the value 7 keep their order. *)
Lemma getSortedRows_stable_witness :
  let st := setSortBy (lit "Score:desc")
              (setRows [ scoreRow "p1" "7"; scoreRow "p2" "2";
                         scoreRow "p3" "7.0" ] scenarioD) in
  map pageId (@getSortedRows exampleHost st) = [lit "p1"; lit "p3"; lit "p2"]
  /\ List.filter (fun r => negb (streq (pageId r) (lit "p2")))
       (@getSortedRows exampleHost st)
     = [ scoreRow "p1" "7"; scoreRow "p3" "7.0" ].
Proof.
  intros st. split; [ vm_compute; reflexivity | ].
  rewrite (@getSortedRows_stable exampleHost st
             (fun r => negb (streq (pageId r) (lit "p2")))).
  - vm_compute. reflexivity.
  - right. discriminate.
  - intros a b Ha Hb.
    change (getFilteredRows st)
      with [ scoreRow "p1" "7"; scoreRow "p2" "2"; scoreRow "p3" "7.0" ]
      in Ha, Hb.
    cbn [In] in Ha, Hb.
    destruct Ha as [<- | [<- | [<- | []]]], Hb as [<- | [<- | [<- | []]]];
      intros Pa Pb; try discriminate Pa; try discriminate Pb; reflexivity.
Defined.

(** ** The view: filtering *)

Lemma filter_sublist {A} (f : A -> bool) (l : list A) :
  sublist (List.filter f l) l.
Proof.
  induction l as [ | x l IH ]; [ constructor | ].
  cbn [List.filter]. destruct (f x); by constructor.
Qed.

Lemma filter_twice {A} (f : A -> bool) (l : list A) :
  List.filter f (List.filter f l) = List.filter f l.
Proof.
  induction l as [ | x l IH ]; [ reflexivity | ].
  cbn [List.filter]. destruct (f x) eqn:E; [ | exact IH ].
  cbn [List.filter]. by rewrite E, IH.
Qed.

Lemma includes_refl (s : jsstring) : includes s s = true.
Proof.
  assert (Hp : forall p, isPrefixOf p p = true).
  { induction p as [ | c p IH ]; [ reflexivity | ].
    cbn [isPrefixOf]. by rewrite N.eqb_refl, IH. }
  destruct s; cbn [includes]; by rewrite Hp.
Qed.

(** X17. The filter only ever removes rows: the filtered view is the list
    of rows with some left out, in their order. It removes none when no
    filter column is chosen, when the chosen one is no column, and when
    the operator needs a value and the value is empty or white space; and
    filtering the filtered view again removes nothing more. *)
Theorem getFilteredRows_sublist `{Host} (st : WidgetState) :
  sublist (getFilteredRows st) (rows st)
  /\ (filterColumn st = [] \/ hasColumn st (filterColumn st) = false ->
      getFilteredRows st = rows st)
  /\ (trim (filterValue st) = [] ->
      filterOp st <> lit "is_empty" -> filterOp st <> lit "is_not_empty" ->
      getFilteredRows st = rows st)
  /\ getFilteredRows (setRows (getFilteredRows st) st) = getFilteredRows st.
Proof.
  destruct st as [p d c r l e ec s g fc fo fv].
  unfold getFilteredRows, hasColumn.
  cbn [filterColumn filterOp filterValue rows columns setRows].
  split; [ | split; [ | split ] ].
  - repeat match goal with
           | |- context [if ?b then r else _] => destruct b
           end; try reflexivity. apply filter_sublist.
  - intros [-> | ->]; [ reflexivity | ]. by rewrite orb_true_r.
  - intros -> Hne Hnn. apply streq_false in Hne, Hnn. rewrite Hne, Hnn.
    cbn. by destruct (streq fc [] || _).
  - destruct (streq fc [] || _); [ reflexivity | ].
    destruct (_ && _); [ reflexivity | ]. apply filter_twice.
Qed.

(** Scenario B with a blank value: the row stays. *)
Lemma getFilteredRows_sublist_witness :
  let st := setFilterValue (lit "  ")
              (setFilterOp (lit "equals")
                 (setFilterColumn (lit "Score") scenarioState)) in
  @getFilteredRows exampleHost st = [scenarioRow].
Proof.
  intros st.
  refine (proj1 (proj2 (proj2 (@getFilteredRows_sublist exampleHost st)))
            eq_refl _ _); discriminate.
Defined.

(** X18. With a filter column that is a column, the operators [is_empty]
    and [is_not_empty] split the rows in two: no row passes both, and the
    rows that pass the one together with the rows that pass the other are
    the rows, each once. The filter value plays no part. *)
Theorem getFilteredRows_empty_partition `{Host} (st : WidgetState) :
  filterColumn st <> [] ->
  hasColumn st (filterColumn st) = true ->
  let empty := getFilteredRows (setFilterOp (lit "is_empty") st) in
  let others := getFilteredRows (setFilterOp (lit "is_not_empty") st) in
  Permutation (empty ++ others) (rows st)
  /\ (forall row, In row empty -> In row others -> False)
  /\ (forall v,
        getFilteredRows
          (setFilterValue v (setFilterOp (lit "is_empty") st)) = empty).
Proof.
  destruct st as [p d c r l e ec s g fc fo fv].
  cbn [filterColumn]. intros Hfc%streq_false Hcol.
  unfold getFilteredRows, hasColumn in *.
  cbn [filterColumn filterOp filterValue rows columns setFilterOp
       setFilterValue] in *.
  rewrite Hfc, Hcol. cbn [orb negb andb].
  change (streq (lit "is_empty") (lit "is_empty")) with true.
  change (streq (lit "is_not_empty") (lit "is_not_empty")) with true.
  change (streq (lit "is_not_empty") (lit "is_empty")) with false.
  change (streq (lit "is_empty") (lit "contains")) with false.
  change (streq (lit "is_empty") (lit "equals")) with false.
  change (streq (lit "is_not_empty") (lit "contains")) with false.
  change (streq (lit "is_not_empty") (lit "equals")) with false.
  cbn [negb andb].
  split; [ apply filter_split | ]. split; [ | reflexivity ].
  intros row [_ He]%filter_In [_ Hn]%filter_In.
  rewrite He in Hn. discriminate.
Qed.

(** The rows with the scores 10 and 2 and a row without a score. *)
Lemma getFilteredRows_empty_partition_witness :
  let blank := {| pageId := lit "p3"; cells := ∅; created_time := None;
                  last_edited_time := None |} in
  let st := setFilterColumn (lit "Score")
              (setRows (rows scenarioD ++ [blank]) scenarioD) in
  @getFilteredRows exampleHost (setFilterOp (lit "is_empty") st) = [blank]
  /\ Permutation
       (@getFilteredRows exampleHost (setFilterOp (lit "is_empty") st)
        ++ @getFilteredRows exampleHost (setFilterOp (lit "is_not_empty") st))
       (rows st).
Proof.
  intros blank st. split; [ vm_compute; reflexivity | ].
  refine (proj1 (@getFilteredRows_empty_partition exampleHost st _ eq_refl)).
  discriminate.
Defined.

(** X19. A row that passes the filter [equals] passes the filter
    [contains] for the same column and value. *)
Theorem getFilteredRows_equals_contains `{Host} (st : WidgetState)
    (row : RowData) :
  In row (getFilteredRows (setFilterOp (lit "equals") st)) ->
  In row (getFilteredRows (setFilterOp (lit "contains") st)).
Proof.
  destruct st as [p d c r l e ec s g fc fo fv].
  unfold getFilteredRows, hasColumn.
  cbn [filterColumn filterOp filterValue rows columns setFilterOp].
  destruct (streq fc [] || _); [ done | ].
  change (streq (lit "equals") (lit "is_empty")) with false.
  change (streq (lit "equals") (lit "is_not_empty")) with false.
  change (streq (lit "contains") (lit "is_empty")) with false.
  change (streq (lit "contains") (lit "is_not_empty")) with false.
  change (streq (lit "equals") (lit "contains")) with false.
  change (streq (lit "equals") (lit "equals")) with true.
  change (streq (lit "contains") (lit "contains")) with true.
  cbn [negb andb]. destruct (streq (toLowerCase (trim fv)) []); [ done | ].
  rewrite !filter_In. intros [Hin Heq]. split; [ exact Hin | ].
  apply streq_true in Heq. rewrite Heq. apply includes_refl.
Qed.

(** Scenario B: the row whose score equals 3 also contains 3. *)
Lemma getFilteredRows_equals_contains_witness :
  let st := setFilterValue (lit "3")
              (setFilterColumn (lit "Score") scenarioState) in
  In scenarioRow (@getFilteredRows exampleHost (setFilterOp (lit "contains") st)).
Proof.
  intros st.
  apply (@getFilteredRows_equals_contains exampleHost st scenarioRow).
  vm_compute. by left.
Defined.

(** A sync does not touch the cell being edited. *)
Lemma fetchFromNotion_all_or_nothing_editing `{Host} (st : WidgetState)
    (reply : Settled (Response NotionDatabaseResponse
                      * Response NotionDatabaseQueryResponse) * jsstring) :
  editingCell (run (fetchFromNotion st) reply) = editingCell st.
Proof.
  destruct st as [p d c r l e ec s g fc fo fv].
  destruct reply as [settled now]. unfold fetchFromNotion.
  cbn [proxyUrl databaseId].
  destruct (streq (trim p) [] || streq (trim d) []); [ reflexivity | ].
  cbn [run setError]. destruct settled as [message | [schemaRes queryRes]];
    [ reflexivity | ].
  destruct (ok queryRes); cbn [negb]; [ | reflexivity ].
  destruct (if ok schemaRes then _ else _) as [message | schema];
    [ reflexivity | ].
  by destruct (responseJson queryRes).
Qed.

(** ** Cell update: the request *)

(** X20. Saving without a cell being edited does nothing and sends
    nothing. Saving with one sends exactly one request: a [PATCH] of the
    page of the cell, whose body is the update built for the property of
    the cell, its value and its type (when the cell carries no type, the
    type of the column of that name, and [rich_text] when there is none).
    Whatever comes back, the columns, the time of the last sync and the
    settings are as before; after a failure status the message is
    ["Update failed: "], the status, a space and the first 80 code units
    of the body, and after a success it is empty. *)
Theorem saveCellEdit_request (st : WidgetState) (newValue : jsstring)
    (reply : Settled (Response unit)) :
  (editingCell st = None ->
   saveCellEdit newValue st = Return st)
  /\ (forall cell, editingCell st = Some cell ->
      requestsOf (saveCellEdit newValue st)
      = [ {| req_url := stripTrailingSlash (proxyUrl st)
                        ++ lit "/notion/pages/" ++ ec_pageId cell;
             req_method := lit "PATCH";
             req_body :=
               Some (PatchBody
                       (buildNotionPropertyUpdate (ec_property cell)
                          (default
                             (default (lit "rich_text")
                                (type <$>
                                   find (fun c => streq (propertyName c)
                                                    (ec_property cell))
                                     (columns st)))
                             (ec_columnType cell))
                          newValue)) |} ]
      /\ forall res, reply = Fulfilled res ->
           error (run (saveCellEdit newValue st) reply)
           = if ok res then []
             else lit "Update failed: " ++ digitsOfN (status res) ++ lit " "
                  ++ slice0 80 (responseText res))
  /\ columns (run (saveCellEdit newValue st) reply) = columns st
  /\ lastSynced (run (saveCellEdit newValue st) reply) = lastSynced st
  /\ sameSettings st (run (saveCellEdit newValue st) reply).
Proof.
  destruct st as [p d c r l e ec s g fc fo fv]. unfold saveCellEdit.
  cbn [editingCell]. split; [ by intros -> | ]. split.
  - intros cell ->. cbn [requestsOf setEditingCell proxyUrl columns run].
    split.
    + by destruct (ec_columnType cell), (find _ c).
    + intros res ->. by destruct (ok res).
  - destruct ec as [cell | ]; [ | done ].
    destruct reply as [message | res]; cbn; [ done | ].
    by destruct (ok res).
Qed.

(** The edit of scenario C: one [PATCH] of the page [p1]. *)
Lemma saveCellEdit_request_witness :
  let st := setEditingCell (Some scenarioCell) scenarioState in
  map req_url (requestsOf (saveCellEdit (lit "7") st))
  = [ lit "https://proxy.example.dev/notion/pages/p1" ]
  /\ map req_body (requestsOf (saveCellEdit (lit "7") st))
     = [ Some (PatchBody [(lit "Score", numberUpdate (Val 7%float))]) ].
Proof.
  intros st.
  destruct (proj1 (proj2 (saveCellEdit_request st (lit "7")
                            (Rejected [])))
              scenarioCell eq_refl) as [-> _].
  split; reflexivity.
Defined.

(** ** Clicks on cells *)

(** X21. No edit of a read-only column is ever in progress. A click on a
    cell of a [formula], [rollup] or [people] column, or on the cell that
    is being edited, changes nothing; any other click makes the clicked
    cell the one being edited, with the type of its column and its current
    value, in place of the one before. So if the cell being edited is of a
    writable type, it still is after a click, a save, a sync or a choice
    in the menu, whatever comes back. *)
Theorem onCellClick_never_read_only `{Host} (st : WidgetState) (row : RowData)
    (col : ColumnDef) :
  (isReadOnlyType (type col) = true \/ isEditing st row col = true ->
   onCellClick st row col = st)
  /\ (isReadOnlyType (type col) = false -> isEditing st row col = false ->
      onCellClick st row col
      = setEditingCell
          (Some {| ec_pageId := pageId row; ec_property := propertyName col;
                   ec_columnType := Some (type col);
                   ec_value := cellOr [] row (propertyName col) |})
          st)
  /\ (editingWritable st ->
      editingWritable (onCellClick st row col)
      /\ (forall v reply, editingWritable (run (saveCellEdit v st) reply))
      /\ (forall reply, editingWritable (run (fetchFromNotion st) reply))
      /\ (forall n v reply,
            editingWritable (run (onPropertyMenu n v st) reply))).
Proof.
  unfold onCellClick. split; [ | split ].
  - intros [-> | ->]; [ reflexivity | ]. by rewrite andb_false_r.
  - by intros -> ->.
  - intros Hw.
    assert (Hsync : forall reply,
               editingWritable (run (fetchFromNotion st) reply)).
    { intros reply.
      pose proof (fetchFromNotion_all_or_nothing_editing st reply) as He.
      unfold editingWritable. by rewrite He. }
    split; [ | split; [ | split; [ exact Hsync | ] ] ].
    + destruct (negb (isReadOnlyType (type col))
                && negb (isEditing st row col)) eqn:E; [ | exact Hw ].
      apply andb_true_iff in E as [E _]. apply negb_true_iff in E.
      unfold editingWritable, editCell. rewrite editingCell_setEditingCell.
      by eexists.
    + intros v reply. unfold saveCellEdit, editingWritable in *.
      destruct (editingCell st) as [cell | ] eqn:Ec; cbn [run].
      * by destruct reply as [m | res]; [ | destruct (ok res) ]; cbn [negb];
          rewrite ?editingCell_setError, ?editingCell_setRows,
            editingCell_setEditingCell.
      * by rewrite Ec.
    + intros n v reply. unfold onPropertyMenu.
      destruct (streq n (lit "sync")); [ apply Hsync | ].
      unfold editingWritable in *.
      repeat match goal with
             | |- context [if ?b then _ else _] => destruct b
             end; cbn [run]; by destruct st.
Qed.

(** A click on the score of scenario C, and a click on a formula cell. *)
Lemma onCellClick_never_read_only_witness :
  let score := {| name := lit "Score"; propertyName := lit "Score";
                  type := lit "number"; options := None |} in
  let total := {| name := lit "Total"; propertyName := lit "Total";
                  type := lit "formula"; options := None |} in
  editingCell (onCellClick scenarioState scenarioRow score)
  = Some scenarioCell
  /\ onCellClick scenarioState scenarioRow total = scenarioState.
Proof.
  intros score total. split.
  - rewrite (proj1 (proj2 (@onCellClick_never_read_only exampleHost
                             scenarioState scenarioRow score))
               eq_refl eq_refl).
    reflexivity.
  - exact (proj1 (@onCellClick_never_read_only exampleHost scenarioState
                    scenarioRow total) (or_introl eq_refl)).
Defined.

(** ** The property menu *)

(** Evaluates the comparisons of two literals. *)
Ltac eval_streq :=
  repeat match goal with
         | |- context [streq (lit ?a) (lit ?b)] =>
           let r := eval vm_compute in (streq (lit a) (lit b)) in
           change (streq (lit a) (lit b)) with r
         end;
  cbv iota.

Lemma selectedOr_In (fallback current : jsstring) (options : list MenuOption) :
  In fallback (map mo_option options) ->
  In (selectedOr fallback current options) (map mo_option options).
Proof.
  intros Hf. unfold selectedOr.
  destruct (existsb _ options) eqn:E; [ | exact Hf ].
  apply existsb_exists in E as (o & Ho & Heq%streq_true).
  rewrite <- Heq. by apply in_map.
Qed.

Lemma selectedOr_offered (fallback current : jsstring)
    (options : list MenuOption) :
  In current (map mo_option options) ->
  selectedOr fallback current options = current.
Proof.
  intros (o & <- & Ho)%in_map_iff. unfold selectedOr.
  assert (existsb (fun o' => streq (mo_option o') (mo_option o)) options
          = true) as ->; [ | reflexivity ].
  apply existsb_exists. exists o. split; [ exact Ho | apply streq_refl ].
Qed.

(** X22. In every state, the option that a dropdown of the menu shows as
    selected is one of the options it offers: the stored choice when it is
    offered, and otherwise the empty choice, or [contains] for the filter
    operator. The dropdown for the filter value is there exactly when a
    filter column is set and the operator is [contains] or [equals]. *)
Theorem menuItems_selected_offered `{Host} (st : WidgetState) :
  (forall n t sel opts,
     In (Dropdown n t sel opts) (menuItems st) ->
     In sel (map mo_option opts))
  /\ (dropdownSelected (lit "filterValue") (menuItems st) <> None
      <-> needsFilterValue st = true).
Proof.
  split.
  - intros n t sel opts Hin. unfold menuItems in Hin.
    apply in_app_or in Hin as [Hin | Hin].
    + cbn [In] in Hin.
      repeat match type of Hin with
             | _ \/ _ => destruct Hin as [Hin | Hin]
             end; try discriminate Hin; try done;
        injection Hin as <- <- <- <-; apply selectedOr_In; cbn; tauto.
    + destruct (needsFilterValue st) eqn:E; [ | done ].
      destruct Hin as [Hin | []]. injection Hin as <- <- <- <-.
      apply selectedOr_In. unfold filterValueOptions. rewrite E. by left.
  - unfold menuItems. cbn [app dropdownSelected].
    change (streq (lit "sort") (lit "filterValue")) with false.
    change (streq (lit "group") (lit "filterValue")) with false.
    change (streq (lit "filterColumn") (lit "filterValue")) with false.
    change (streq (lit "filterOp") (lit "filterValue")) with false.
    cbv iota. by destruct (needsFilterValue st).
Qed.

Lemma dedupe_fold (l acc : list jsstring) :
  NoDup acc ->
  let r := fold_left
             (fun acc x => if existsb (streq x) acc then acc else acc ++ [x])
             l acc in
  NoDup r /\ forall x, In x r <-> In x acc \/ In x l.
Proof.
  revert acc. induction l as [ | y l IH ]; intros acc Hnd; cbn [fold_left].
  - split; [ exact Hnd | ]. intros x. cbn. tauto.
  - destruct (existsb (streq y) acc) eqn:E.
    + destruct (IH acc Hnd) as [Hr Hin]. split; [ exact Hr | ].
      intros x. rewrite Hin. cbn [In].
      apply existsb_exists in E as (z & Hz & ->%streq_true).
      split; [ tauto | ]. intros [? | [<- | ?]]; tauto.
    + assert (Hy : ~ In y acc).
      { intros Hy. rewrite <- not_true_iff_false in E. apply E.
        apply existsb_exists. exists y. split; [ exact Hy | apply streq_refl ]. }
      destruct (IH (acc ++ [y])) as [Hr Hin].
      { apply NoDup_app. split; [ exact Hnd | ].
        split; [ | apply NoDup_singleton ].
        intros x Hx%list_elem_of_In Hx'%list_elem_of_In.
        destruct Hx' as [<- | []]. done. }
      split; [ exact Hr | ]. intros x. rewrite Hin, in_app_iff. cbn [In].
      tauto.
Qed.

(** X23. The filter value dropdown offers the empty choice first and then
    at most 50 values, no two the same; each is the trimmed cell of the
    filter column in some row, is not empty and is not the dash, and is
    labelled by itself. *)
Theorem filterValueOptions_offered `{Host} (st : WidgetState) :
  exists values,
    map mo_option (filterValueOptions st) = [] :: values
    /\ (length values <= 50)%nat
    /\ NoDup ([] :: values)
    /\ (forall v, In v values ->
          v <> [] /\ v <> em_dash
          /\ In {| mo_option := v; mo_label := v |} (filterValueOptions st)
          /\ exists row, In row (rows st)
                         /\ trim (cellOr [] row (filterColumn st)) = v).
Proof.
  unfold filterValueOptions. destruct (needsFilterValue st).
  2: { exists []. split; [ reflexivity | ]. split; [ cbn; lia | ].
       split; [ apply NoDup_singleton | intros v [] ]. }
  set (cellsOf := map _ (rows st)).
  set (kept := List.filter _ cellsOf).
  destruct (dedupe_fold kept [] (NoDup_nil_2)) as [Hnd Hin].
  fold (dedupe kept) in Hnd, Hin.
  set (sorted := Array_sort byLocale (dedupe kept)).
  assert (Hperm : Permutation sorted (dedupe kept))
    by apply Array_sort_Permutation.
  exists (firstn 50 sorted). cbn [map]. rewrite map_map. cbn [mo_option].
  rewrite map_id. split; [ reflexivity | ].
  split; [ apply firstn_le_length | ].
  assert (Hv : forall v, In v (firstn 50 sorted) -> In v kept).
  { intros v Hv%list_elem_of_In.
    apply (elem_of_sublist _ sorted) in Hv; [ | apply sublist_take ].
    apply list_elem_of_In in Hv. apply (Permutation_in _ Hperm) in Hv.
    apply Hin in Hv as [[] | Hv]. exact Hv. }
  assert (Hk : forall v, In v kept ->
                 v <> [] /\ v <> em_dash
                 /\ exists row, In row (rows st)
                                /\ trim (cellOr [] row (filterColumn st)) = v).
  { intros v [Hc Hb]%filter_In.
    apply andb_true_iff in Hb as [Hb1 Hb2].
    apply negb_true_iff, streq_false in Hb1, Hb2.
    split; [ exact Hb1 | ]. split; [ exact Hb2 | ].
    apply in_map_iff in Hc as (row & <- & Hrow). by exists row. }
  split.
  - apply NoDup_cons. split.
    + intros Hv'%list_elem_of_In. by destruct (Hk [] (Hv [] Hv')).
    + apply (sublist_NoDup _ sorted); [ by rewrite Hperm | apply sublist_take ].
  - intros v Hv'. destruct (Hk v (Hv v Hv')) as (H1 & H2 & H3).
    split; [ exact H1 | ]. split; [ exact H2 | ]. split; [ | exact H3 ].
    right. apply in_map_iff. by exists v.
Qed.

(** X24. A choice made in a dropdown of the menu is the one the menu
    then shows as selected, when it is one of the options offered; and a
    choice in the menu other than a sync changes neither the rows, nor the
    columns, nor the cell being edited, and sends nothing. *)
Theorem onPropertyMenu_selects `{Host} (st : WidgetState)
    (n v : jsstring) (reply : Settled (Response NotionDatabaseResponse
                               * Response NotionDatabaseQueryResponse)
                              * jsstring) :
  let st' := run (onPropertyMenu n (Some v) st) reply in
  (n <> lit "sync" ->
   requestsOf (onPropertyMenu n (Some v) st) = []
   /\ rows st' = rows st /\ columns st' = columns st
   /\ editingCell st' = editingCell st /\ error st' = error st)
  /\ (n = lit "sort" -> In v (map mo_option (sortOptions st)) ->
      dropdownSelected n (menuItems st') = Some v)
  /\ (n = lit "group" -> In v (map mo_option (groupOptions st)) ->
      dropdownSelected n (menuItems st') = Some v)
  /\ (n = lit "filterColumn" ->
      In v (map mo_option (filterColumnOptions st)) ->
      dropdownSelected n (menuItems st') = Some v)
  /\ (n = lit "filterOp" -> In v (map mo_option filterOpOptions) ->
      dropdownSelected n (menuItems st') = Some v).
Proof.
  destruct st as [p d c r l e ec s g fc fo fv]. cbn zeta.
  split; [ | split; [ | split; [ | split ] ] ].
  - intros Hn%streq_false. unfold onPropertyMenu. rewrite Hn.
    repeat match goal with
           | |- context [if ?b then _ else _] => destruct b
           end; by cbn.
  - intros -> Hv. unfold onPropertyMenu. eval_streq. cbn [run].
    unfold menuItems. cbn [app dropdownSelected]. eval_streq.
    f_equal. by apply selectedOr_offered.
  - intros -> Hv. unfold onPropertyMenu. eval_streq. cbn [run].
    unfold menuItems. cbn [app dropdownSelected]. eval_streq.
    f_equal. by apply selectedOr_offered.
  - intros -> Hv. unfold onPropertyMenu. eval_streq. cbn [run].
    unfold menuItems. cbn [app dropdownSelected]. eval_streq.
    f_equal. by apply selectedOr_offered.
  - intros -> Hv. unfold onPropertyMenu. eval_streq. cbn [run].
    unfold menuItems. cbn [app dropdownSelected]. eval_streq.
    f_equal. by apply selectedOr_offered.
Qed.

(** The choice to sort by [Score], descending, in scenario C. *)
Lemma onPropertyMenu_selects_witness :
  let st' := run (@onPropertyMenu exampleHost (lit "sort")
                    (Some (lit "Score:desc")) scenarioState)
               (Rejected [], []) in
  sortBy st' = lit "Score:desc"
  /\ dropdownSelected (lit "sort") (@menuItems exampleHost st')
     = Some (lit "Score:desc")
  /\ rows st' = [scenarioRow].
Proof.
  intros st'.
  destruct (@onPropertyMenu_selects exampleHost scenarioState (lit "sort")
              (lit "Score:desc") (Rejected [], []))
    as (Hframe & Hsort & _).
  split; [ reflexivity | ]. split.
  - apply Hsort; [ reflexivity | ]. cbn. tauto.
  - apply Hframe. discriminate.
Defined.

(** ** Escaping *)

Lemma replaceAll_In (c : N) (by_ s : jsstring) (x : N) :
  In x (replaceAll c by_ s) -> In x by_ \/ (In x s /\ x <> c).
Proof.
  unfold replaceAll. intros (y & Hy & Hx)%in_flat_map.
  destruct (N.eqb_spec y c) as [-> | Hne]; [ by left | ].
  destruct Hx as [<- | []]. by right.
Qed.

Lemma replaceAll_absent (c : N) (by_ s : jsstring) :
  ~ In c s -> replaceAll c by_ s = s.
Proof.
  unfold replaceAll. induction s as [ | y s IH ]; [ reflexivity | ].
  intros Hc. cbn [flat_map In] in *.
  rewrite (proj2 (N.eqb_neq y c)) by tauto. cbn [app]. rewrite IH; tauto.
Qed.

(** X25. An escaped string contains no [<], no [>] and no double quote;
    and a string without [&], [<], [>] and double quote is escaped to
    itself. *)
Theorem escapeHtml_safe (s : jsstring) :
  ~ In 60 (escapeHtml s) /\ ~ In 62 (escapeHtml s) /\ ~ In 34 (escapeHtml s)
  /\ (~ In 38 s -> ~ In 60 s -> ~ In 62 s -> ~ In 34 s -> escapeHtml s = s).
Proof.
  unfold escapeHtml.
  assert (Hent : forall x e,
             In e ["&quot;"; "&gt;"; "&lt;"; "&amp;"]%string ->
             In x (lit e) -> x <> 60 /\ x <> 62 /\ x <> 34).
  { intros x e He Hx. cbn [In] in He.
    destruct He as [<- | [<- | [<- | [<- | []]]]]; cbn in Hx;
      decompose [or] Hx; try done; subst x; done. }
  assert (Hstep : forall x, In x
            (replaceAll 34 (lit "&quot;")
               (replaceAll 62 (lit "&gt;")
                  (replaceAll 60 (lit "&lt;")
                     (replaceAll 38 (lit "&amp;") s)))) ->
            x <> 60 /\ x <> 62 /\ x <> 34).
  { intros x Hx.
    apply replaceAll_In in Hx as [Hx | [Hx H34]];
      [ apply (Hent x "&quot;"%string); cbn; tauto | ].
    apply replaceAll_In in Hx as [Hx | [Hx H62]];
      [ apply (Hent x "&gt;"%string); cbn; tauto | ].
    apply replaceAll_In in Hx as [Hx | [Hx H60]];
      [ apply (Hent x "&lt;"%string); cbn; tauto | ].
    done. }
  split; [ intros Hx; by destruct (Hstep _ Hx) as (? & ? & ?) | ].
  split; [ intros Hx; by destruct (Hstep _ Hx) as (? & ? & ?) | ].
  split; [ intros Hx; by destruct (Hstep _ Hx) as (? & ? & ?) | ].
  intros H38 H60 H62 H34.
  rewrite (replaceAll_absent 38) by done.
  rewrite (replaceAll_absent 60) by done.
  rewrite (replaceAll_absent 62) by done.
  by rewrite (replaceAll_absent 34).
Qed.

(** A tag with an attribute, and a plain word. *)
Lemma escapeHtml_safe_witness :
  escapeHtml (lit "<a b=" ++ [34] ++ lit "c&d" ++ [34] ++ lit ">")
  = lit "&lt;a b=&quot;c&amp;d&quot;&gt;"
  /\ escapeHtml (lit "Alpha") = lit "Alpha".
Proof.
  split; [ reflexivity | ].
  apply (proj2 (proj2 (proj2 (escapeHtml_safe (lit "Alpha")))));
    cbn; intros Hin; decompose [or] Hin; discriminate || done.
Defined.

(** ** The proxy *)

Ltac header_ne :=
  let H := fresh in intros H; vm_compute in H; discriminate H.

(** X26. A request to the function at [/functions/v1/notion-proxy] whose
    path goes on with [/notion/] is sent to the API under [/v1/] with the
    rest of the path and the query string as they are; a path without
    [/notion-proxy/notion/] is sent to [/v1] itself. *)
Theorem notionUrl_maps_path (req : ProxyRequest) (rest : jsstring) :
  (pr_pathname req = lit "/functions/v1/notion-proxy/notion/" ++ rest ->
   forallb (fun c => negb (isLineTerminator c)) rest = true ->
   notionUrl req = lit "https://api.notion.com/v1/" ++ rest ++ pr_search req)
  /\ (findAfter (lit "/notion-proxy/notion/") (pr_pathname req) = None ->
      notionUrl req = lit "https://api.notion.com/v1" ++ pr_search req).
Proof.
  unfold notionUrl, notionPath. split.
  - intros -> Hrest.
    change (findAfter (lit "/notion-proxy/notion/")
              (lit "/functions/v1/notion-proxy/notion/" ++ rest))
      with (Some rest).
    cbv iota beta.
    assert (takeWhile (fun c => negb (isLineTerminator c)) rest = rest) as ->.
    { induction rest as [ | c rest IH ]; [ reflexivity | ].
      cbn [forallb takeWhile] in *.
      apply andb_true_iff in Hrest as [-> Hrest]. by rewrite IH. }
    reflexivity.
  - by intros ->.
Qed.

(** The query request of the widget, as the function receives it. *)
Lemma notionUrl_maps_path_witness :
  notionUrl {| pr_method := lit "POST";
               pr_pathname :=
                 lit "/functions/v1/notion-proxy/notion/databases/abc/query";
               pr_search := []; pr_body := lit "{}" |}
  = lit "https://api.notion.com/v1/databases/abc/query"
  /\ notionUrl {| pr_method := lit "GET"; pr_pathname := lit "/health";
                  pr_search := lit "?x=1"; pr_body := [] |}
     = lit "https://api.notion.com/v1?x=1".
Proof.
  split.
  - exact (proj1 (notionUrl_maps_path
                    {| pr_method := lit "POST";
                       pr_pathname :=
                         lit "/functions/v1/notion-proxy/notion/databases/abc/query";
                       pr_search := []; pr_body := lit "{}" |}
                    (lit "databases/abc/query")) eq_refl eq_refl).
  - exact (proj2 (notionUrl_maps_path
                    {| pr_method := lit "GET"; pr_pathname := lit "/health";
                       pr_search := lit "?x=1"; pr_body := [] |} [])
             eq_refl).
Defined.

(** X27. The proxy calls the API only with a key: a preflight request is
    answered at once with status 200, and any other request without a
    configured key, or with an empty one, with status 500. A call that is
    made carries the configured key as its bearer token, the method of the
    request, and the body of the request unless the method is [GET] or
    [HEAD]; the answer has the status and the body of the API's answer and
    its headers, except for the three CORS headers that are set. Every
    answer allows any origin. *)
Theorem proxyHandler_guards (apiKey : option jsstring) (req : ProxyRequest) :
  (pr_method req = lit "OPTIONS" ->
   proxyHandler apiKey req
   = Respond {| res_status := 200; res_headers := corsHeaders;
                res_body := None |})
  /\ (pr_method req <> lit "OPTIONS" ->
      apiKey = None \/ apiKey = Some [] ->
      exists r, proxyHandler apiKey req = Respond r /\ res_status r = 500)
  /\ (forall request answer,
        proxyHandler apiKey req = Forward request answer ->
        pr_method req <> lit "OPTIONS"
        /\ (exists key, apiKey = Some key /\ key <> []
              /\ up_headers request !! headerName "Authorization"
                 = Some (lit "Bearer " ++ key))
        /\ up_url request = notionUrl req
        /\ up_method request = pr_method req
        /\ up_body request
           = (if streq (pr_method req) (lit "GET")
                 || streq (pr_method req) (lit "HEAD")
              then None else Some (pr_body req))
        /\ forall response,
             res_status (answer response) = res_status response
             /\ res_body (answer response) = res_body response
             /\ res_headers (answer response)
                  !! headerName "Access-Control-Allow-Origin"
                = Some (lit "*")
             /\ forall h,
                  h <> headerName "Access-Control-Allow-Origin" ->
                  h <> headerName "Access-Control-Allow-Methods" ->
                  h <> headerName "Access-Control-Allow-Headers" ->
                  res_headers (answer response) !! h
                  = res_headers response !! h)
  /\ (forall r, proxyHandler apiKey req = Respond r ->
        res_headers r !! headerName "Access-Control-Allow-Origin"
        = Some (lit "*")).
Proof.
  unfold proxyHandler.
  split; [ by intros ->%streq_true | ].
  split; [ intros Hm%streq_false; rewrite Hm;
           intros [-> | ->]; by eexists | ].
  destruct (streq (pr_method req) (lit "OPTIONS")) eqn:Em.
  { split; [ discriminate | ]. by intros r [= <-]. }
  apply streq_false in Em.
  destruct apiKey as [[ | c key] | ].
  1, 3: split; [ discriminate | ]; by intros r [= <-].
  split; [ | discriminate ].
  intros request answer [= <- <-].
  cbn [up_url up_method up_headers up_body res_status res_headers res_body].
  split; [ exact Em | ]. split.
  { exists (c :: key). split; [ done | ]. split; [ done | ].
    rewrite lookup_insert_ne by header_ne.
    rewrite lookup_insert_ne by header_ne.
    apply lookup_insert_eq. }
  split; [ done | ]. split; [ done | ].
  split; [ by destruct (streq (pr_method req) (lit "GET")),
              (streq (pr_method req) (lit "HEAD")) | ].
  intros response. split; [ done | ]. split; [ done | ]. split.
  - rewrite lookup_insert_ne by header_ne.
    rewrite lookup_insert_ne by header_ne.
    apply lookup_insert_eq.
  - intros h H1 H2 H3. by rewrite !lookup_insert_ne.
Qed.

(** The query request of the widget with the key [secret], and one
    without a key. *)
Lemma proxyHandler_guards_witness :
  let req := {| pr_method := lit "POST";
                pr_pathname :=
                  lit "/functions/v1/notion-proxy/notion/databases/abc/query";
                pr_search := []; pr_body := lit "{}" |} in
  (exists r, proxyHandler None req = Respond r /\ res_status r = 500)
  /\ exists request answer,
      proxyHandler (Some (lit "secret")) req = Forward request answer
      /\ up_headers request !! headerName "Authorization"
         = Some (lit "Bearer secret")
      /\ up_body request = Some (lit "{}").
Proof.
  intros req. split.
  - refine (proj1 (proj2 (proxyHandler_guards None req)) _ (or_introl eq_refl)).
    discriminate.
  - eexists _, _. split; [ reflexivity | ].
    destruct (proj1 (proj2 (proj2 (proxyHandler_guards (Some (lit "secret"))
                                     req))) _ _ eq_refl)
      as (_ & (key & [= <-] & _ & Hauth) & _ & _ & Hbody & _).
    split; [ exact Hauth | exact Hbody ].
Defined.

(** ** The sorted view is in order *)

Lemma strlt_negtrans (a b c : jsstring) :
  strlt b a = false -> strlt c b = false -> strlt c a = false.
Proof.
  revert a b. induction c as [ | z c IH ]; intros a b Hba Hcb.
  - destruct b; [ exact Hba | discriminate ].
  - destruct a as [ | x a ]; [ reflexivity | ].
    destruct b as [ | y b ]; [ discriminate | ].
    cbn [strlt] in *.
    apply orb_false_iff in Hba as [Hyx Hba], Hcb as [Hzy Hcb].
    apply N.ltb_ge in Hyx, Hzy.
    apply orb_false_iff. split; [ apply N.ltb_ge; lia | ].
    destruct (N.eqb_spec z x) as [-> | ]; [ | reflexivity ].
    assert (y = x) as -> by lia.
    rewrite N.eqb_refl in Hba, Hcb. cbn [andb] in *. by apply (IH a b).
Qed.

Lemma SFltb_negtrans (x y z : spec_float) :
  x <> S754_nan -> y <> S754_nan -> z <> S754_nan ->
  SFltb y x = false -> SFltb z y = false -> SFltb z x = false.
Proof.
  unfold SFltb.
  destruct x as [[] | [] | | [] mx ex], y as [[] | [] | | [] my ey],
    z as [[] | [] | | [] mz ez];
    cbn; try done; intros _ _ _;
    change (Pos.compare_cont Eq) with Pos.compare;
    destruct (Z.compare_spec ey ex), (Z.compare_spec ez ey),
      (Z.compare_spec ez ex); try done; try lia;
    destruct (Pos.compare_spec my mx), (Pos.compare_spec mz my),
      (Pos.compare_spec mz mx); cbn; try done; lia.
Qed.

Lemma isNaN_false (x : float) : isNaN x = false -> Prim2SF x <> S754_nan.
Proof.
  unfold isNaN, PrimFloat.is_nan. rewrite FloatAxioms.eqb_spec. unfold SFeqb.
  intros E Hnan. rewrite Hnan in E. discriminate E.
Qed.

Lemma float_ltb_negtrans (x y z : float) :
  isNaN x = false -> isNaN y = false -> isNaN z = false ->
  PrimFloat.ltb y x = false -> PrimFloat.ltb z y = false ->
  PrimFloat.ltb z x = false.
Proof.
  intros Hx%isNaN_false Hy%isNaN_false Hz%isNaN_false.
  rewrite !ltb_spec. by apply SFltb_negtrans.
Qed.

(** The values of one key are all strings, or all numbers that are not
    [NaN]: which of the two depends on the key and the columns only. *)
Lemma getCellSortValue_kind `{Host} (st : WidgetState) (key : jsstring) :
  (forall row, exists s, getCellSortValue st row key = SVString s)
  \/ (forall row, exists n,
        getCellSortValue st row key = SVNumber n /\ isNaN n = false).
Proof.
  unfold getCellSortValue.
  destruct (streq key (lit "created_time")); [ left; by eexists | ].
  destruct (streq key (lit "last_edited_time")); [ left; by eexists | ].
  destruct (find _ (columns st)) as [c | ]; [ | left; by eexists ].
  destruct (streq (type c) (lit "number")); [ | left; by eexists ].
  right. intros row. eexists. split; [ reflexivity | ].
  by destruct (isNaN (parseFloat (cellOr [] row key))) eqn:E.
Qed.

Lemma rowCompare_inOrder `{Host} (st : WidgetState) (key : jsstring)
    (asc : bool) (a b : RowData) :
  inOrder (rowCompare st key asc) a b
  <-> (if asc
       then svlt (getCellSortValue st b key) (getCellSortValue st a key)
            = false
       else svlt (getCellSortValue st a key) (getCellSortValue st b key)
            = false).
Proof.
  unfold inOrder, rowCompare.
  assert (Hasym : svlt (getCellSortValue st a key) (getCellSortValue st b key)
                  = true ->
                  svlt (getCellSortValue st b key) (getCellSortValue st a key)
                  = false).
  { destruct (getCellSortValue_kind st key) as [Hk | Hk].
    - destruct (Hk a) as [sa ->], (Hk b) as [sb ->]. apply strlt_asym.
    - destruct (Hk a) as (na & -> & _), (Hk b) as (nb & -> & _).
      apply float_ltb_asym. }
  destruct (svlt (getCellSortValue st a key) (getCellSortValue st b key))
    eqn:Eab.
  - rewrite (Hasym eq_refl). by destruct asc.
  - destruct (svlt (getCellSortValue st b key) (getCellSortValue st a key)),
      asc; done.
Qed.

Lemma StronglySorted_weaken {A} (R S : A -> A -> Prop) (l : list A) :
  (forall a b, R a b -> S a b) -> StronglySorted R l -> StronglySorted S l.
Proof.
  intros HRS. induction 1 as [ | x l Hl IH Hx ]; constructor; [ exact IH | ].
  eapply Forall_impl; [ exact Hx | ]. intros b. apply HRS.
Qed.

(** X28. With a sort on a key that is not empty, the sorted view is in
    order: of any two of its rows the later one does not have the smaller
    sort value under an ascending sort, nor the greater one under a
    descending sort. *)
Theorem getSortedRows_in_order `{Host} (st : WidgetState) :
  sortBy st <> [] -> sortKey (sortBy st) <> [] ->
  StronglySorted (sortedBefore st) (getSortedRows st).
Proof.
  intros Hsort Hkey. unfold getSortedRows.
  destruct (sortBy st) as [ | c0 sb ] eqn:Esb; [ done | ].
  destruct (sortKey (c0 :: sb)) as [ | k0 key ] eqn:Ekey; [ done | ].
  set (asc := negb (isDesc (sortDir (c0 :: sb)))).
  assert (Himpl : forall a b,
             inOrder (rowCompare st (k0 :: key) asc) a b <->
             sortedBefore st a b).
  { intros a b. rewrite rowCompare_inOrder. unfold sortedBefore.
    rewrite Esb, Ekey. subst asc.
    by destruct (isDesc (sortDir (c0 :: sb))). }
  assert (Hnt : forall a b c : RowData,
             svlt (getCellSortValue st b (k0 :: key))
                  (getCellSortValue st a (k0 :: key)) = false ->
             svlt (getCellSortValue st c (k0 :: key))
                  (getCellSortValue st b (k0 :: key)) = false ->
             svlt (getCellSortValue st c (k0 :: key))
                  (getCellSortValue st a (k0 :: key)) = false).
  { intros a b c.
    destruct (getCellSortValue_kind st (k0 :: key)) as [Hk | Hk].
    - destruct (Hk a) as [sa ->], (Hk b) as [sb' ->], (Hk c) as [sc ->].
      apply strlt_negtrans.
    - destruct (Hk a) as (na & -> & Ha), (Hk b) as (nb & -> & Hb),
        (Hk c) as (nc & -> & Hc).
      by apply float_ltb_negtrans. }
  assert (Has : forall a b : RowData,
             svlt (getCellSortValue st a (k0 :: key))
                  (getCellSortValue st b (k0 :: key)) = false
             \/ svlt (getCellSortValue st b (k0 :: key))
                     (getCellSortValue st a (k0 :: key)) = false).
  { intros a b.
    destruct (svlt (getCellSortValue st a (k0 :: key))
                (getCellSortValue st b (k0 :: key))) eqn:E; [ | by left ].
    right. destruct (getCellSortValue_kind st (k0 :: key)) as [Hk | Hk].
    - destruct (Hk a) as [sa Ea], (Hk b) as [sb' Eb].
      rewrite Ea, Eb in *. by apply strlt_asym.
    - destruct (Hk a) as (na & Ea & _), (Hk b) as (nb & Eb & _).
      rewrite Ea, Eb in *. by apply float_ltb_asym. }
  apply (StronglySorted_weaken (inOrder (rowCompare st (k0 :: key) asc)));
    [ | apply (Array_sort_sorted (rowCompare st (k0 :: key) asc)) ].
  - intros a b. apply Himpl.
  - intros a b. rewrite !rowCompare_inOrder.
    destruct asc; destruct (Has a b); tauto.
  - intros a b c. rewrite !rowCompare_inOrder.
    destruct asc; [ apply Hnt | intros ? ?; by apply (Hnt c b a) ].
Qed.

(** The scores [10] and [2] under an ascending sort by the number column. *)
Lemma getSortedRows_in_order_witness :
  StronglySorted (@sortedBefore exampleHost scenarioD)
    (@getSortedRows exampleHost scenarioD).
Proof.
  apply (@getSortedRows_in_order exampleHost scenarioD); vm_compute; discriminate.
Defined.
